(** * ReviewBot: the merge-request review pipeline

    A shallow embedding of the review pipeline of the ReviewBot backend
    (diff processor, GitLab service, LLM service, issue verifier and
    review processor), and the properties of the specification that are
    checked against it.

    Conventions of the embedding.
    - JavaScript strings are [string]s of 8-bit characters; the character
      classes [\s], [\b] and [toLowerCase] are the ASCII ones.
    - JavaScript numbers that hold line numbers, counters and scores are
      integers ([Z]) or naturals ([nat]) when they count elements.
    - Values are typed as the TypeScript interfaces declare them
      (severity and type of an issue are the four-valued unions).
    - Every call that leaves the process (GitLab, Azure OpenAI, Prisma) is
      an operation of the [World] class below: it reads and updates an
      abstract environment and may fail.  Logging is not modelled. *)

From Stdlib Require Import List String Ascii ZArith Lia Bool Arith DecimalString Permutation Sorted.
Import ListNotations.

Local Open Scope string_scope.
Local Open Scope list_scope.

(* ================================================================== *)
(** ** JavaScript strings *)
(* ================================================================== *)

Module Js.

Definition chars (s : string) : list ascii := list_ascii_of_string s.
Definition str (l : list ascii) : string := string_of_list_ascii l.

Definition code (c : ascii) : nat := nat_of_ascii c.

Definition between (lo hi : nat) (c : ascii) : bool :=
  (lo <=? code c)%nat && (code c <=? hi)%nat.

Definition isUpper : ascii -> bool := between 65 90.
Definition isLower : ascii -> bool := between 97 122.
Definition isDigit : ascii -> bool := between 48 57.
Definition isCode (n : nat) (c : ascii) : bool := (code c =? n)%nat.

(** [\w] *)
Definition isWord (c : ascii) : bool :=
  isUpper c || isLower c || isDigit c || isCode 95 c.

(** [[A-Za-z0-9_$]] *)
Definition isIdent (c : ascii) : bool := isWord c || isCode 36 c.

(** [\s], and the characters removed by [trim] *)
Definition isSpace (c : ascii) : bool :=
  between 9 13 c || isCode 32 c.

(** a single quote, a double quote or a backquote *)
Definition isQuote (c : ascii) : bool := isCode 39 c || isCode 34 c || isCode 96 c.

(** [.] : anything but a line terminator *)
Definition isDot (c : ascii) : bool := negb (isCode 10 c || isCode 13 c).

Definition lowerChar (c : ascii) : ascii :=
  if isUpper c then ascii_of_nat (code c + 32) else c.

Fixpoint toLowerCase (s : string) : string :=
  match s with
  | EmptyString => EmptyString
  | String c s' => String (lowerChar c) (toLowerCase s')
  end.

Definition upperChar (c : ascii) : ascii :=
  if isLower c then ascii_of_nat (code c - 32) else c.

Fixpoint toUpperCase (s : string) : string :=
  match s with
  | EmptyString => EmptyString
  | String c s' => String (upperChar c) (toUpperCase s')
  end.

(** The text of a number in a template literal. *)
Definition showNat (n : nat) : string := NilZero.string_of_uint (Nat.to_uint n).
Definition showZ (z : Z) : string := NilZero.string_of_int (Z.to_int z).

(** The double quote, and a text between double quotes. *)
Definition dq : string := String (ascii_of_nat 34) EmptyString.
Definition quoted (s : string) : string := dq ++ s ++ dq.

Fixpoint startsWith (s p : string) : bool :=
  match p, s with
  | EmptyString, _ => true
  | String _ _, EmptyString => false
  | String a p', String b s' => Ascii.eqb a b && startsWith s' p'
  end.

Fixpoint includes (s sub : string) : bool :=
  startsWith s sub ||
  match s with
  | EmptyString => false
  | String _ s' => includes s' sub
  end.

Fixpoint dropWhile (p : ascii -> bool) (l : list ascii) : list ascii :=
  match l with
  | c :: l' => if p c then dropWhile p l' else l
  | [] => []
  end.

Definition trimStart (s : string) : string := str (dropWhile isSpace (chars s)).
Definition trimEnd (s : string) : string :=
  str (rev (dropWhile isSpace (rev (chars s)))).
Definition trim (s : string) : string := trimEnd (trimStart s).

(** [s.split(sep)] for a non-empty separator: never the empty list.
    [skip] characters of a separator that was found are still to be
    passed over; [acc] holds the current part, reversed. *)
Fixpoint splitFrom (sep : string) (skip : nat) (acc : list ascii) (s : string)
  : list string :=
  match s with
  | EmptyString => [str (rev acc)]
  | String c s' =>
      match skip with
      | S k => splitFrom sep k acc s'
      | O =>
          if startsWith s sep
          then str (rev acc) :: splitFrom sep (String.length sep - 1) [] s'
          else splitFrom sep 0 (c :: acc) s'
      end
  end.

Definition split (s sep : string) : list string := splitFrom sep 0 [] s.

(** [s.split(sep).pop()]: the part after the last separator. *)
Definition lastPart (s sep : string) : string :=
  last (split s sep) EmptyString.

Definition join (sep : string) (l : list string) : string := String.concat sep l.

(** [||] on strings: the empty string is falsy. *)
Definition orStr (a b : string) : string :=
  match a with EmptyString => b | _ => a end.

(** [arr.slice(start, end)] *)
Definition sliceIndex (len k : Z) : Z :=
  if (k <? 0)%Z then Z.max (len + k) 0 else Z.min k len.

Definition slice {A} (l : list A) (start stop : Z) : list A :=
  let len := Z.of_nat (List.length l) in
  let from := sliceIndex len start in
  let to := sliceIndex len stop in
  firstn (Z.to_nat (to - from)) (skipn (Z.to_nat from) l).

End Js.

(* ================================================================== *)
(** ** Regular expressions

    A backtracking matcher for the fragment of JavaScript regular
    expressions that the sources use: character classes, sequence,
    ordered alternative, greedy repetition of a class, greedy option,
    capture groups and the assertions [\b], [^] and [$]. *)
(* ================================================================== *)

Module Re.

Inductive regex : Type :=
| Eps
| Chr (p : ascii -> bool)
| Seq (a b : regex)
| Alt (a b : regex)
| Star (p : ascii -> bool)
| Opt (a : regex)
| Grp (n : nat) (a : regex)
| WordB
| Bol
| Eol.

Definition Plus (p : ascii -> bool) : regex := Seq (Chr p) (Star p).

Fixpoint Lit (s : string) : regex :=
  match s with
  | EmptyString => Eps
  | String c s' => Seq (Chr (Ascii.eqb c)) (Lit s')
  end.

Definition Caps := list (nat * string).

Fixpoint capture (n : nat) (c : Caps) : option string :=
  match c with
  | [] => None
  | (m, s) :: c' => if Nat.eqb n m then Some s else capture n c'
  end.

Definition wordAt (c : option ascii) : bool :=
  match c with Some a => Js.isWord a | None => false end.

Definition orElse {A} (x y : option A) : option A :=
  match x with Some _ => x | None => y end.

Section Match.
Context {A : Type}.

(** [rmatch r caps prev s k]: match [r] at the head of [s], the
    character before it being [prev]; [k] continues with the rest. *)
Fixpoint rmatch (r : regex) (caps : Caps) (prev : option ascii) (s : list ascii)
         (k : Caps -> option ascii -> list ascii -> option A) : option A :=
  match r with
  | Eps => k caps prev s
  | Chr p =>
      match s with
      | c :: s' => if p c then k caps (Some c) s' else None
      | [] => None
      end
  | Seq a b =>
      rmatch a caps prev s (fun caps' prev' s' => rmatch b caps' prev' s' k)
  | Alt a b => orElse (rmatch a caps prev s k) (rmatch b caps prev s k)
  | Star p =>
      (fix star (prev : option ascii) (s : list ascii) : option A :=
         match s with
         | c :: s' =>
             if p c then orElse (star (Some c) s') (k caps prev s)
             else k caps prev s
         | [] => k caps prev s
         end) prev s
  | Opt a => orElse (rmatch a caps prev s k) (k caps prev s)
  | Grp n a =>
      rmatch a caps prev s
        (fun caps' prev' s' =>
           k ((n, Js.str (firstn (List.length s - List.length s') s)) :: caps')
             prev' s')
  | WordB =>
      if xorb (wordAt prev) (wordAt (hd_error s)) then k caps prev s else None
  | Bol => match prev with None => k caps prev s | Some _ => None end
  | Eol => match s with [] => k caps prev s | _ :: _ => None end
  end.
End Match.

(** The leftmost match, as [RegExp.prototype.exec] finds it. *)
Fixpoint search (r : regex) (prev : option ascii) (s : list ascii) : option Caps :=
  orElse (rmatch r [] prev s (fun caps _ _ => Some caps))
         match s with
         | [] => None
         | c :: s' => search r (Some c) s'
         end.

Definition exec (r : regex) (s : string) : option Caps :=
  search r None (Js.chars s).

Definition test (r : regex) (s : string) : bool :=
  match exec r s with Some _ => true | None => false end.

End Re.

(* ================================================================== *)
(** ** Data model (the exported interfaces of the services) *)
(* ================================================================== *)

Inductive Severity : Type := critical | high | medium | low.
Inductive IssueType : Type := security | performance | logic | style.
Inductive Confidence : Type := confHigh | confMedium | confLow.
Inductive ReviewStatus : Type := PENDING | PROCESSING | COMPLETED | FAILED | SKIPPED.

(** [CodeIssue] of issue-verifier.service.ts, an entry of
    [CodeReviewResult.issues]. *)
Record CodeIssue : Type := mkCodeIssue {
  line : Z;
  severity : Severity;
  type : IssueType;
  message : string;
  suggestion : string
}.

(** [IssueWithFile] of review-processor.ts, an entry of
    [BatchedCodeReviewResult.issues]. *)
Record IssueWithFile : Type := mkIssueWithFile {
  file : string;
  codeIssue : CodeIssue
}.

Record CodeReviewResult : Type := mkCodeReviewResult {
  summary : string;
  issues : list CodeIssue
}.

Record BatchedCodeReviewResult : Type := mkBatchedCodeReviewResult {
  batchSummary : string;
  batchIssues : list IssueWithFile
}.

Record VerificationResult : Type := mkVerificationResult {
  isValid : bool;
  confidence : Confidence;
  reason : string
}.

(** [FileContentWithContext] of gitlab.service.ts. *)
Record FileContentWithContext : Type := mkFileContext {
  lines : list string;
  startLineNumber : Z;
  targetLineNumber : Z;
  endLineNumber : Z;
  totalLines : Z;
  imports : list string
}.

(** [ProcessedDiff] of the diff processor, with the two fields the review
    processor attaches to it ([oldPath], [fileContext]). *)
Record DiffChunk : Type := mkDiffChunk {
  filename : string;
  language : string;
  hunks : string;
  additions : nat;
  deletions : nat;
  changedLines : list Z;
  oldPath : option string;
  fileContext : option FileContentWithContext
}.

Record VerificationContext : Type := mkVerificationContext {
  vProjectId : Z;
  filePath : string;
  sha : string;
  vFileContext : option FileContentWithContext
}.

Record InlineCommentData : Type := mkInlineCommentData {
  icFilePath : string;
  icOldPath : string;
  icLine : Z;
  comment : string;
  baseSha : string;
  headSha : string;
  startSha : string
}.

(** What [getMRDetails] builds from the merge request. *)
Record MRDetails : Type := mkMRDetails {
  mrBaseSha : string;
  mrHeadSha : string;
  mrStartSha : string;
  sourceBranch : string;
  targetBranch : string
}.

(** An entry of [comparison.diffs]; a missing field is the empty string. *)
Record GitLabDiff : Type := mkGitLabDiff {
  new_path : string;
  old_path : string;
  diff : string
}.

(** parse-diff: a change of a chunk, a chunk and a file. *)
Inductive ChangeType : Type := normal | add | del.

Record Change : Type := mkChange {
  ctype : ChangeType;
  ln : option Z;
  content : option string
}.

Record ParsedFile : Type := mkParsedFile {
  to : string;
  from : string;
  binary : bool;
  deleted : bool;
  chunks : list (list Change)
}.

(** The JSON document of an LLM answer, after [JSON.parse]: an absent or
    falsy field is [None]; [rawLine] is the value of [parseInt]. *)
Record RawIssue : Type := mkRawIssue {
  rawFile : option string;
  rawLine : option Z;
  rawSeverity : option Severity;
  rawType : option IssueType;
  rawMessage : option string;
  rawSuggestion : option string
}.

Record RawReview : Type := mkRawReview {
  rawSummary : option string;
  rawIssues : option (list RawIssue)
}.

(** What is stored in the [reviewContent] JSON column. *)
Inductive ReviewContent : Type :=
| contentEmpty
| contentMessage (m : string)
| contentIssues (l : list IssueWithFile).

(** The columns of the Review row of the job ([where: { id: reviewId }])
    that the review processor writes. *)
Record Review : Type := mkReview {
  status : ReviewStatus;
  reviewContent : ReviewContent;
  qualityScore : option Z;
  issuesFound : nat;
  suggestionsCount : nat
}.

(** The [data] of a [prisma.review.update]: the columns to overwrite. *)
Record ReviewUpdate : Type := mkReviewUpdate {
  uStatus : option ReviewStatus;
  uReviewContent : option ReviewContent;
  uQualityScore : option Z;
  uIssuesFound : option nat;
  uSuggestionsCount : option nat
}.

(** The request of a chat completion: the prompt is built from the chunk
    ([buildOptimizedPrompt]) or from the chunks ([buildBatchedPrompt]). *)
Inductive ChatRequest : Type :=
| promptSingle (chunk : DiffChunk)
| promptBatched (chunks : list DiffChunk).

(** A chat completion either throws or answers; the answer is what
    [response.choices[0]?.message?.content] reads from it, and may be
    missing.  A thrown error is one that p-retry retries (an [Error] of
    the SDK). *)
Inductive ChatOutcome : Type :=
| chatThrows
| chatAnswers (content : option string).

(** Calls that are observable from outside, and the entries into the
    services, in the order in which they happen. *)
Inductive Event : Type :=
| EvMergeRequestShow
| EvCompare (base head : string)
| EvFileShow (path ref : string)
| EvChatCompletion (req : ChatRequest)
| EvNote (body : string)
| EvDiscussion (d : InlineCommentData)
| EvReviewUpdate (u : ReviewUpdate)
| EvReviewMultipleChunks (chunks : list DiffChunk)
| EvReviewChangedLines (chunk : DiffChunk)
| EvVerifyIssue (i : CodeIssue) (path : string).

(* ================================================================== *)
(** ** The outside world and the monad of the services *)
(* ================================================================== *)

(** The collaborators that are injected into the services.  Each
    operation may depend on and change the environment; [None] and
    [false] stand for a rejected promise. *)
Class World (Env : Type) : Type := {
  llmEnabled : bool;
  MergeRequests_show : Z -> Z -> Env -> option MRDetails * Env;
  Repositories_compare : Z -> string -> string -> Env -> option (list GitLabDiff) * Env;
  RepositoryFiles_show : Z -> string -> string -> Env -> option string * Env;
  MergeRequestNotes_create : Z -> Z -> string -> Env -> bool * Env;
  MergeRequestDiscussions_create : Z -> Z -> InlineCommentData -> Env -> bool * Env;
  chat_completions_create : ChatRequest -> Env -> ChatOutcome * Env;
  prisma_review_update : ReviewUpdate -> Env -> bool * Env;
  parseDiff : string -> option (list ParsedFile);
  JSON_parse : string -> option RawReview
}.

Record St (Env : Type) : Type := mkSt {
  env : Env;
  review : Review;
  trace : list Event
}.
Arguments mkSt {Env}.
Arguments env {Env}.
Arguments review {Env}.
Arguments trace {Env}.

Definition M (Env A : Type) : Type := St Env -> A * St Env.

Definition ret {Env A} (a : A) : M Env A := fun st => (a, st).

Definition bind {Env A B} (m : M Env A) (k : A -> M Env B) : M Env B :=
  fun st => let (a, st') := m st in k a st'.

Declare Scope monad_scope.
Delimit Scope monad_scope with monad.
Notation "x <- m ;; k" := (bind m (fun x => k))
  (at level 61, m at next level, right associativity) : monad_scope.
Notation "m ;;; k" := (bind m (fun _ => k))
  (at level 61, right associativity) : monad_scope.
Local Open Scope monad_scope.

(** A call of an operation of the world, recorded in the trace. *)
Definition call {Env A} (e : Event) (op : Env -> A * Env) : M Env A :=
  fun st =>
    let (a, env') := op (env st) in
    (a, mkSt env' (review st) (trace st ++ [e])).

Definition emit {Env} (e : Event) : M Env unit :=
  fun st => (tt, mkSt (env st) (review st) (trace st ++ [e])).

(** [for (const x of l) body(x)], threading an accumulator. *)
Fixpoint forEach {Env A S} (l : list A) (body : A -> S -> M Env S) (s : S) : M Env S :=
  match l with
  | [] => ret s
  | x :: l' => s' <- body x s ;; forEach l' body s'
  end.

(** Sequencing of computations that may throw: [None] propagates. *)
Definition bindE {Env A B} (m : M Env (option A)) (k : A -> M Env (option B))
  : M Env (option B) :=
  r <- m ;; match r with Some a => k a | None => ret None end.

Notation "x <-? m ;; k" := (bindE m (fun x => k))
  (at level 61, m at next level, right associativity) : monad_scope.

(* ================================================================== *)
(** ** GitLab service (gitlab.service.ts) *)
(* ================================================================== *)

Module GitLabService.
Import Re.

Definition quoteClass (c : ascii) : bool := Js.isCode 39 c || Js.isCode 34 c.

Definition importKw : regex := Seq (Lit "import") (Plus Js.isSpace).
Definition exportBrace : regex := Seq (Lit "export") (Seq (Plus Js.isSpace) (Lit "{")).
Definition fromQuote : regex := Seq (Lit "from") (Seq (Plus Js.isSpace) (Chr quoteClass)).
Definition constRequire : regex :=
  Seq (Lit "const") (Seq (Plus Js.isSpace) (Seq (Star Js.isDot)
    (Seq (Lit "=") (Seq (Star Js.isSpace) (Lit "require("))))).
Definition typeBrace : regex := Seq (Lit "type") (Seq (Plus Js.isSpace) (Lit "{")).

Definition anchored (alternatives : regex) : regex :=
  Seq Bol (Seq (Star Js.isSpace) (Grp 1 alternatives)).

Definition ts : regex :=
  anchored (Alt importKw (Alt exportBrace (Alt fromQuote (Alt constRequire typeBrace)))).
Definition js : regex :=
  anchored (Alt importKw (Alt exportBrace (Alt fromQuote constRequire))).
Definition py : regex :=
  anchored (Alt importKw
    (Seq (Lit "from") (Seq (Plus Js.isSpace) (Seq (Plus (fun c => negb (Js.isSpace c)))
      (Seq (Plus Js.isSpace) (Seq (Lit "import") (Plus Js.isSpace))))))).
Definition java : regex :=
  anchored (Alt importKw (Seq (Lit "package") (Plus Js.isSpace))).
Definition go : regex :=
  anchored (Seq (Lit "import") (Seq (Plus Js.isSpace)
    (Chr (fun c => Js.isCode 40 c || Js.isCode 34 c || Js.isCode 39 c)))).
Definition rs : regex := anchored (Seq (Lit "use") (Plus Js.isSpace)).
Definition php : regex :=
  anchored (Alt (Seq (Lit "use") (Plus Js.isSpace)) (Alt (Lit "require") (Lit "include"))).

(** The value of [patterns[ext] || patterns['ts']].  The object literal
    inherits from [Object.prototype]: for the two inherited keys that
    survive [toLowerCase] the value is not a regular expression. *)
Inductive Pattern : Type :=
| isRegExp (r : regex)
| notRegExp.

Definition patternFor (ext : string) : Pattern :=
  if String.eqb ext "ts" then isRegExp ts
  else if String.eqb ext "js" then isRegExp js
  else if String.eqb ext "py" then isRegExp py
  else if String.eqb ext "java" then isRegExp java
  else if String.eqb ext "go" then isRegExp go
  else if String.eqb ext "rs" then isRegExp rs
  else if String.eqb ext "php" then isRegExp php
  else if String.eqb ext "constructor" || String.eqb ext "__proto__" then notRegExp
  else isRegExp ts.

Definition isBlankOrComment (line : string) : bool :=
  String.eqb line EmptyString
  || Js.startsWith line "//" || Js.startsWith line "/*"
  || Js.startsWith line "*" || Js.startsWith line "#".

(** The scanning loop of [extractImports] over the lines it visits;
    [None] is the [TypeError] of calling [test] on a non-RegExp. *)
Fixpoint scanImports (pattern : Pattern) (visited : list string)
         (consecutiveNonImports : nat) (imports : list string)
  : option (list string) :=
  match visited with
  | [] => Some imports
  | raw :: rest =>
      let line := Js.trim raw in
      if isBlankOrComment line
      then scanImports pattern rest consecutiveNonImports imports
      else match pattern with
           | notRegExp => None
           | isRegExp r =>
               if test r line
               then scanImports pattern rest 0 (imports ++ [raw])
               else if (3 <=? S consecutiveNonImports)%nat
                    then Some imports
                    else scanImports pattern rest (S consecutiveNonImports) imports
           end
  end.

Definition extractImports (lines : list string) (filePath : string)
  : option (list string) :=
  let ext := Js.toLowerCase (Js.lastPart filePath ".") in
  let pattern := patternFor ext in
  scanImports pattern (firstn (Nat.min (List.length lines) 50) lines) 0 [].

(** The value returned by the [catch] of [getFileContentWithContext]. *)
Definition fetchFailed (lineNumber : Z) : FileContentWithContext :=
  mkFileContext [] 0 lineNumber 0 0 [].

(** The body of the [try] of [getFileContentWithContext], once the
    file is there. *)
Definition contextOf (fileContent filePath : string) (lineNumber contextLines : Z)
  : option FileContentWithContext :=
  let lines := Js.split fileContent (String (ascii_of_nat 10) EmptyString) in
  match extractImports lines filePath with
  | None => None
  | Some imports =>
      let len := Z.of_nat (List.length lines) in
      let startLine := Z.max 0 (lineNumber - contextLines - 1) in
      let endLine := Z.min len (lineNumber + contextLines) in
      let contextContent := Js.slice lines startLine endLine in
      Some (mkFileContext contextContent (startLine + 1) lineNumber endLine len imports)
  end.

(** The invariant of a file context: the target lies between the
    bounds, which are 1-based and inclusive. *)
Definition wellFormed (c : FileContentWithContext) : Prop :=
  (startLineNumber c <= targetLineNumber c <= endLineNumber c)%Z
  /\ Z.of_nat (List.length (lines c))
     = (endLineNumber c - startLineNumber c + 1)%Z.

Section Service.
Context {Env : Type} `{World Env}.

(** The result is an option as that of every asynchronous method
    that may reject; this one catches whatever its body throws. *)
Definition getFileContentWithContext (projectId : Z) (filePath sha : string)
           (lineNumber contextLines : Z) : M Env (option FileContentWithContext) :=
  fileContent <- call (EvFileShow filePath sha)
                      (RepositoryFiles_show projectId filePath sha) ;;
  match fileContent with
  | None => ret (Some (fetchFailed lineNumber))
  | Some text =>
      match contextOf text filePath lineNumber contextLines with
      | Some ctx => ret (Some ctx)
      | None => ret (Some (fetchFailed lineNumber))
      end
  end.

(** [getFileContent]: rethrows. *)
Definition getFileContent (projectId : Z) (filePath sha : string)
  : M Env (option string) :=
  call (EvFileShow filePath sha) (RepositoryFiles_show projectId filePath sha).

Definition getMRDetails (projectId mergeRequestIid : Z) : M Env (option MRDetails) :=
  call EvMergeRequestShow (MergeRequests_show projectId mergeRequestIid).

Definition getMRDiffs (projectId mergeRequestIid : Z)
  : M Env (option (list GitLabDiff)) :=
  mrDetails <-? getMRDetails projectId mergeRequestIid ;;
  if String.eqb (mrBaseSha mrDetails) EmptyString
     || String.eqb (mrHeadSha mrDetails) EmptyString
  then ret (Some [])
  else call (EvCompare (mrBaseSha mrDetails) (mrHeadSha mrDetails))
            (Repositories_compare projectId (mrBaseSha mrDetails) (mrHeadSha mrDetails)).

(** [postMRComment]: rethrows; [false] is the rejection. *)
Definition postMRComment (projectId mergeRequestIid : Z) (body : string)
  : M Env bool :=
  call (EvNote body) (MergeRequestNotes_create projectId mergeRequestIid body).

(** [postInlineComment]: the failure is logged and swallowed. *)
Definition postInlineComment (projectId mergeRequestIid : Z) (d : InlineCommentData)
  : M Env unit :=
  call (EvDiscussion d) (MergeRequestDiscussions_create projectId mergeRequestIid d) ;;;
  ret tt.
End Service.

End GitLabService.

(* ================================================================== *)
(** ** Diff processor (llm/diff-processor.ts) *)
(* ================================================================== *)

Module DiffProcessor.

Definition newline : string := String (ascii_of_nat 10) EmptyString.

(** [line.ln || 0] and [line.content || ''] *)
Definition lnOr0 (c : Change) : Z :=
  match ln c with Some n => n | None => 0%Z end.
Definition contentOrEmpty (c : Change) : string :=
  match content c with Some s => s | None => EmptyString end.

Definition isAdd (c : Change) : bool :=
  match ctype c with add => true | _ => false end.

(** The local variables of [processChunk]. *)
Record Acc : Type := mkAcc {
  result : list string;
  accChangedLines : list Z;
  accAdditions : nat;
  accDeletions : nat;
  hasChanges : bool;
  addedIndices : list nat
}.

Definition has (j : nat) (a : Acc) : bool := existsb (Nat.eqb j) (addedIndices a).

(** [result.push(text); addedIndices.add(j)] *)
Definition pushLine (text : string) (j : nat) (a : Acc) : Acc :=
  mkAcc (result a ++ [text]) (accChangedLines a) (accAdditions a) (accDeletions a)
        (hasChanges a) (j :: addedIndices a).

(** The loop that adds the context before line [i]. *)
Fixpoint contextBefore (lines : list Change) (js : list nat) (a : Acc) : Acc :=
  match js with
  | [] => a
  | j :: js' =>
      match nth_error lines j with
      | Some l =>
          if negb (has j a) && match ctype l with normal => true | _ => false end
          then contextBefore lines js' (pushLine (" " ++ contentOrEmpty l) j a)
          else contextBefore lines js' a
      | None => contextBefore lines js' a
      end
  end.

(** The loop that adds the context after line [i]; it stops at the
    next change. *)
Fixpoint contextAfter (lines : list Change) (js : list nat) (a : Acc) : Acc :=
  match js with
  | [] => a
  | j :: js' =>
      if has j a then contextAfter lines js' a
      else match nth_error lines j with
           | Some l =>
               match ctype l with
               | normal => contextAfter lines js' (pushLine (" " ++ contentOrEmpty l) j a)
               | add | del => a
               end
           | None => contextAfter lines js' a
           end
  end.

(** One iteration of the main loop of [processChunk], at index [i]. *)
Definition step (lines : list Change) (contextLines i : nat) (l : Change) (a : Acc) : Acc :=
  match ctype l with
  | add =>
      let a1 := mkAcc (result a) (accChangedLines a ++ [lnOr0 l]) (S (accAdditions a))
                      (accDeletions a) true (addedIndices a) in
      let a2 := contextBefore lines (seq (i - contextLines) (i - (i - contextLines))) a1 in
      let a3 := pushLine ("+" ++ contentOrEmpty l)%string i a2 in
      contextAfter lines
        (seq (i + 1) (Nat.min (List.length lines) (i + contextLines + 1) - (i + 1))) a3
  | del =>
      pushLine ("-" ++ contentOrEmpty l) i
        (mkAcc (result a) (accChangedLines a) (accAdditions a) (S (accDeletions a))
               true (addedIndices a))
  | normal => a
  end.

(** The main loop from index [i] on; [rest] is [lines] from [i]. *)
Fixpoint walk (lines : list Change) (contextLines i : nat) (rest : list Change) (a : Acc)
  : Acc :=
  match rest with
  | [] => a
  | l :: rest' => walk lines contextLines (S i) rest' (step lines contextLines i l a)
  end.

Definition initial : Acc := mkAcc [] [] 0 0 false [].

(** [result] when the loop is over. *)
Definition assembled (changes : list Change) (contextLines : nat) : list string :=
  result (walk changes contextLines 0 changes initial).

Definition maxLines : Z := 100.

(** [result.slice(0, maxLines)], the lines of the chunk text. *)
Definition textLines (changes : list Change) (contextLines : nat) : list string :=
  Js.slice (assembled changes contextLines) 0 maxLines.

Record Processed : Type := mkProcessed {
  pContent : string;
  pHasChanges : bool;
  pAdditions : nat;
  pDeletions : nat;
  pChangedLines : list Z
}.

Definition processChunk (changes : list Change) (contextLines : nat) : Processed :=
  let a := walk changes contextLines 0 changes initial in
  mkProcessed (Js.join newline (Js.slice (result a) 0 maxLines))
              (hasChanges a) (accAdditions a) (accDeletions a) (accChangedLines a).

(** [langMap[ext || ''] || 'unknown'].  For the two inherited keys the
    value is not a string; it is only ever interpolated into a
    template, and it stands here as the text it is rendered to. *)
Definition langMap : list (string * string) :=
  [("ts", "typescript"); ("tsx", "typescript"); ("js", "javascript");
   ("jsx", "javascript"); ("py", "python"); ("java", "java"); ("go", "go");
   ("rs", "rust"); ("cpp", "cpp"); ("c", "c"); ("cs", "csharp"); ("rb", "ruby");
   ("php", "php"); ("swift", "swift"); ("kt", "kotlin"); ("sql", "sql");
   ("sh", "bash"); ("yaml", "yaml"); ("yml", "yaml"); ("json", "json");
   ("md", "markdown");
   ("constructor", "function Object() { [native code] }");
   ("__proto__", "[object Object]")].

Fixpoint lookup (k : string) (m : list (string * string)) : option string :=
  match m with
  | [] => None
  | (k', v) :: m' => if String.eqb k k' then Some v else lookup k m'
  end.

Definition detectLanguage (filepath : string) : string :=
  let ext := Js.toLowerCase (Js.lastPart filepath ".") in
  match lookup ext langMap with Some l => l | None => "unknown" end.

(** The chunks that one file contributes. *)
Definition chunkOf (f : ParsedFile) (contextLines : nat) (changes : list Change)
  : list DiffChunk :=
  let processedChunk := processChunk changes contextLines in
  if pHasChanges processedChunk
  then [mkDiffChunk (Js.orStr (to f) (Js.orStr (from f) "unknown"))
                    (detectLanguage (to f))
                    (pContent processedChunk)
                    (pAdditions processedChunk)
                    (pDeletions processedChunk)
                    (pChangedLines processedChunk)
                    None None]
  else [].

Definition chunksOfFile (contextLines : nat) (f : ParsedFile) : list DiffChunk :=
  if binary f then []
  else if deleted f then []
  else flat_map (chunkOf f contextLines) (chunks f).

Section Service.
Context {Env : Type} `{World Env}.

(** A [parseDiff] that throws gives the empty list. *)
Definition extractChangedLinesWithContext (diffText : string) (contextLines : nat)
  : list DiffChunk :=
  match parseDiff diffText with
  | Some files => flat_map (chunksOfFile contextLines) files
  | None => []
  end.
End Service.

End DiffProcessor.

(* ================================================================== *)
(** ** LLM service (llm/llm.service.ts) *)
(* ================================================================== *)

Module LlmService.

(** [s.replace(/FENCE\n?/g, '')] for a literal, non-empty [fence]:
    [skip] characters of a match are still to be dropped, and
    [afterMatch] tells that a match has just ended. *)
Fixpoint removeAll (fence : string) (skip : nat) (afterMatch : bool) (s : string)
  : string :=
  match s with
  | EmptyString => EmptyString
  | String c s' =>
      match skip with
      | S k => removeAll fence k true s'
      | O =>
          if afterMatch && Js.isCode 10 c then removeAll fence 0 false s'
          else if Js.startsWith s fence
               then removeAll fence (String.length fence - 1) true s'
               else String c (removeAll fence 0 false s')
      end
  end.

Definition cleanResponse (response : string) : string :=
  Js.trim (removeAll "```" 0 false (removeAll "```json" 0 false response)).

Definition strOr (o : option string) (d : string) : string :=
  match o with Some s => Js.orStr s d | None => d end.

Definition orDefault {A} (o : option A) (d : A) : A :=
  match o with Some a => a | None => d end.

Definition toCodeIssue (r : RawIssue) : CodeIssue :=
  mkCodeIssue (orDefault (rawLine r) 0%Z)
              (orDefault (rawSeverity r) low)
              (orDefault (rawType r) style)
              (strOr (rawMessage r) "No description")
              (strOr (rawSuggestion r) "No suggestion").

Definition toIssueWithFile (r : RawIssue) : IssueWithFile :=
  mkIssueWithFile (strOr (rawFile r) "unknown") (toCodeIssue r).

(** p-retry: the input runs once and, as long as it rejects, up to
    [retries] more times; the last rejection is the result. *)
Fixpoint pRetry {Env A} (retries : nat) (input : M Env (option A)) : M Env (option A) :=
  r <- input ;;
  match r with
  | Some a => ret (Some a)
  | None =>
      match retries with
      | O => ret None
      | S n => pRetry n input
      end
  end.

Section Service.
Context {Env : Type} `{World Env}.

Definition isEnabled : bool := llmEnabled.

(** The structure check and the [catch] of [parseReviewResponse]. *)
Definition parseReviewResponse (response : string) : CodeReviewResult :=
  match JSON_parse (cleanResponse response) with
  | Some parsed =>
      match rawSummary parsed, rawIssues parsed with
      | Some (String c s), Some l =>
          mkCodeReviewResult (String c s) (map toCodeIssue l)
      | _, _ => mkCodeReviewResult "Failed to parse review results" []
      end
  | None => mkCodeReviewResult "Failed to parse review results" []
  end.

Definition parseBatchedReviewResponse (response : string) : BatchedCodeReviewResult :=
  match JSON_parse (cleanResponse response) with
  | Some parsed =>
      match rawSummary parsed, rawIssues parsed with
      | Some (String c s), Some l =>
          mkBatchedCodeReviewResult (String c s) (map toIssueWithFile l)
      | _, _ => mkBatchedCodeReviewResult "Failed to parse batched review results" []
      end
  | None => mkBatchedCodeReviewResult "Failed to parse batched review results" []
  end.

(** The function handed to [pRetry]: one chat completion; a thrown
    error and an answer without content both reject. *)
Definition attempt (req : ChatRequest) : M Env (option string) :=
  response <- call (EvChatCompletion req) (chat_completions_create req) ;;
  match response with
  | chatThrows => ret None
  | chatAnswers None => ret None
  | chatAnswers (Some EmptyString) => ret None
  | chatAnswers (Some content) => ret (Some content)
  end.

Definition reviewMultipleChunks (chunks : list DiffChunk)
  : M Env BatchedCodeReviewResult :=
  emit (EvReviewMultipleChunks chunks) ;;;
  if negb isEnabled then ret (mkBatchedCodeReviewResult EmptyString [])
  else
    review <- pRetry 3 (attempt (promptBatched chunks)) ;;
    match review with
    | Some text => ret (parseBatchedReviewResponse text)
    | None => ret (mkBatchedCodeReviewResult "Error during batched review" [])
    end.

Definition reviewChangedLines (chunk : DiffChunk) : M Env CodeReviewResult :=
  emit (EvReviewChangedLines chunk) ;;;
  if negb isEnabled then ret (mkCodeReviewResult EmptyString [])
  else
    review <- pRetry 3 (attempt (promptSingle chunk)) ;;
    match review with
    | Some text => ret (parseReviewResponse text)
    | None => ret (mkCodeReviewResult "Error during review" [])
    end.
End Service.

End LlmService.

(* ================================================================== *)
(** ** Issue verifier (llm/issue-verifier.service.ts) *)
(* ================================================================== *)

Module IssueVerifier.
Import Re.

Import Js.

Definition isImportIssue (message : string) : bool :=
  let lowerMessage := Js.toLowerCase message in
  Js.includes lowerMessage "import"
  || Js.includes lowerMessage "not imported"
  || Js.includes lowerMessage "missing import"
  || Js.includes lowerMessage "cannot find".

Definition isDefinitionIssue (message : string) : bool :=
  let lowerMessage := Js.toLowerCase message in
  Js.includes lowerMessage "not defined"
  || Js.includes lowerMessage "undefined"
  || Js.includes lowerMessage "not declared"
  || Js.includes lowerMessage "cannot find name".

(** A quote, [([A-Za-z0-9_$]+)] and a quote. *)
Definition quotedRe : regex :=
  Seq (Chr Js.isQuote) (Seq (Grp 1 (Plus Js.isIdent)) (Chr Js.isQuote)).

(** A word boundary, an optional [import\s+], then the captured name (a
    capital letter and identifier characters) up to a word boundary. *)
Definition importNameRe : regex :=
  Seq WordB
    (Seq (Opt (Grp 1 (Seq (Lit "import") (Plus Js.isSpace))))
       (Seq (Grp 2 (Seq (Chr Js.isUpper) (Star Js.isIdent))) WordB)).

(** A word boundary, then the captured name (a small letter and
    identifier characters) up to a word boundary. *)
Definition identifierRe : regex :=
  Seq WordB (Seq (Grp 1 (Seq (Chr Js.isLower) (Star Js.isIdent))) WordB).

Definition group (n : nat) (m : option Caps) : option string :=
  match m with Some caps => capture n caps | None => None end.

Definition extractImportName (message : string) : option string :=
  match exec quotedRe message with
  | Some caps => capture 1 caps
  | None => group 2 (exec importNameRe message)
  end.

Definition extractIdentifier (message : string) : option string :=
  match exec quotedRe message with
  | Some caps => capture 1 caps
  | None => group 1 (exec identifierRe message)
  end.

(** An open brace, [\s*([^}]+)\s*] and a closing brace. *)
Definition destructuredRe : regex :=
  Seq (Lit "{") (Seq (Star Js.isSpace)
    (Seq (Grp 1 (Plus (fun c => negb (Js.isCode 125 c))))
       (Seq (Star Js.isSpace) (Lit "}")))).

Definition matchesImport (importStatement importName : string) : bool :=
  if Js.includes importStatement importName then true
  else match group 1 (exec destructuredRe importStatement) with
       | Some inner =>
           existsb (fun imp =>
                      String.eqb (Js.trim (hd EmptyString (Js.split imp " as ")))
                                 importName)
                   (map Js.trim (Js.split inner ","))
       | None => false
       end.

(** The identifier as it is spliced into [new RegExp(...)].  It comes
    from [extractIdentifier], so its characters are letters, digits,
    [_] and [$]; of these only [$] is special in a pattern. *)
Fixpoint spliced (identifier : string) : regex :=
  match identifier with
  | EmptyString => Eps
  | String c s' =>
      Seq (if Js.isCode 36 c then Eol else Chr (Ascii.eqb c)) (spliced s')
  end.

Definition varPattern (identifier : string) : regex :=
  Seq WordB (Seq (Grp 1 (Alt (Lit "const") (Alt (Lit "let") (Lit "var"))))
    (Seq (Plus Js.isSpace) (Seq (spliced identifier) WordB))).
Definition funcPattern (identifier : string) : regex :=
  Seq WordB (Seq (Lit "function") (Seq (Plus Js.isSpace) (Seq (spliced identifier) WordB))).
Definition arrowPattern (identifier : string) : regex :=
  Seq WordB (Seq (spliced identifier)
    (Seq (Star Js.isSpace) (Seq (Lit "=") (Seq (Star Js.isSpace) (Lit "("))))).
Definition classPattern (identifier : string) : regex :=
  Seq WordB
    (Seq (Grp 1 (Alt (Lit "class") (Alt (Lit "interface") (Alt (Lit "type") (Lit "enum")))))
       (Seq (Plus Js.isSpace) (Seq (spliced identifier) WordB))).

Definition matchesDefinition (line identifier : string) : bool :=
  test (varPattern identifier) line
  || test (funcPattern identifier) line
  || test (arrowPattern identifier) line
  || test (classPattern identifier) line.

Definition contextImports (context : VerificationContext) : list string :=
  match vFileContext context with Some c => imports c | None => [] end.
Definition contextLinesOf (context : VerificationContext) : list string :=
  match vFileContext context with Some c => lines c | None => [] end.

Definition verifyDuplicateImportClaim (importName : string) (context : VerificationContext)
  : VerificationResult :=
  match contextImports context with
  | [] => mkVerificationResult true confLow
            "No imports context available to verify duplicate claim"
  | all =>
      let count := List.length (filter (fun imp => matchesImport imp importName) all) in
      if (count <=? 1)%nat
      then mkVerificationResult false confHigh
             ("Import " ++ quoted importName ++ " appears " ++ showNat count
              ++ " time(s), not a duplicate (need 2+ for duplicate)")
      else mkVerificationResult true confHigh
             ("Import " ++ quoted importName ++ " genuinely appears " ++ showNat count
              ++ " times")
  end.

Section Service.
Context {Env : Type} `{World Env}.

Definition verifyImportIssue (i : CodeIssue) (context : VerificationContext)
  : M Env VerificationResult :=
  match extractImportName (message i) with
  | None => ret (mkVerificationResult true confLow
                   "Could not parse import name from issue message")
  | Some importName =>
      if Js.includes (Js.toLowerCase (message i)) "duplicate"
      then ret (verifyDuplicateImportClaim importName context)
      else if existsb (fun imp => matchesImport imp importName) (contextImports context)
      then ret (mkVerificationResult false confHigh
                  ("Import " ++ quoted importName
                   ++ " is already present in file imports"))
      else
        fullFile <- GitLabService.getFileContent
                      (vProjectId context) (filePath context) (sha context) ;;
        match fullFile with
        | Some text =>
            if matchesImport text importName
            then ret (mkVerificationResult false confHigh
                        ("Import " ++ quoted importName
                         ++ " exists in full file but was not in context"))
            else ret (mkVerificationResult true confHigh
                        ("Import " ++ quoted importName ++ " is not present in file"))
        | None =>
            ret (mkVerificationResult true confLow
                   "Could not fetch full file for verification")
        end
  end.

Definition verifyDefinitionIssue (i : CodeIssue) (context : VerificationContext)
  : M Env VerificationResult :=
  match extractIdentifier (message i) with
  | None => ret (mkVerificationResult true confLow
                   "Could not parse identifier from issue message")
  | Some identifier =>
      if existsb (fun l => matchesDefinition l identifier) (contextLinesOf context)
      then ret (mkVerificationResult false confHigh
                  (quoted identifier ++ " is defined in the provided context"))
      else
        extendedContext <- GitLabService.getFileContentWithContext
                             (vProjectId context) (filePath context) (sha context)
                             (line i) 50 ;;
        match extendedContext with
        | Some ext =>
            if existsb (fun l => matchesDefinition l identifier) (lines ext)
            then ret (mkVerificationResult false confHigh
                        (quoted identifier
                         ++ " is defined within ±50 lines of the issue"))
            else if existsb (fun imp => Js.includes imp identifier) (imports ext)
            then ret (mkVerificationResult false confHigh
                        (quoted identifier ++ " is imported at the top of the file"))
            else ret (mkVerificationResult true confHigh
                        (quoted identifier
                         ++ " is not defined within ±50 lines or imports"))
        | None =>
            ret (mkVerificationResult true confLow
                   "Could not fetch extended context for verification")
        end
  end.

Definition verifyIssue (i : CodeIssue) (context : VerificationContext)
  : M Env VerificationResult :=
  emit (EvVerifyIssue i (filePath context)) ;;;
  if isImportIssue (message i) then verifyImportIssue i context
  else if isDefinitionIssue (message i) then verifyDefinitionIssue i context
  else match type i with
       | security | performance =>
           ret (mkVerificationResult true confHigh
                  "Security/performance issues are not verified")
       | _ =>
           ret (mkVerificationResult true confMedium
                  "Issue type does not require verification")
       end.
End Service.

End IssueVerifier.

(* ================================================================== *)
(** ** Review processor (queue/review-processor.ts) *)
(* ================================================================== *)

Module ReviewProcessor.

Definition MAX_FILES : nat := 50.

Definition severityName (s : Severity) : string :=
  match s with
  | critical => "critical" | high => "high" | medium => "medium" | low => "low"
  end.

Definition typeName (t : IssueType) : string :=
  match t with
  | security => "security" | performance => "performance"
  | logic => "logic" | style => "style"
  end.

(** The object literal [severityImpact], and [severityImpact[s] || 2]. *)
Definition severityImpact (s : Severity) : option Z :=
  match s with
  | critical => Some 15%Z
  | high => Some 10%Z
  | medium => Some 5%Z
  | low => Some 2%Z
  end.

Definition impact (s : Severity) : Z :=
  match severityImpact s with
  | Some n => if (n =? 0)%Z then 2%Z else n
  | None => 2%Z
  end.

(** [['critical', 'high', 'medium'].includes(severity)] *)
Definition postsInline (s : Severity) : bool :=
  match s with critical | high | medium => true | low => false end.

(** The lookups by severity and by type of [formatInlineComment] and
    [getIssueExplanation].  Their fallbacks need a key outside of the
    declared unions and are not reached. *)
Definition severityEmoji (s : Severity) : string :=
  match s with
    | critical => "🔴"
    | high => "🟠"
    | medium => "🟡"
    | low => "🔵"
  end.

Definition typeEmoji (t : IssueType) : string :=
  match t with
    | security => "🔒"
    | performance => "⚡"
    | logic => "🐛"
    | style => "💅"
  end.

Definition severityDescription (s : Severity) : string :=
  match s with
    | critical => "Must be fixed immediately - blocks deployment"
    | high => "Should be fixed before merge"
    | medium => "Should be addressed soon"
    | low => "Consider fixing when convenient"
  end.

Definition getIssueExplanation (t : IssueType) (s : Severity) : string :=
  match t, s with
    | security, critical => "This security vulnerability could lead to data breaches, unauthorized access, or system compromise. Immediate action required."
    | security, high => "This security issue could be exploited by attackers. Should be fixed before merging to prevent potential security incidents."
    | security, medium => "This security concern could lead to vulnerabilities if left unaddressed. Consider fixing to maintain security best practices."
    | security, low => "Minor security improvement that enhances overall code security posture."
    | performance, critical => "This performance issue will cause severe degradation, timeouts, or system failures under load. Must be optimized immediately."
    | performance, high => "This performance bottleneck will significantly impact user experience and system scalability. Should be optimized before merge."
    | performance, medium => "This performance issue may cause slowdowns under certain conditions. Consider optimizing to improve responsiveness."
    | performance, low => "Minor performance improvement that could enhance efficiency."
    | logic, critical => "This logic error will cause incorrect behavior, data corruption, or system crashes. Must be fixed immediately."
    | logic, high => "This bug will cause incorrect results or unexpected behavior. Should be fixed before merging to prevent production issues."
    | logic, medium => "This logic issue may cause problems in certain scenarios. Should be addressed to ensure correctness."
    | logic, low => "Minor logic improvement that enhances code reliability."
    | style, critical => "This code style issue severely impacts maintainability and violates critical coding standards."
    | style, high => "This style issue impacts code readability and maintainability. Should be fixed to maintain code quality."
    | style, medium => "This style concern affects code consistency. Consider fixing to improve maintainability."
    | style, low => "Minor style improvement for better code consistency."
  end.

Definition fileLine (fileName : string) : string :=
  match fileName with
  | EmptyString => EmptyString
  | _ => ("📄 **File:** `" ++ fileName ++ "`
")
  end.

Definition formatInlineComment (i : CodeIssue) (fileName codeSnippet language : string)
  : string :=
  (severityEmoji (severity i) ++ " **" ++ Js.toUpperCase (severityName (severity i)) ++ " SEVERITY: " ++ typeEmoji (type i) ++ " " ++ Js.toUpperCase (typeName (type i)) ++ " Issue**

" ++ fileLine fileName ++ "📍 **Line:** " ++ Js.showZ (line i) ++ "
⚠️ **Priority:** " ++ severityDescription (severity i) ++ "

---
")
  ++ (match Js.trim codeSnippet with
      | EmptyString => EmptyString
      | _ => ("
### 📝 Problematic Code
```" ++ language ++ "
" ++ Js.trim codeSnippet ++ "
```

")
      end)
  ++ ("### 🔍 Issue Description
" ++ message i ++ "

### 💡 Suggested Fix
```" ++ language ++ "
" ++ suggestion i ++ "
```

### 📚 Why This Matters
" ++ getIssueExplanation (type i) (severity i) ++ "

---
*🤖 Generated by ReviewBot · Powered by Azure OpenAI*").

Definition countSeverity (s : Severity) (l : list IssueWithFile) : nat :=
  List.length (filter (fun i => String.eqb (severityName (severity (codeIssue i)))
                                           (severityName s)) l).

Definition scoreEmoji (score : Z) : string :=
  if (80 <=? score)%Z then "✅" else if (60 <=? score)%Z then "⚠️" else "❌".
Definition scoreColor (score : Z) : string :=
  if (80 <=? score)%Z then "🟢" else if (60 <=? score)%Z then "🟡" else "🔴".

(** The score as the table shows it: two stars, the score, [/100] and
    two stars. *)
Definition scoreCell (score : Z) : string := "**" ++ Js.showZ score ++ "/100**".

(** The metrics table at the head of the summary: what stands before
    the score, the score, and what follows it. *)
Definition metricsHead (score : Z) : string :=
  ("# " ++ scoreEmoji score ++ " AI Code Review Complete

## 📊 Quality Metrics

| Metric | Value |
|--------|-------|
| " ++ scoreColor score ++ " **Quality Score** | ").

Definition metricsRest (issues : list IssueWithFile) (filesProcessed : nat) : string :=
  (" |
| 📁 **Files Reviewed** | " ++ Js.showNat filesProcessed ++ " |
| 🔍 **Total Issues Found** | " ++ Js.showNat (List.length issues) ++ " |
| 🔴 **Critical Issues** | " ++ Js.showNat (countSeverity critical issues) ++ " " ++ (if (0 <? countSeverity critical issues)%nat then "⚠️ **Requires immediate attention**" else "✅") ++ " |
| 🟠 **High Priority** | " ++ Js.showNat (countSeverity high issues) ++ " " ++ (if (0 <? countSeverity high issues)%nat then "⚠️ **Fix before merge**" else "✅") ++ " |
| 🟡 **Medium Priority** | " ++ Js.showNat (countSeverity medium issues) ++ " |
| 🔵 **Low Priority** | " ++ Js.showNat (countSeverity low issues) ++ " |
").

Definition metrics (issues : list IssueWithFile) (score : Z) (filesProcessed : nat)
  : string :=
  metricsHead score ++ scoreCell score ++ metricsRest issues filesProcessed.

Definition largeMRWarning (skippedFiles filesProcessed : nat) : string :=
  if (0 <? skippedFiles)%nat
  then ("
## ⚠️ Large MR Warning

This merge request contains **" ++ Js.showNat (skippedFiles + filesProcessed) ++ " files**. Only the first **" ++ Js.showNat MAX_FILES ++ " files** were reviewed to prevent token overflow.

**Recommendation:** Consider splitting large changes into smaller MRs for:
- Complete review coverage
- Easier review process
- Better git history
- Reduced merge conflicts
")
  else EmptyString.

(** [byType]: the count of each type, the keys in the order in which
    they were first met. *)
Definition typeEqb (a b : IssueType) : bool := String.eqb (typeName a) (typeName b).

Fixpoint bump (t : IssueType) (acc : list (IssueType * nat)) : list (IssueType * nat) :=
  match acc with
  | [] => [(t, 1)]
  | (t', n) :: acc' => if typeEqb t t' then (t', S n) :: acc' else (t', n) :: bump t acc'
  end.

Definition byType (issues : list IssueWithFile) : list (IssueType * nat) :=
  fold_left (fun acc i => bump (type (codeIssue i)) acc) issues [].

Definition typeInfoEmoji (t : IssueType) : string := typeEmoji t.
Definition typeInfoDesc (t : IssueType) : string :=
  match t with
  | security => "Security vulnerabilities and concerns"
  | performance => "Performance bottlenecks and optimizations"
  | logic => "Logic errors and bugs"
  | style => "Code style and maintainability"
  end.

Definition capitalize (s : string) : string :=
  match s with
  | EmptyString => EmptyString
  | String c s' => String (Js.upperChar c) s'
  end.

Definition categoryRow (e : IssueType * nat) : string :=
  let (t, count) := e in
  ("| " ++ typeInfoEmoji t ++ " " ++ capitalize (typeName t) ++ " | " ++ Js.showNat count ++ " | " ++ typeInfoDesc t ++ " |
").

Definition categories (issues : list IssueWithFile) : string :=
  match byType issues with
  | [] => EmptyString
  | rows => ("
## 📋 Issues by Category

| Category | Count | Description |
|----------|-------|-------------|
") ++ String.concat EmptyString (map categoryRow rows)
  end.

(** The names that every object inherits from [Object.prototype]. *)
Definition inheritedKeys : list string :=
  ["constructor"; "__defineGetter__"; "__defineSetter__"; "hasOwnProperty";
   "__lookupGetter__"; "__lookupSetter__"; "isPrototypeOf"; "propertyIsEnumerable";
   "toString"; "valueOf"; "__proto__"; "toLocaleString"].

Definition inherited (k : string) : bool := existsb (String.eqb k) inheritedKeys.

(** [byFile]: the issues of each file, the keys in the order in which
    they were created.  On an inherited name [acc[issue.file]] is not
    an array and [push] throws. *)
Fixpoint addToFile (i : IssueWithFile) (acc : list (string * list IssueWithFile))
  : list (string * list IssueWithFile) :=
  match acc with
  | [] => [(file i, [i])]
  | (f, l) :: acc' =>
      if String.eqb (file i) f then (f, l ++ [i]) :: acc' else (f, l) :: addToFile i acc'
  end.

Definition byFile (issues : list IssueWithFile)
  : option (list (string * list IssueWithFile)) :=
  if existsb (fun i => inherited (file i)) issues then None
  else Some (fold_left (fun acc i => addToFile i acc) issues []).

(** A key that is an array index: the digits of a number below
    [2^32 - 1], written without a leading zero. *)
Fixpoint digitsValue (acc : N) (s : string) : option N :=
  match s with
  | EmptyString => Some acc
  | String c s' =>
      if Js.isDigit c
      then digitsValue (acc * 10 + N.of_nat (Js.code c - 48)) s'
      else None
  end.

Definition arrayIndex (k : string) : option N :=
  match k with
  | EmptyString => None
  | String c rest =>
      if Js.isCode 48 c && negb (String.eqb rest EmptyString) then None
      else match digitsValue 0 k with
           | Some n => if (n <? 4294967295)%N then Some n else None
           | None => None
           end
  end.

(** A stable sort by a numeric key ([Array.prototype.sort] with the
    comparison [key a - key b]). *)
Fixpoint insertBy {A} (key : A -> N) (x : A) (l : list A) : list A :=
  match l with
  | [] => [x]
  | y :: l' => if (key x <? key y)%N then x :: l else y :: insertBy key x l'
  end.

Definition sortBy {A} (key : A -> N) (l : list A) : list A :=
  fold_left (fun acc x => insertBy key x acc) l [].

(** [Object.entries]: the array indices in ascending order, then the
    other keys in the order of their creation. *)
Definition entries {A} (o : list (string * A)) : list (string * A) :=
  let isIndex := fun e : string * A =>
                   match arrayIndex (fst e) with Some _ => true | None => false end in
  let indexOf := fun e : string * A =>
                   match arrayIndex (fst e) with Some n => n | None => 0%N end in
  sortBy indexOf (filter isIndex o) ++ filter (fun e => negb (isIndex e)) o.

Definition severityOrder (s : Severity) : N :=
  match s with critical => 0 | high => 1 | medium => 2 | low => 3 end%N.

(** [Math.min(...l.map(i => severityOrder[i.severity]))] of a non-empty
    list. *)
Definition maxSeverity (l : list IssueWithFile) : N :=
  match map (fun i => severityOrder (severity (codeIssue i))) l with
  | [] => 0%N
  | n :: ns => fold_left N.min ns n
  end.

Definition badges (fileIssues : list IssueWithFile) : list string :=
  (if (0 <? countSeverity critical fileIssues)%nat then [("🔴 " ++ Js.showNat (countSeverity critical fileIssues) ++ " Critical")%string] else [])
  ++ (if (0 <? countSeverity high fileIssues)%nat then [("🟠 " ++ Js.showNat (countSeverity high fileIssues) ++ " High")%string] else [])
  ++ (if (0 <? countSeverity medium fileIssues)%nat then [("🟡 " ++ Js.showNat (countSeverity medium fileIssues) ++ " Medium")%string] else [])
  ++ (if (0 <? countSeverity low fileIssues)%nat then [("🔵 " ++ Js.showNat (countSeverity low fileIssues) ++ " Low")%string] else []).

Definition issueLine (i : IssueWithFile) : string :=
  ("- " ++ severityEmoji (severity (codeIssue i)) ++ " **Line " ++ Js.showZ (line (codeIssue i)) ++ "**: " ++ message (codeIssue i) ++ "
").

Definition fileSection (e : string * list IssueWithFile) : string :=
  let (f, fileIssues) := e in
  let sortedIssues := sortBy (fun i => severityOrder (severity (codeIssue i))) fileIssues in
  ("
### 📄 `" ++ f ++ "`
")
  ++ ("**" ++ Js.showNat (List.length fileIssues) ++ " issue" ++ (if (1 <? List.length fileIssues)%nat then "s" else EmptyString) ++ ":** " ++ Js.join " · " (badges fileIssues) ++ "
")
  ++ String.concat EmptyString (map issueLine sortedIssues).

Definition details (issues : list IssueWithFile) : option string :=
  match issues with
  | [] => Some ("
## ✨ Excellent Work!

No significant issues detected. The code follows best practices and maintains good quality standards.

**Keep up the good work!** 🎉
")
  | _ =>
      match byFile issues with
      | None => None
      | Some o =>
          let sortedFiles := sortBy (fun e => maxSeverity (snd e)) (entries o) in
          Some ("
## 📁 Detailed Issues by File
" ++ String.concat EmptyString (map fileSection sortedFiles))%string
      end
  end.

Definition footer (issues : list IssueWithFile) : string :=
  ("
---

## 💬 Inline Comments

" ++ (if existsb (fun i => postsInline (severity (codeIssue i))) issues then ("✅ Inline comments have been posted on **Critical**, **High**, and **Medium** severity issues.

Check the " ++ Js.dq ++ "Changes" ++ Js.dq ++ " tab to see detailed suggestions at specific code lines.") else "✅ No inline comments needed - all issues are low severity or informational.") ++ "

---

**🤖 ReviewBot** · Powered by Azure OpenAI Haiku 4.5
*Generated with ±10 lines of context for accurate analysis*
").

(** [None] is the [TypeError] thrown while the issues are grouped by
    file. *)
Definition formatSummaryComment (issues : list IssueWithFile) (score : Z)
           (skippedFiles filesProcessed : nat) : option string :=
  match details issues with
  | Some d =>
      Some (metrics issues score filesProcessed
            ++ largeMRWarning skippedFiles filesProcessed
            ++ categories issues
            ++ d
            ++ footer issues)%string
  | None => None
  end.

Definition applyUpdate (u : ReviewUpdate) (r : Review) : Review :=
  mkReview (match uStatus u with Some s => s | None => status r end)
           (match uReviewContent u with Some c => c | None => reviewContent r end)
           (match uQualityScore u with Some q => Some q | None => qualityScore r end)
           (match uIssuesFound u with Some n => n | None => issuesFound r end)
           (match uSuggestionsCount u with Some n => n | None => suggestionsCount r end).

Definition statusOnly (s : ReviewStatus) : ReviewUpdate :=
  mkReviewUpdate (Some s) None None None None.

Definition noChanges : ReviewUpdate :=
  mkReviewUpdate (Some COMPLETED) (Some (contentMessage "No changes to review"))
                 None None None.

Definition completed (allIssues : list IssueWithFile) (totalScore : Z) : ReviewUpdate :=
  mkReviewUpdate (Some COMPLETED) (Some (contentIssues allIssues))
                 (Some (Z.max 0 totalScore))
                 (Some (List.length allIssues)) (Some (List.length allIssues)).

(** The line of the context that the issue points at, or the empty
    string. *)
Definition codeSnippetOf (ctx : option FileContentWithContext) (issueLine : Z) : string :=
  match ctx with
  | Some c =>
      let relativeLineIndex := (issueLine - startLineNumber c)%Z in
      if (0 <=? relativeLineIndex)%Z
         && (relativeLineIndex <? Z.of_nat (List.length (lines c)))%Z
      then nth (Z.to_nat relativeLineIndex) (lines c) EmptyString
      else EmptyString
  | None => EmptyString
  end.

Definition oldPathOr (c : DiffChunk) (fallback : string) : string :=
  match oldPath c with Some p => Js.orStr p fallback | None => fallback end.

Definition inlineData (mr : MRDetails) (c : DiffChunk) (path : string) (i : CodeIssue)
  : InlineCommentData :=
  mkInlineCommentData path (oldPathOr c path) (line i)
    (formatInlineComment i path (codeSnippetOf (fileContext c) (line i)) (language c))
    (mrBaseSha mr) (mrHeadSha mr) (mrStartSha mr).

Definition totalChangedLines (allChunksWithContext : list DiffChunk) : nat :=
  fold_left (fun sum chunk => sum + (additions chunk + deletions chunk))
            allChunksWithContext 0.

Definition shouldBatch (allChunksWithContext : list DiffChunk) : bool :=
  (totalChangedLines allChunksWithContext <=? 500)%nat
  && (1 <? List.length allChunksWithContext)%nat.

(** The running values [allIssues], [totalScore] and [filesProcessed]. *)
Record Tally : Type := mkTally {
  allIssues : list IssueWithFile;
  totalScore : Z;
  filesProcessed : nat
}.

Section Service.
Context {Env : Type} `{World Env}.

(** [prisma.review.update]: on success the row takes the new
    columns; a rejection is [None]. *)
Definition updateReview (u : ReviewUpdate) : M Env (option unit) :=
  ok <- call (EvReviewUpdate u) (prisma_review_update u) ;;
  if ok
  then fun st => (Some tt, mkSt (env st) (applyUpdate u (review st)) (trace st))
  else ret None.

(** STEP 1, for one chunk of a diff. *)
Definition withContext (projectId : Z) (mr : MRDetails)
           (actualFilePath oldFilePath : string) (chunk : DiffChunk)
  : M Env DiffChunk :=
  let renamed := mkDiffChunk actualFilePath (language chunk) (hunks chunk)
                             (additions chunk) (deletions chunk) (changedLines chunk)
                             (Some oldFilePath) (fileContext chunk) in
  match changedLines chunk with
  | [] => ret renamed
  | first :: _ =>
      got <- GitLabService.getFileContentWithContext
               projectId actualFilePath (mrHeadSha mr) first 10 ;;
      match got with
      | Some ctx =>
          ret (mkDiffChunk actualFilePath (language chunk) (hunks chunk)
                           (additions chunk) (deletions chunk) (changedLines chunk)
                           (Some oldFilePath) (Some ctx))
      | None => ret renamed
      end
  end.

(** STEP 1, for one diff. *)
Definition collectDiff (projectId : Z) (mr : MRDetails) (d : GitLabDiff)
           (allChunksWithContext : list DiffChunk) : M Env (list DiffChunk) :=
  match diff d with
  | EmptyString => ret allChunksWithContext
  | _ =>
      let chunks := DiffProcessor.extractChangedLinesWithContext (diff d) 10 in
      let actualFilePath := Js.orStr (new_path d) (old_path d) in
      let oldFilePath := Js.orStr (old_path d) (new_path d) in
      match actualFilePath with
      | EmptyString => ret allChunksWithContext
      | _ =>
          forEach chunks
            (fun chunk acc =>
               c <- withContext projectId mr actualFilePath oldFilePath chunk ;;
               ret (acc ++ [c]))
            allChunksWithContext
      end
  end.

Definition collectChunks (projectId : Z) (mr : MRDetails)
           (diffsToProcess : list GitLabDiff) : M Env (list DiffChunk) :=
  forEach diffsToProcess (collectDiff projectId mr) [].

(** STEP 3, batched: the body of the loop over the issues. *)
Definition batchedIssue (projectId mergeRequestIid : Z) (mr : MRDetails)
           (allChunksWithContext : list DiffChunk) (i : IssueWithFile) (t : Tally)
  : M Env Tally :=
  match find (fun c => String.eqb (filename c) (file i)) allChunksWithContext with
  | None => ret t
  | Some chunkForIssue =>
      verificationResult <-
        IssueVerifier.verifyIssue (codeIssue i)
          (mkVerificationContext projectId (file i) (mrHeadSha mr)
                                 (fileContext chunkForIssue)) ;;
      if isValid verificationResult
      then
        (if postsInline (severity (codeIssue i))
         then GitLabService.postInlineComment projectId mergeRequestIid
                (inlineData mr chunkForIssue (file i) (codeIssue i))
         else ret tt) ;;;
        ret (mkTally (allIssues t ++ [i])
                     (totalScore t - impact (severity (codeIssue i)))
                     (filesProcessed t))
      else ret t
  end.

Definition reviewBatched (projectId mergeRequestIid : Z) (mr : MRDetails)
           (allChunksWithContext : list DiffChunk) (t : Tally) : M Env Tally :=
  batchedResult <- LlmService.reviewMultipleChunks allChunksWithContext ;;
  forEach (batchIssues batchedResult)
          (batchedIssue projectId mergeRequestIid mr allChunksWithContext)
          (mkTally (allIssues t) (totalScore t) (List.length allChunksWithContext)).

(** STEP 3, individual: the verification pass of one chunk. *)
Definition verifyAll (projectId : Z) (mr : MRDetails) (chunk : DiffChunk)
           (found : list CodeIssue) : M Env (list CodeIssue) :=
  forEach found
    (fun i verifiedIssues =>
       verificationResult <-
         IssueVerifier.verifyIssue i
           (mkVerificationContext projectId (filename chunk) (mrHeadSha mr)
                                  (fileContext chunk)) ;;
       ret (if isValid verificationResult then verifiedIssues ++ [i]
            else verifiedIssues))
    [].

(** STEP 3, individual: the loop that collects and posts. *)
Definition publish (projectId mergeRequestIid : Z) (mr : MRDetails) (chunk : DiffChunk)
           (verifiedIssues : list CodeIssue) (all : list IssueWithFile)
  : M Env (list IssueWithFile) :=
  forEach verifiedIssues
    (fun i acc =>
       (if postsInline (severity i)
        then GitLabService.postInlineComment projectId mergeRequestIid
               (inlineData mr chunk (filename chunk) i)
        else ret tt) ;;;
       ret (acc ++ [mkIssueWithFile (filename chunk) i]))
    all.

Definition reviewChunk (projectId mergeRequestIid : Z) (mr : MRDetails)
           (chunk : DiffChunk) (t : Tally) : M Env Tally :=
  result <- LlmService.reviewChangedLines chunk ;;
  verifiedIssues <- verifyAll projectId mr chunk (issues result) ;;
  all <- publish projectId mergeRequestIid mr chunk verifiedIssues (allIssues t) ;;
  ret (mkTally all
               (fold_left (fun score i => (score - impact (severity i))%Z)
                          verifiedIssues (totalScore t))
               (S (filesProcessed t))).

Definition reviewIndividually (projectId mergeRequestIid : Z) (mr : MRDetails)
           (allChunksWithContext : list DiffChunk) (t : Tally) : M Env Tally :=
  forEach allChunksWithContext (reviewChunk projectId mergeRequestIid mr) t.

(** STEP 2 and STEP 3. *)
Definition reviewChunks (projectId mergeRequestIid : Z) (mr : MRDetails)
           (allChunksWithContext : list DiffChunk) : M Env Tally :=
  if shouldBatch allChunksWithContext
  then reviewBatched projectId mergeRequestIid mr allChunksWithContext
                     (mkTally [] 100 0)
  else reviewIndividually projectId mergeRequestIid mr allChunksWithContext
                          (mkTally [] 100 0).

(** The summary comment and the update of the review. *)
Definition postAndPersist (projectId mergeRequestIid : Z) (skippedFiles : nat)
           (t : Tally) : M Env (option unit) :=
  match formatSummaryComment (allIssues t) (totalScore t) skippedFiles
                             (filesProcessed t) with
  | None => ret None
  | Some summaryComment =>
      posted <- GitLabService.postMRComment projectId mergeRequestIid summaryComment ;;
      if posted then updateReview (completed (allIssues t) (totalScore t))
      else ret None
  end.

(** What [handleReview] does with a non-empty list of diffs. *)
Definition reviewDiffs (projectId mergeRequestIid : Z) (mrDetails : MRDetails)
           (diffs : list GitLabDiff) : M Env (option unit) :=
  let skippedFiles := List.length diffs - MAX_FILES in
  let diffsToProcess := Js.slice diffs 0 (Z.of_nat MAX_FILES) in
  allChunksWithContext <- collectChunks projectId mrDetails diffsToProcess ;;
  t <- reviewChunks projectId mergeRequestIid mrDetails allChunksWithContext ;;
  postAndPersist projectId mergeRequestIid skippedFiles t.

(** The body of the [try] of [handleReview].  The two promises of
    [Promise.all] run one after the other, the diffs first. *)
Definition tryReview (projectId mergeRequestIid : Z) : M Env (option unit) :=
  _ <-? updateReview (statusOnly PROCESSING) ;;
  if negb LlmService.isEnabled
  then updateReview (statusOnly SKIPPED)
  else
    diffs <-? GitLabService.getMRDiffs projectId mergeRequestIid ;;
    mrDetails <-? GitLabService.getMRDetails projectId mergeRequestIid ;;
    match diffs with
    | [] => updateReview noChanges
    | _ => reviewDiffs projectId mergeRequestIid mrDetails diffs
    end.

(** [handleReview]: [Some tt] when the job resolves, [None] when it
    rejects, the review marked as failed if that update goes
    through. *)
Definition handleReview (projectId mergeRequestIid : Z) : M Env (option unit) :=
  r <- tryReview projectId mergeRequestIid ;;
  match r with
  | Some _ => ret (Some tt)
  | None => updateReview (statusOnly FAILED) ;;; ret None
  end.
End Service.

End ReviewProcessor.

(* ================================================================== *)
(** ** Webhook guard (common/guards/gitlab-webhook.guard.ts) *)
(* ================================================================== *)

Module GitLabWebhookGuard.

(** The bytes that [Buffer.write] stores for a character, in UTF-8:
    one for a character below 128 and two for the others (the
    characters of the strings are below 256). *)
Definition utf8 (c : ascii) : list N :=
  let n := N_of_ascii c in
  if (n <? 128)%N then [n] else [192 + n / 64; 128 + n mod 64]%N.

(** [buf.write(s)] into a buffer with [room] bytes left: the
    characters that fit, none of them in part. *)
Fixpoint written (room : nat) (s : string) : list N :=
  match s with
  | EmptyString => []
  | String c s' =>
      let bytes := utf8 c in
      if (List.length bytes <=? room)%nat
      then bytes ++ written (room - List.length bytes) s'
      else []
  end.

(** [Buffer.alloc(size)] after [write(s)]. *)
Definition buffer (size : nat) (s : string) : list N :=
  let w := written size s in
  w ++ repeat 0%N (size - List.length w).

(** [crypto.timingSafeEqual] on two buffers of the same size. *)
Fixpoint timingSafeEqual (a b : list N) : bool :=
  match a, b with
  | [], [] => true
  | x :: a', y :: b' => N.eqb x y && timingSafeEqual a' b'
  | _, _ => false
  end.

Inductive Outcome : Type :=
| activated
| UnauthorizedException (message : string).

(** [canActivate] on the value of the header [x-gitlab-token] and on
    the configured secret, each of which may be missing. *)
Definition canActivate (token expectedToken : option string) : Outcome :=
  match token with
  | None | Some EmptyString => UnauthorizedException "Missing GitLab token"
  | Some token =>
      match expectedToken with
      | None | Some EmptyString =>
          UnauthorizedException "Webhook secret not configured"
      | Some expectedToken =>
          let maxLen := Nat.max (String.length token) (String.length expectedToken) in
          let tokenBuf := buffer maxLen token in
          let expectedBuf := buffer maxLen expectedToken in
          let isValid :=
            timingSafeEqual tokenBuf expectedBuf
            && (String.length token =? String.length expectedToken)%nat in
          if isValid then activated
          else UnauthorizedException "Invalid GitLab token"
      end
  end.

End GitLabWebhookGuard.

(* ================================================================== *)
(** ** Scripted worlds

    A world given by tables: what the merge request and the repository
    hold, what parse-diff and [JSON.parse] read from the texts at hand
    (a text without an entry makes them throw; the texts stand for the
    diffs and the JSON documents of a scenario), and the outcomes of the
    successive chat completions (the environment).  The properties are
    proved for every world; these ones run the scenarios. *)
(* ================================================================== *)

Module Scripted.

Record Config : Type := mkConfig {
  enabled : bool;
  mergeRequest : option MRDetails;
  comparison : option (list GitLabDiff);
  repository : list (string * string);
  notesAccepted : bool;
  discussionsAccepted : bool;
  databaseUp : bool;
  parsedDiffs : list (string * list ParsedFile);
  parsedJson : list (string * RawReview)
}.

Fixpoint assoc {A} (k : string) (m : list (string * A)) : option A :=
  match m with
  | [] => None
  | (k', v) :: m' => if String.eqb k k' then Some v else assoc k m'
  end.

Definition nextChat (outcomes : list ChatOutcome) : ChatOutcome * list ChatOutcome :=
  match outcomes with
  | [] => (chatThrows, [])
  | o :: rest => (o, rest)
  end.

Definition world (cfg : Config) : World (list ChatOutcome) :=
  {| llmEnabled := enabled cfg;
     MergeRequests_show := fun _ _ e => (mergeRequest cfg, e);
     Repositories_compare := fun _ _ _ e => (comparison cfg, e);
     RepositoryFiles_show := fun _ path _ e => (assoc path (repository cfg), e);
     MergeRequestNotes_create := fun _ _ _ e => (notesAccepted cfg, e);
     MergeRequestDiscussions_create := fun _ _ _ e => (discussionsAccepted cfg, e);
     chat_completions_create := fun _ e => nextChat e;
     prisma_review_update := fun _ e => (databaseUp cfg, e);
     parseDiff := fun text => assoc text (parsedDiffs cfg);
     JSON_parse := fun text => assoc text (parsedJson cfg) |}.

Definition pending : Review := mkReview PENDING contentEmpty None 0 0.

Definition start (outcomes : list ChatOutcome) : St (list ChatOutcome) :=
  mkSt outcomes pending [].

Definition added (k : Z) (text : string) : Change := mkChange add (Some k) (Some text).
Definition removed (text : string) : Change := mkChange del None (Some text).
Definition kept (text : string) : Change := mkChange normal None (Some text).

(** The first scenario of the specification: [utils.ts] (+8 -2) and
    [main.ts] (+3 -1), reviewed in one batch. *)
Definition utilsChanges : list Change :=
  [kept " a"; removed "-b"; removed "-c"; added 10 "+d"; added 11 "+e"; added 12 "+f";
   added 13 "+g"; added 14 "+h"; added 15 "+i"; added 16 "+j"; added 17 "+k"; kept " l"].
Definition mainChanges : list Change :=
  [removed "-x"; added 3 "+y"; added 4 "+z"; added 5 "+w"].

Definition highLogic : RawIssue :=
  mkRawIssue (Some "utils.ts") (Some 12%Z) (Some high) (Some logic)
             (Some "Loop bound is off by one") (Some "Use < instead of <=").
Definition lowStyle : RawIssue :=
  mkRawIssue (Some "main.ts") (Some 4%Z) (Some low) (Some style)
             (Some "Name is too short") (Some "Rename it").

Definition sha1 : MRDetails := mkMRDetails "b0" "h0" "s0" "feature" "main".

Definition happyDiffs : list GitLabDiff :=
  [mkGitLabDiff "utils.ts" "utils.ts" "@@ utils"; mkGitLabDiff "main.ts" "main.ts" "@@ main"].

(** Seven critical findings on [utils.ts]. *)
Definition secretLogged : RawIssue :=
  mkRawIssue (Some "utils.ts") (Some 12%Z) (Some critical) (Some security)
             (Some "Secret is written to the log") (Some "Remove the log statement").

Definition happy : Config :=
  mkConfig true (Some sha1) (Some happyDiffs)
    [("utils.ts", "line"); ("main.ts", "line")]
    true true true
    [("@@ utils", [mkParsedFile "utils.ts" "utils.ts" false false [utilsChanges]]);
     ("@@ main", [mkParsedFile "main.ts" "main.ts" false false [mainChanges]])]
    [("{answer}", mkRawReview (Some "ok") (Some [highLogic; lowStyle]));
     ("{flood}", mkRawReview (Some "bad") (Some (repeat secretLogged 7)))].

(** The job of the first scenario, and its stages. *)
Definition happyStart : St (list ChatOutcome) := start [chatAnswers (Some "{answer}")].

(** The same merge request when the model reports the seven findings. *)
Definition floodStart : St (list ChatOutcome) := start [chatAnswers (Some "{flood}")].

Definition handle (cfg : Config) (st : St (list ChatOutcome))
  : option unit * St (list ChatOutcome) :=
  @ReviewProcessor.handleReview _ (world cfg) 1 1 st.

Definition fetched (cfg : Config) (st : St (list ChatOutcome)) : St (list ChatOutcome) :=
  snd (@GitLabService.getMRDetails _ (world cfg) 1 1
         (snd (@GitLabService.getMRDiffs _ (world cfg) 1 1
                 (snd (@ReviewProcessor.updateReview _ (world cfg)
                         (ReviewProcessor.statusOnly PROCESSING) st))))).

Definition collected (cfg : Config) (diffs : list GitLabDiff) (st : St (list ChatOutcome))
  : list DiffChunk * St (list ChatOutcome) :=
  @ReviewProcessor.collectChunks _ (world cfg) 1 sha1
     (Js.slice diffs 0 (Z.of_nat ReviewProcessor.MAX_FILES)) (fetched cfg st).




Definition retainedFlood : list IssueWithFile :=
  repeat (LlmService.toIssueWithFile secretLogged) 7.

(** A repository that cannot be reached, and one with a file of five
    lines. *)
Definition offline : Config :=
  mkConfig true (Some sha1) (Some []) [] true true true [] [].

Definition fiveLines : Config :=
  mkConfig true (Some sha1) (Some [])
    [("src/a.ts", "import { a } from './a'
b
c
d
e")] true true true [] [].

(** Fifty lines of imports. *)
Definition fiftyImports : list string := repeat "import { a } from './a'" 50.

(** A chunk of 101 additions. *)
Definition longChanges : list Change :=
  map (fun k => added (Z.of_nat k) "a") (seq 1 100) ++ [added 101 "b"].

Definition long : Config :=
  mkConfig true (Some sha1) (Some []) [] true true true
    [("@@ long", [mkParsedFile "long.ts" "long.ts" false false [longChanges]])] [].

(** Issues and contexts for the verifier. *)
Definition sqlInjection : CodeIssue :=
  mkCodeIssue 3 high security "SQL query is built by concatenation"
              "Use a parameterized query".

Definition missingImportX : CodeIssue :=
  mkCodeIssue 3 high security "missing import 'X'" "Import X".

Definition undefinedFoo : CodeIssue :=
  mkCodeIssue 7 medium logic "foo is not defined" "Declare foo".

Definition importsX : FileContentWithContext :=
  mkFileContext ["const y = X.make();"] 3 3 3 10 ["import { X } from './x'"].

Definition withImports : VerificationContext :=
  mkVerificationContext 1 "src/a.ts" "h0" (Some importsX).

Definition bare : VerificationContext :=
  mkVerificationContext 1 "src/a.ts" "h0" None.



End Scripted.

(* ================================================================== *)
(** ** Vocabulary of the properties *)
(* ================================================================== *)

(** What the two context loops of [processChunk] leave alone: the
    changed lines, and the lines assembled so far, to which they only
    append. *)
Definition grows (a b : DiffProcessor.Acc) : Prop :=
  DiffProcessor.accChangedLines b = DiffProcessor.accChangedLines a
  /\ exists more, DiffProcessor.result b = DiffProcessor.result a ++ more.

(** Selections of the trace. *)
Definition isChat (e : Event) : bool :=
  match e with EvChatCompletion _ => true | _ => false end.

Definition isLlmCall (e : Event) : bool :=
  match e with
  | EvReviewMultipleChunks _ | EvReviewChangedLines _ => true
  | _ => false
  end.

(** The number of chat completions attempted so far. *)
Definition attempts {Env} (st : St Env) : nat :=
  List.length (filter isChat (trace st)).

(** The calls of the LLM service made so far. *)
Definition llmCalls {Env} (st : St Env) : list Event := filter isLlmCall (trace st).

(** The outcomes of a chat completion that make the attempt reject. *)
Definition rejects (o : ChatOutcome) : Prop :=
  o = chatThrows \/ o = chatAnswers None \/ o = chatAnswers (Some EmptyString).

(** The retry of a request [req] announced by the event [e], then
    parsed by [parse] or answered by [failed]: the common shape of
    [reviewChangedLines] and [reviewMultipleChunks]. *)
Definition retried {Env} `{World Env} {R} (e : Event) (req : ChatRequest) (parse : string -> R) (failed : R)
  : M Env R :=
  bind (emit e) (fun _ =>
    bind (LlmService.pRetry 3 (LlmService.attempt req)) (fun review =>
      match review with
      | Some text => ret (parse text)
      | None => ret failed
      end)).

(** A computation that leaves an observation [g] of the state as it
    found it. *)
Definition stable {Env A X} (g : St Env -> X) (m : M Env A) : Prop :=
  forall st, g (snd (m st)) = g st.

(** An observation that does not look at the environment, and that an
    event [e] does not change. *)
Definition blind {Env X} (g : St Env -> X) (e : Event) : Prop :=
  forall st env', g (mkSt env' (review st) (trace st ++ [e])) = g st.

(** The impact of a severity as the specification gives it. *)
Definition specImpact (s : Severity) : Z :=
  match s with critical => 15 | high => 10 | medium => 5 | low => 2 end%Z.

(** The sum of the impacts of the issues of a list. *)
Definition totalImpact (l : list IssueWithFile) : Z :=
  fold_right (fun i acc => (specImpact (severity (codeIssue i)) + acc)%Z) 0%Z l.

(** Some collected chunk has this file name. *)
Definition hasChunk (allChunksWithContext : list DiffChunk) (path : string) : bool :=
  existsb (fun c => String.eqb (filename c) path) allChunksWithContext.

(** The invariant of STEP 3: the score is what the retained issues
    leave of 100. *)
Definition scored (t : ReviewProcessor.Tally) : Prop :=
  ReviewProcessor.totalScore t = (100 - totalImpact (ReviewProcessor.allIssues t))%Z.

(** The start of a job that gets to its diffs: the review is marked as
    processing, the diffs and the details of the merge request are
    fetched, and there is a diff. *)
Definition reaches {Env} `{World Env} (projectId iid : Z) (st : St Env) (diffs : list GitLabDiff)
           (mr : MRDetails) (st3 : St Env) : Prop :=
  llmEnabled = true
  /\ diffs <> []
  /\ exists st1 st2,
      ReviewProcessor.updateReview (ReviewProcessor.statusOnly PROCESSING) st = (Some tt, st1)
      /\ GitLabService.getMRDiffs projectId iid st1 = (Some diffs, st2)
      /\ GitLabService.getMRDetails projectId iid st2 = (Some mr, st3).

(** An observation that only the calls of the LLM service may change. *)
Definition offstage {Env X} (g : St Env -> X) : Prop :=
  forall e, isLlmCall e = false -> blind g e.

(** In a scripted world every stage of [reaches] is a computation. *)
Ltac reach :=
  split; [reflexivity|]; split; [discriminate|];
  eexists; eexists; split; [reflexivity|]; split; reflexivity.

(** How [processChunk] renders a change of a hunk, and the lines of a
    chunk text that are context: they start with a space. *)
Definition isDel (c : Change) : bool :=
  match ctype c with del => true | _ => false end.

Definition isChange (c : Change) : bool := DiffProcessor.isAdd c || isDel c.

Definition rendered (c : Change) : string :=
  ((match ctype c with normal => " " | add => "+" | del => "-" end)
   ++ DiffProcessor.contentOrEmpty c)%string.

Definition isContextLine (s : string) : bool := Js.startsWith s " ".

(** The invariant of the main loop of [processChunk] before index [i]:
    every assembled line has its own index in [addedIndices], and an
    index that is recorded ahead of the loop is that of a context
    line. *)
Definition tracked (lines : list Change) (i : nat) (a : DiffProcessor.Acc) : Prop :=
  NoDup (DiffProcessor.addedIndices a)
  /\ List.length (DiffProcessor.result a) = List.length (DiffProcessor.addedIndices a)
  /\ forall j, In j (DiffProcessor.addedIndices a) ->
       (j < List.length lines)%nat
       /\ ((j < i)%nat
           \/ exists l, nth_error lines j = Some l /\ ctype l = normal).

(** The lines that [extractImports] looks at: a code line is one that
    is neither blank nor a comment once trimmed; an import line is a
    code line that the pattern of the language matches, and the other
    code lines are those that the scan counts. *)
Definition isCodeLine (raw : string) : bool :=
  negb (GitLabService.isBlankOrComment (Js.trim raw)).

Definition isImportLine (pattern : GitLabService.Pattern) (raw : string) : bool :=
  match pattern with
  | GitLabService.isRegExp r => isCodeLine raw && Re.test r (Js.trim raw)
  | GitLabService.notRegExp => false
  end.

Definition isOtherCode (pattern : GitLabService.Pattern) (raw : string) : bool :=
  isCodeLine raw && negb (isImportLine pattern raw).

(** [patterns[ext] || patterns['ts']] for the file at [filePath]. *)
Definition patternOf (filePath : string) : GitLabService.Pattern :=
  GitLabService.patternFor (Js.toLowerCase (Js.lastPart filePath ".")).

(** What a check of the verifier leaves behind: the review as it was,
    and no event or the one fetch of the file of the issue. *)
Definition fetchedAtMostOnce {Env} (context : VerificationContext) (st st' : St Env)
  : Prop :=
  review st' = review st
  /\ (trace st' = trace st
      \/ trace st' = trace st ++ [EvFileShow (filePath context) (sha context)]).

(** A computation that only adds events of a kind [p] to the trace. *)
Definition emits {Env A} (p : Event -> bool) (m : M Env A) : Prop :=
  forall st, exists more,
    trace (snd (m st)) = trace st ++ more /\ forallb p more = true.

(** The comments that a job posts. *)
Definition isNote (e : Event) : bool :=
  match e with EvNote _ => true | _ => false end.

Definition isDiscussion (e : Event) : bool :=
  match e with EvDiscussion _ => true | _ => false end.

Definition isComment (e : Event) : bool := isNote e || isDiscussion e.

Definition isFileShow (e : Event) : bool :=
  match e with EvFileShow _ _ => true | _ => false end.

(** The summary comments posted so far. *)
Definition notes {Env} (st : St Env) : list Event := filter isNote (trace st).





(** A computation that posts at most [k] summary comments. *)
Definition notesBy {Env A} (k : nat) (m : M Env A) : Prop :=
  forall st, (List.length (notes (snd (m st))) <= List.length (notes st) + k)%nat.

(** A chunk that lists a changed line: its file is fetched. *)
Definition hasChangedLine (c : DiffChunk) : bool :=
  match changedLines c with [] => false | _ :: _ => true end.

(** A scripted world whose model is out of reach: every chat
    completion throws. *)
Definition down (cfg : Scripted.Config) : World unit :=
  {| llmEnabled := Scripted.enabled cfg;
     MergeRequests_show := fun _ _ e => (Scripted.mergeRequest cfg, e);
     Repositories_compare := fun _ _ _ e => (Scripted.comparison cfg, e);
     RepositoryFiles_show := fun _ path _ e => (Scripted.assoc path (Scripted.repository cfg), e);
     MergeRequestNotes_create := fun _ _ _ e => (Scripted.notesAccepted cfg, e);
     MergeRequestDiscussions_create := fun _ _ _ e => (Scripted.discussionsAccepted cfg, e);
     chat_completions_create := fun _ e => (chatThrows, e);
     prisma_review_update := fun _ e => (Scripted.databaseUp cfg, e);
     parseDiff := fun text => Scripted.assoc text (Scripted.parsedDiffs cfg);
     JSON_parse := fun text => Scripted.assoc text (Scripted.parsedJson cfg) |}.



(** The events of a job that reads the merge request and writes the
    review, and does nothing else. *)
Definition isBookkeeping (e : Event) : bool :=
  match e with
  | EvReviewUpdate _ | EvMergeRequestShow | EvCompare _ _ => true
  | _ => false
  end.

(** The state in which a job holds the diffs and the details of its
    merge request. *)
Definition fetchedIn {Env} (W : World Env) (projectId iid : Z) (st : St Env) : St Env :=
  snd (GitLabService.getMRDetails projectId iid
         (snd (GitLabService.getMRDiffs projectId iid
                 (snd (ReviewProcessor.updateReview
                         (ReviewProcessor.statusOnly PROCESSING) st))))).



Definition onFile (f : string) (l : list IssueWithFile) : list IssueWithFile :=
  filter (fun i => String.eqb (file i) f) l.


Definition groupOf (f : string) (groups : list (string * list IssueWithFile))
  : list IssueWithFile :=
  List.concat (map snd (filter (fun g => String.eqb (fst g) f) groups)).

(** The words that a regular expression can go over (an assertion goes
    over the empty word), and the expressions of which every group
    [n] only captures words of [Q n]. *)
Fixpoint lang (r : Re.regex) (w : list ascii) : Prop :=
  match r with
  | Re.Eps | Re.WordB | Re.Bol | Re.Eol => w = []
  | Re.Chr p => exists c, w = [c] /\ p c = true
  | Re.Seq a b => exists x y, w = x ++ y /\ lang a x /\ lang b y
  | Re.Alt a b => lang a w \/ lang b w
  | Re.Star p => forallb p w = true
  | Re.Opt a => w = [] \/ lang a w
  | Re.Grp _ a => lang a w
  end.

Fixpoint captures (Q : nat -> list ascii -> Prop) (r : Re.regex) : Prop :=
  match r with
  | Re.Grp n a => (forall w, lang a w -> Q n w) /\ captures Q a
  | Re.Seq a b | Re.Alt a b => captures Q a /\ captures Q b
  | Re.Opt a => captures Q a
  | _ => True
  end.

(** A word within another, and a text within another. *)
Definition within (input w : list ascii) : Prop := exists a b, input = a ++ w ++ b.

Definition sub (t s : string) : Prop := exists a b, s = (a ++ t ++ b)%string.

(** A capture of a search in [input]: a part of the input that is in
    [Q]. *)
Definition captured (Q : nat -> list ascii -> Prop) (input : list ascii)
           (c : nat * string) : Prop :=
  Q (fst c) (Js.chars (snd c)) /\ within input (Js.chars (snd c)).

(** A name as the verifier extracts it: not empty, and made of letters,
    digits, [_] and [$]. *)
Definition isName (w : list ascii) : Prop :=
  w <> [] /\ forallb Js.isIdent w = true.

(** A repository whose file uses [X] and does not import it. *)
Definition usesX : Scripted.Config :=
  Scripted.mkConfig true (Some Scripted.sha1) (Some [])
    [("src/a.ts", "const y = X.make();")] true true true [] [].

(** An answer of the model in a fenced block, with or without the
    language tag. *)
Definition fenced (tag body : string) : string :=
  ("```" ++ tag ++ DiffProcessor.newline ++ body ++ DiffProcessor.newline ++ "```")%string.

(** A text of characters below 128. *)
Definition isAscii (s : string) : bool :=
  forallb (fun c => (N_of_ascii c <? 128)%N) (Js.chars s).

(** A character of Latin-1, as a text. *)
Definition latin1 (n : nat) : string := String (ascii_of_nat n) EmptyString.

(** A computation that attempts at most [k] chat completions. *)
Definition attemptsBy {Env A} (k : nat) (m : M Env A) : Prop :=
  forall st, (attempts (snd (m st)) <= attempts st + k)%nat.

(* ================================================================== *)
(** * Properties *)
(* ================================================================== *)

(** ** Lists and strings *)

Section JsFacts.

Lemma sliceIndex_inside (len k : Z) :
  (0 <= k <= len)%Z -> Js.sliceIndex len k = k.
Proof.
  intros Hk. unfold Js.sliceIndex.
  destruct (k <? 0)%Z eqn:E.
  - apply Z.ltb_lt in E. lia.
  - lia.
Qed.

Lemma slice_length {A} (l : list A) (a b : Z) :
  (0 <= a <= b)%Z -> (b <= Z.of_nat (List.length l))%Z ->
  Z.of_nat (List.length (Js.slice l a b)) = (b - a)%Z.
Proof.
  intros Hab Hb. unfold Js.slice.
  rewrite !sliceIndex_inside by lia.
  rewrite length_firstn, length_skipn. lia.
Qed.

Lemma slice_prefix {A} (l : list A) (n : nat) :
  Js.slice l 0 (Z.of_nat n) = firstn n l.
Proof.
  unfold Js.slice.
  assert (H0 : Js.sliceIndex (Z.of_nat (List.length l)) 0 = 0%Z)
    by (unfold Js.sliceIndex; simpl; lia).
  assert (Hn : Js.sliceIndex (Z.of_nat (List.length l)) (Z.of_nat n)
               = Z.of_nat (Nat.min n (List.length l))).
  { unfold Js.sliceIndex. destruct (Z.of_nat n <? 0)%Z eqn:E.
    - apply Z.ltb_lt in E. lia.
    - lia. }
  rewrite H0, Hn, Z.sub_0_r, Nat2Z.id. simpl.
  destruct (Nat.le_ge_cases n (List.length l)).
  - now rewrite Nat.min_l.
  - rewrite Nat.min_r by assumption.
    now rewrite !firstn_all2.
Qed.

Lemma startsWith_refl (s : string) : Js.startsWith s s = true.
Proof.
  induction s as [|c s IH]; simpl; [reflexivity|].
  now rewrite Ascii.eqb_refl.
Qed.

Lemma startsWith_app (s p t : string) :
  Js.startsWith s p = true -> Js.startsWith (s ++ t) p = true.
Proof.
  revert s. induction p as [|a p IH]; intros s H.
  - now destruct (s ++ t)%string.
  - destruct s as [|b s]; simpl in *; [discriminate|].
    apply andb_true_iff in H as [H1 H2].
    rewrite H1. simpl. now apply IH.
Qed.

Lemma includes_self (s t : string) : Js.includes (s ++ t) s = true.
Proof.
  assert (H : Js.startsWith (s ++ t) s = true)
    by (apply startsWith_app, startsWith_refl).
  destruct (s ++ t)%string; simpl in *; now rewrite H.
Qed.

Lemma includes_app_l (s t x : string) :
  Js.includes s x = true -> Js.includes (s ++ t) x = true.
Proof.
  induction s as [|c s IH]; simpl; intros H.
  - rewrite orb_false_r in H. destruct x; [|discriminate].
    destruct t; reflexivity.
  - apply orb_true_iff in H as [H|H].
    + apply (startsWith_app (String c s) x t) in H. simpl in H.
      now rewrite H.
    + rewrite (IH H). apply orb_true_r.
Qed.

Lemma includes_app_r (s t x : string) :
  Js.includes t x = true -> Js.includes (s ++ t) x = true.
Proof.
  induction s as [|c s IH]; simpl; intros H; [assumption|].
  rewrite (IH H). apply orb_true_r.
Qed.

Lemma includes_join (sep x : string) (l : list string) :
  In x l -> Js.includes (Js.join sep l) x = true.
Proof.
  unfold Js.join. induction l as [|a l IH]; intros H; [contradiction|].
  simpl. destruct H as [->|H].
  - destruct l.
    + rewrite <- (includes_self x EmptyString) at 1.
      f_equal. clear. induction x; simpl; congruence.
    + apply includes_self.
  - destruct l as [|b l]; [contradiction|].
    apply includes_app_r, includes_app_r. now apply IH.
Qed.

Lemma append_assoc (a b c : string) : ((a ++ b) ++ c = a ++ (b ++ c))%string.
Proof. induction a as [|x a IH]; simpl; [reflexivity|]. now rewrite IH. Qed.

Lemma showZ_negative (z : Z) :
  (z < 0)%Z -> exists digits, Js.showZ z = ("-" ++ digits)%string.
Proof.
  destruct z as [|q|q]; intros Hz; try lia.
  eexists. reflexivity.
Qed.

End JsFacts.

(** ** GitLab service *)

Section GitLabFacts.
Import GitLabService.
Context {Env : Type} `{World Env}.

(** The [catch] of [getFileContentWithContext] makes it total: a
    caller never sees a rejection. *)
Lemma getFileContentWithContext_resolves
      (projectId : Z) (path ref : string) (lineNumber contextLines : Z) (st : St Env) :
  exists ctx,
    fst (getFileContentWithContext projectId path ref lineNumber contextLines st)
    = Some ctx.
Proof.
  unfold getFileContentWithContext, bind, call.
  destruct (RepositoryFiles_show projectId path ref (env st)) as [[text|] e].
  - destruct (contextOf text path lineNumber contextLines); eexists; reflexivity.
  - eexists; reflexivity.
Qed.

Lemma getFileContentWithContext_failed
      (projectId : Z) (path ref : string) (lineNumber contextLines : Z) (st : St Env) :
  fst (RepositoryFiles_show projectId path ref (env st)) = None ->
  fst (getFileContentWithContext projectId path ref lineNumber contextLines st)
  = Some (fetchFailed lineNumber).
Proof.
  unfold getFileContentWithContext, bind, call. intros Hf.
  destruct (RepositoryFiles_show projectId path ref (env st)) as [[text|] e];
    simpl in Hf; [discriminate|reflexivity].
Qed.

Lemma contextOf_wellFormed (text path : string) (lineNumber contextLines : Z)
      (ctx : FileContentWithContext) :
  contextOf text path lineNumber contextLines = Some ctx ->
  (0 <= contextLines)%Z ->
  (1 <= lineNumber <= totalLines ctx)%Z ->
  wellFormed ctx.
Proof.
  unfold contextOf. intros Hc Hw Hl.
  destruct (extractImports _ path) as [imps|]; [|discriminate].
  injection Hc as <-. simpl in Hl. unfold wellFormed. simpl.
  split; [lia|].
  rewrite slice_length by lia. lia.
Qed.

(** C7, as amended: a context returned by [getFileContentWithContext]
    for a target line that lies in the file, [1 <= targetLineNumber <=
    totalLines], and a context width that is not negative has
    [startLineNumber <= targetLineNumber <= endLineNumber] and
    [endLineNumber - startLineNumber + 1] lines. *)
Theorem getFileContentWithContext_wellFormed
        (projectId : Z) (path ref : string) (lineNumber contextLines : Z)
        (st : St Env) (ctx : FileContentWithContext) :
  fst (getFileContentWithContext projectId path ref lineNumber contextLines st)
  = Some ctx ->
  (0 <= contextLines)%Z ->
  (1 <= lineNumber <= totalLines ctx)%Z ->
  wellFormed ctx.
Proof.
  unfold getFileContentWithContext, bind, call. intros Hr Hw Hl.
  destruct (RepositoryFiles_show projectId path ref (env st)) as [[text|] e].
  - destruct (contextOf text path lineNumber contextLines) as [c|] eqn:Hc;
      simpl in Hr; injection Hr as <-.
    + now apply (contextOf_wellFormed text path lineNumber contextLines).
    + simpl in Hl. lia.
  - simpl in Hr. injection Hr as <-. simpl in Hl. lia.
Qed.

Lemma firstn_scanned (L : list string) :
  (50 <= List.length L)%nat ->
  firstn (Nat.min (List.length (L ++ L)) 50) (L ++ L)
  = firstn (Nat.min (List.length L) 50) L.
Proof.
  intros HL. rewrite length_app.
  rewrite !Nat.min_r by lia.
  rewrite firstn_app.
  replace (50 - List.length L)%nat with 0%nat by lia.
  simpl. apply app_nil_r.
Qed.

(** C8: on a file of at least 50 lines the import extractor only reads
    the first 50, so that repeating the file changes nothing:
    [extractImports (L ++ L) = extractImports L]. *)
Theorem extractImports_repeated (L : list string) (path : string) :
  (50 <= List.length L)%nat ->
  extractImports (L ++ L) path = extractImports L path.
Proof.
  intros HL. unfold extractImports.
  now rewrite firstn_scanned.
Qed.

End GitLabFacts.

(** The context of line 3 of a file of five lines, one line around. *)
Lemma wellFormed_fiveLines :
  GitLabService.wellFormed
    (mkFileContext ["b"; "c"; "d"] 2 3 4 5 ["import { a } from './a'"]).
Proof.
  apply (@getFileContentWithContext_wellFormed _ (Scripted.world Scripted.fiveLines)
           1%Z "src/a.ts" "h0" 3%Z 1%Z (Scripted.start [])).
  - reflexivity.
  - lia.
  - simpl. lia.
Defined.

(** When the file cannot be fetched the returned context has no line
    and the bounds 0 and 0 around the target 5; and around line 9 of a
    file of five lines the context ends at line 5, before its target. *)
Lemma fetchFailed_not_wellFormed :
  (fst (@GitLabService.getFileContentWithContext _ (Scripted.world Scripted.offline)
          1%Z "src/a.ts" "h0" 5%Z 10%Z (Scripted.start []))
   = Some (GitLabService.fetchFailed 5)
   /\ ~ GitLabService.wellFormed (GitLabService.fetchFailed 5))
  /\ (fst (@GitLabService.getFileContentWithContext _ (Scripted.world Scripted.fiveLines)
             1%Z "src/a.ts" "h0" 9%Z 1%Z (Scripted.start []))
      = Some (mkFileContext [] 8 9 5 5 ["import { a } from './a'"])
      /\ ~ GitLabService.wellFormed
             (mkFileContext [] 8 9 5 5 ["import { a } from './a'"])).
Proof.
  split; (split; [reflexivity|]); unfold GitLabService.wellFormed; simpl; lia.
Qed.

Lemma extractImports_fiftyImports :
  GitLabService.extractImports (Scripted.fiftyImports ++ Scripted.fiftyImports) "src/a.ts"
  = GitLabService.extractImports Scripted.fiftyImports "src/a.ts".
Proof.
  apply extractImports_repeated.
  vm_compute. apply le_n.
Defined.

(** ** Diff processor *)

Section DiffProcessorFacts.
Import DiffProcessor.

Lemma grows_refl (a : Acc) : grows a a.
Proof. split; [reflexivity|]. exists []. now rewrite app_nil_r. Qed.

Lemma grows_trans (a b c : Acc) : grows a b -> grows b c -> grows a c.
Proof.
  intros [H1 [m1 R1]] [H2 [m2 R2]]. split; [congruence|].
  exists (m1 ++ m2). now rewrite R2, R1, app_assoc.
Qed.

Lemma grows_pushLine (text : string) (j : nat) (a : Acc) : grows a (pushLine text j a).
Proof. split; [reflexivity|]. now exists [text]. Qed.

Lemma grows_contextBefore (lines : list Change) (js : list nat) (a : Acc) :
  grows a (contextBefore lines js a).
Proof.
  revert a. induction js as [|j js IH]; intros a; simpl; [apply grows_refl|].
  destruct (nth_error lines j) as [l|]; [|apply IH].
  destruct (negb (has j a) && _); [|apply IH].
  eapply grows_trans; [apply grows_pushLine|apply IH].
Qed.

Lemma grows_contextAfter (lines : list Change) (js : list nat) (a : Acc) :
  grows a (contextAfter lines js a).
Proof.
  revert a. induction js as [|j js IH]; intros a; simpl; [apply grows_refl|].
  destruct (has j a); [apply IH|].
  destruct (nth_error lines j) as [l|]; [|apply IH].
  destruct (ctype l); try apply grows_refl.
  eapply grows_trans; [apply grows_pushLine|apply IH].
Qed.

Lemma grows_In (a b : Acc) (x : string) : grows a b -> In x (result a) -> In x (result b).
Proof. intros [_ [m R]] Hx. rewrite R. apply in_or_app. now left. Qed.

(** One iteration: an addition records its line number and its text. *)
Lemma step_changedLines (lines : list Change) (C i : nat) (l : Change) (a : Acc) :
  accChangedLines (step lines C i l a)
  = accChangedLines a ++ (if isAdd l then [lnOr0 l] else []).
Proof.
  unfold step, isAdd. destruct (ctype l).
  - now rewrite app_nil_r.
  - match goal with
    | |- accChangedLines (contextAfter ?ls ?js (pushLine ?t ?j (contextBefore ?ls' ?js' ?a1))) = _ =>
        destruct (grows_contextAfter ls js (pushLine t j (contextBefore ls' js' a1))) as [E1 _];
        destruct (grows_contextBefore ls' js' a1) as [E2 _]
    end.
    rewrite E1. simpl. now rewrite E2.
  - simpl. now rewrite app_nil_r.
Qed.

Lemma step_keeps (lines : list Change) (C i : nat) (l : Change) (a : Acc) (x : string) :
  In x (result a) -> In x (result (step lines C i l a)).
Proof.
  intros Hx. unfold step. destruct (ctype l); [assumption| |].
  - eapply grows_In; [apply grows_contextAfter|].
    simpl. apply in_or_app. left.
    eapply grows_In; [apply grows_contextBefore|]. exact Hx.
  - simpl. apply in_or_app. now left.
Qed.

Lemma step_adds (lines : list Change) (C i : nat) (l : Change) (a : Acc) :
  isAdd l = true -> In ("+" ++ contentOrEmpty l)%string (result (step lines C i l a)).
Proof.
  unfold step, isAdd. destruct (ctype l); try discriminate. intros _.
  eapply grows_In; [apply grows_contextAfter|].
  simpl. apply in_or_app. right. now left.
Qed.

Lemma walk_changedLines (lines : list Change) (C : nat) (rest : list Change) :
  forall (i : nat) (a : Acc),
    accChangedLines (walk lines C i rest a)
    = accChangedLines a ++ map lnOr0 (filter isAdd rest).
Proof.
  induction rest as [|l rest IH]; intros i a; simpl.
  - now rewrite app_nil_r.
  - rewrite IH, step_changedLines, <- app_assoc.
    now destruct (isAdd l).
Qed.

Lemma walk_keeps (lines : list Change) (C : nat) (rest : list Change) (x : string) :
  forall (i : nat) (a : Acc), In x (result a) -> In x (result (walk lines C i rest a)).
Proof.
  induction rest as [|l rest IH]; intros i a Hx; simpl; [assumption|].
  apply IH. now apply step_keeps.
Qed.

Lemma walk_adds (lines : list Change) (C : nat) (rest : list Change) (l : Change) :
  forall (i : nat) (a : Acc),
    In l rest -> isAdd l = true ->
    In ("+" ++ contentOrEmpty l)%string (result (walk lines C i rest a)).
Proof.
  induction rest as [|l' rest IH]; intros i a Hin Hadd; [contradiction|].
  simpl. destruct Hin as [->|Hin].
  - apply walk_keeps. now apply step_adds.
  - now apply IH.
Qed.

(** The three facts about one parsed chunk. *)
Lemma processChunk_changedLines (changes : list Change) (C : nat) :
  pChangedLines (processChunk changes C) = map lnOr0 (filter isAdd changes).
Proof. unfold processChunk. simpl. now rewrite walk_changedLines. Qed.

Lemma assembled_additions (changes : list Change) (C : nat) (l : Change) :
  In l changes -> isAdd l = true ->
  In ("+" ++ contentOrEmpty l)%string (assembled changes C).
Proof. apply walk_adds. Qed.

Lemma textLines_prefix (changes : list Change) (C : nat) :
  textLines changes C = firstn 100 (assembled changes C).
Proof. unfold textLines, maxLines. apply (slice_prefix _ 100). Qed.

Lemma textLines_capped (changes : list Change) (C : nat) :
  (List.length (textLines changes C) <= 100)%nat.
Proof. rewrite textLines_prefix. apply firstn_le_length. Qed.

Context {Env : Type} `{World Env}.

(** C6, as amended: for every chunk that [extractChangedLinesWithContext]
    emits, [changedLines] is the list of the new-file line numbers of
    the additions; every addition is among the assembled lines with its
    content after a [+]; the text of the chunk is the first 100
    assembled lines, so that it never has more than 100 lines and
    holds every listed addition when no more than 100 lines were
    assembled. *)
Theorem emitted_chunk (diffText : string) (C : nat) (c : DiffChunk) :
  In c (extractChangedLinesWithContext diffText C) ->
  exists (files : list ParsedFile) (f : ParsedFile) (changes : list Change),
    parseDiff diffText = Some files /\ In f files /\ In changes (chunks f)
    /\ changedLines c = map lnOr0 (filter isAdd changes)
    /\ hunks c = Js.join newline (textLines changes C)
    /\ textLines changes C = firstn 100 (assembled changes C)
    /\ (List.length (textLines changes C) <= 100)%nat
    /\ (forall l, In l changes -> isAdd l = true ->
                  In ("+" ++ contentOrEmpty l)%string (assembled changes C))
    /\ ((List.length (assembled changes C) <= 100)%nat ->
        forall l, In l changes -> isAdd l = true ->
                  Js.includes (hunks c) ("+" ++ contentOrEmpty l)%string = true).
Proof.
  unfold extractChangedLinesWithContext.
  destruct (parseDiff diffText) as [files|]; [|contradiction].
  intros Hc. apply in_flat_map in Hc as [f [Hf Hc]].
  unfold chunksOfFile in Hc.
  destruct (binary f); [contradiction|].
  destruct (deleted f); [contradiction|].
  apply in_flat_map in Hc as [changes [Hch Hc]].
  unfold chunkOf in Hc.
  destruct (pHasChanges (processChunk changes C)); [|contradiction].
  destruct Hc as [<-|[]].
  exists files, f, changes. simpl.
  split; [reflexivity|]. split; [assumption|]. split; [assumption|].
  split; [apply processChunk_changedLines|].
  split; [reflexivity|].
  split; [apply textLines_prefix|].
  split; [apply textLines_capped|].
  split; [intros l; apply assembled_additions|].
  intros Hlen l Hl Hadd.
  change (Js.includes (Js.join newline (textLines changes C))
                      ("+" ++ contentOrEmpty l) = true).
  apply includes_join.
  rewrite textLines_prefix, firstn_all2 by assumption.
  now apply assembled_additions.
Qed.

End DiffProcessorFacts.

(** The chunk of [utils.ts] in the first scenario. *)
Lemma emitted_chunk_utils :
  exists (files : list ParsedFile) (f : ParsedFile) (changes : list Change),
    @parseDiff _ (Scripted.world Scripted.happy) "@@ utils" = Some files
    /\ In f files /\ In changes (chunks f)
    /\ [10; 11; 12; 13; 14; 15; 16; 17]%Z
       = map DiffProcessor.lnOr0 (filter DiffProcessor.isAdd changes).
Proof.
  destruct (@emitted_chunk _ (Scripted.world Scripted.happy) "@@ utils" 10
              (mkDiffChunk "utils.ts" "typescript"
                 (DiffProcessor.pContent
                    (DiffProcessor.processChunk Scripted.utilsChanges 10))
                 8 2 [10; 11; 12; 13; 14; 15; 16; 17]%Z None None))
    as (files & f & changes & Hp & Hf & Hc & Hl & _).
  - vm_compute. now left.
  - exists files, f, changes. now repeat split.
Defined.

(** A chunk of 101 additions: the last one is listed in [changedLines]
    and is not in the text. *)
Lemma long_chunk_drops_addition :
  exists c : DiffChunk,
    In c (@DiffProcessor.extractChangedLinesWithContext _ (Scripted.world Scripted.long)
            "@@ long" 10)
    /\ In (Scripted.added 101 "b") Scripted.longChanges
    /\ In 101%Z (changedLines c)
    /\ Js.includes (hunks c) "+b" = false.
Proof.
  eexists. split; [vm_compute; left; reflexivity|].
  split; [vm_compute; tauto|].
  split; [vm_compute; tauto|].
  vm_compute. reflexivity.
Qed.

(** ** Issue verifier *)

Section IssueVerifierFacts.
Import IssueVerifier.
Context {Env : Type} `{World Env}.

(** C5, as amended: an issue of type security or performance whose
    message is routed neither to the import check nor to the
    definition check is returned valid with high confidence. *)
Theorem verifyIssue_bypass (i : CodeIssue) (context : VerificationContext) (st : St Env) :
  type i = security \/ type i = performance ->
  isImportIssue (message i) = false ->
  isDefinitionIssue (message i) = false ->
  isValid (fst (verifyIssue i context st)) = true
  /\ confidence (fst (verifyIssue i context st)) = confHigh.
Proof.
  intros Ht Hi Hd. unfold verifyIssue, bind, emit.
  rewrite Hi, Hd.
  destruct Ht as [-> | ->]; split; reflexivity.
Qed.

(** On the import path a failed fetch of the full file degrades the
    verdict to valid with low confidence. *)
Lemma verifyImportIssue_fetch_failure
      (i : CodeIssue) (context : VerificationContext) (st : St Env) (name : string) :
  extractImportName (message i) = Some name ->
  Js.includes (Js.toLowerCase (message i)) "duplicate" = false ->
  existsb (fun imp => matchesImport imp name) (contextImports context) = false ->
  fst (RepositoryFiles_show (vProjectId context) (filePath context) (sha context) (env st))
  = None ->
  fst (verifyImportIssue i context st)
  = mkVerificationResult true confLow "Could not fetch full file for verification".
Proof.
  intros Hn Hd Hc Hf. unfold verifyImportIssue.
  rewrite Hn, Hd, Hc.
  unfold bind, GitLabService.getFileContent, call.
  destruct (RepositoryFiles_show _ _ _ (env st)) as [[text|] e]; simpl in Hf;
    [discriminate|reflexivity].
Qed.

(** On the definition path the same failure never reaches the [catch]
    of the verifier: the GitLab service has replaced it by an empty
    context, in which nothing is defined, and the verdict is valid
    with high confidence. *)
Lemma verifyDefinitionIssue_fetch_failure
      (i : CodeIssue) (context : VerificationContext) (st : St Env) (name : string) :
  extractIdentifier (message i) = Some name ->
  existsb (fun l => matchesDefinition l name) (contextLinesOf context) = false ->
  fst (RepositoryFiles_show (vProjectId context) (filePath context) (sha context) (env st))
  = None ->
  fst (verifyDefinitionIssue i context st)
  = mkVerificationResult true confHigh
      (Js.quoted name ++ " is not defined within ±50 lines or imports").
Proof.
  intros Hn Hc Hf. unfold verifyDefinitionIssue.
  rewrite Hn, Hc.
  unfold bind, GitLabService.getFileContentWithContext, bind, call.
  destruct (RepositoryFiles_show _ _ _ (env st)) as [[text|] e]; simpl in Hf;
    [discriminate|reflexivity].
Qed.

End IssueVerifierFacts.

Lemma verifyIssue_bypass_sqlInjection :
  isValid (fst (@IssueVerifier.verifyIssue _ (Scripted.world Scripted.offline)
                  Scripted.sqlInjection Scripted.bare (Scripted.start []))) = true
  /\ confidence (fst (@IssueVerifier.verifyIssue _ (Scripted.world Scripted.offline)
                        Scripted.sqlInjection Scripted.bare (Scripted.start []))) = confHigh.
Proof.
  apply verifyIssue_bypass.
  - left. reflexivity.
  - reflexivity.
  - reflexivity.
Defined.

(** A security issue that reports a missing import which the context
    shows is filtered as a false positive. *)
Lemma verifyIssue_security_filtered :
  type Scripted.missingImportX = security
  /\ isValid (fst (@IssueVerifier.verifyIssue _ (Scripted.world Scripted.offline)
                     Scripted.missingImportX Scripted.withImports (Scripted.start [])))
     = false.
Proof. split; reflexivity. Qed.

(** C4, on an unreachable repository: the import path answers valid
    with low confidence, the definition path valid with high
    confidence. *)
Theorem verifyIssue_unreachable_repository :
  let run := fun i context =>
    fst (@IssueVerifier.verifyIssue _ (Scripted.world Scripted.offline)
           i context (Scripted.start [])) in
  run Scripted.missingImportX Scripted.bare
  = mkVerificationResult true confLow "Could not fetch full file for verification"
  /\ run Scripted.undefinedFoo Scripted.bare
     = mkVerificationResult true confHigh
         (Js.quoted "foo" ++ " is not defined within ±50 lines or imports").
Proof. split; reflexivity. Qed.

(** ** The monad *)

Section MonadFacts.
Context {Env : Type}.

Lemma bind_run {A B} (m : M Env A) (k : A -> M Env B) (st : St Env) :
  bind m k st = k (fst (m st)) (snd (m st)).
Proof. unfold bind. now destruct (m st). Qed.

Lemma stable_ret {A X} (g : St Env -> X) (a : A) : stable g (ret a).
Proof. intros st. reflexivity. Qed.

Lemma stable_bind {A B X} (g : St Env -> X) (m : M Env A) (k : A -> M Env B) :
  stable g m -> (forall a, stable g (k a)) -> stable g (bind m k).
Proof.
  intros Hm Hk st. unfold bind.
  destruct (m st) as [a st1] eqn:E.
  rewrite Hk. specialize (Hm st). now rewrite E in Hm.
Qed.

Lemma stable_call {A X} (g : St Env -> X) (e : Event) (op : Env -> A * Env) :
  blind g e -> stable g (call e op).
Proof.
  intros Hb st. unfold call. destruct (op (env st)) as [a e']. apply Hb.
Qed.

Lemma stable_emit {X} (g : St Env -> X) (e : Event) : blind g e -> stable g (emit e).
Proof. intros Hb st. unfold emit. apply Hb. Qed.

Lemma stable_forEach {A S X} (g : St Env -> X) (l : list A) (body : A -> S -> M Env S) :
  (forall x s, stable g (body x s)) -> forall s, stable g (forEach l body s).
Proof.
  intros Hb. induction l as [|x l IH]; intros s; simpl.
  - apply stable_ret.
  - apply stable_bind; [apply Hb|]. intros s'. apply IH.
Qed.

Lemma stable_bindE {A B X} (g : St Env -> X) (m : M Env (option A))
      (k : A -> M Env (option B)) :
  stable g m -> (forall a, stable g (k a)) -> stable g (bindE m k).
Proof.
  intros Hm Hk. unfold bindE. apply stable_bind; [assumption|].
  intros [a|]; [apply Hk|apply stable_ret].
Qed.

(** An invariant of the accumulator of a loop. *)
Lemma forEach_invariant {A S} (P : S -> Prop) (l : list A) (body : A -> S -> M Env S) :
  (forall x s st, P s -> P (fst (body x s st))) ->
  forall s st, P s -> P (fst (forEach l body s st)).
Proof.
  intros Hb. induction l as [|x l IH]; intros s st Hs; simpl; [assumption|].
  unfold bind. destruct (body x s st) as [s1 st1] eqn:E.
  apply IH. specialize (Hb x s st Hs). now rewrite E in Hb.
Qed.


Lemma blind_attempts (e : Event) : isChat e = false -> blind (@attempts Env) e.
Proof.
  intros He st env'. unfold attempts. simpl.
  rewrite filter_app. simpl. rewrite He. now rewrite app_nil_r.
Qed.

Lemma blind_llmCalls (e : Event) : isLlmCall e = false -> blind (@llmCalls Env) e.
Proof.
  intros He st env'. unfold llmCalls. simpl.
  rewrite filter_app. simpl. rewrite He. now rewrite app_nil_r.
Qed.

End MonadFacts.

(** ** LLM service *)

Section LlmServiceFacts.
Import LlmService.
Context {Env : Type} `{World Env}.

Lemma attempt_counts (req : ChatRequest) (st : St Env) :
  attempts (snd (attempt req st)) = S (attempts st).
Proof.
  unfold attempt, bind, call.
  destruct (chat_completions_create req (env st)) as [o e'].
  assert (E : attempts (mkSt e' (review st) (trace st ++ [EvChatCompletion req]))
              = S (attempts st)).
  { unfold attempts. simpl. rewrite filter_app, length_app. simpl. lia. }
  destruct o as [|[[|c s]|]]; exact E.
Qed.


Lemma attempt_rejects (req : ChatRequest) (st : St Env) :
  rejects (fst (chat_completions_create req (env st))) ->
  fst (attempt req st) = None.
Proof.
  unfold attempt, bind, call.
  destruct (chat_completions_create req (env st)) as [o e']. simpl.
  now intros [-> | [-> | ->]].
Qed.

Lemma pRetry_unfold {A} (n : nat) (input : M Env (option A)) (st : St Env) :
  pRetry n input st
  = match input st with
    | (Some a, st1) => (Some a, st1)
    | (None, st1) =>
        match n with
        | O => (None, st1)
        | S k => pRetry k input st1
        end
    end.
Proof.
  destruct n; simpl; unfold bind; destruct (input st) as [[a|] st1]; reflexivity.
Qed.

(** [pRetry n] makes at least one and at most [n + 1] attempts. *)
Lemma pRetry_attempts (req : ChatRequest) (n : nat) :
  forall st : St Env,
    (attempts st < attempts (snd (pRetry n (attempt req) st)) <= attempts st + S n)%nat.
Proof.
  induction n as [|n IH]; intros st; rewrite pRetry_unfold;
    pose proof (attempt_counts req st) as Hc;
    destruct (attempt req st) as [[text|] st1]; simpl in *; try lia.
  specialize (IH st1). lia.
Qed.



(** The state in which the first attempt of a call is made: the call
    has been recorded, the environment is that of the caller. *)
Lemma emitted_env (e : Event) (st : St Env) : env (snd (emit e st)) = env st.
Proof. reflexivity. Qed.

Lemma emitted_attempts (e : Event) (st : St Env) :
  isChat e = false -> attempts (snd (emit e st)) = attempts st.
Proof. intros He. apply (stable_emit attempts e (blind_attempts e He)). Qed.

Lemma retried_bound {R} (e : Event) (req : ChatRequest) (parse : string -> R) (failed : R)
      (st : St Env) :
  isChat e = false ->
  (attempts st < attempts (snd (retried e req parse failed st)) <= attempts st + 4)%nat.
Proof.
  intros He. unfold retried. rewrite !bind_run.
  pose proof (pRetry_attempts req 3 (snd (emit e st))) as Hp.
  rewrite (emitted_attempts e st He) in Hp.
  destruct (pRetry 3 (attempt req) (snd (emit e st))) as [[text|] st1]; exact Hp.
Qed.



Lemma reviewChangedLines_retried (chunk : DiffChunk) :
  llmEnabled = true ->
  reviewChangedLines chunk
  = retried (EvReviewChangedLines chunk) (promptSingle chunk) parseReviewResponse
            (mkCodeReviewResult "Error during review" []).
Proof. intros He. unfold reviewChangedLines, retried, isEnabled. now rewrite He. Qed.

Lemma reviewMultipleChunks_retried (chunks : list DiffChunk) :
  llmEnabled = true ->
  reviewMultipleChunks chunks
  = retried (EvReviewMultipleChunks chunks) (promptBatched chunks)
            parseBatchedReviewResponse
            (mkBatchedCodeReviewResult "Error during batched review" []).
Proof. intros He. unfold reviewMultipleChunks, retried, isEnabled. now rewrite He. Qed.

Lemma disabled_no_attempt (chunk : DiffChunk) (chunks : list DiffChunk) (st : St Env) :
  llmEnabled = false ->
  attempts (snd (reviewChangedLines chunk st)) = attempts st
  /\ attempts (snd (reviewMultipleChunks chunks st)) = attempts st.
Proof.
  intros He. unfold reviewChangedLines, reviewMultipleChunks, isEnabled.
  rewrite !bind_run, He. cbn [negb ret snd].
  split; now apply emitted_attempts.
Qed.


(** An answer that is not JSON is parsed to the empty review. *)
Lemma parseReviewResponse_invalid (response : string) :
  JSON_parse (cleanResponse response) = None ->
  parseReviewResponse response
  = mkCodeReviewResult "Failed to parse review results" [].
Proof. intros Hj. unfold parseReviewResponse. now rewrite Hj. Qed.

End LlmServiceFacts.


(** ** Review processor *)

Section ReviewProcessorFacts.
Import ReviewProcessor.
Context {Env : Type} `{World Env}.

Lemma bind_step {A B} (m : M Env A) (k : A -> M Env B) (st st1 : St Env) (a : A) :
  m st = (a, st1) -> bind m k st = k a st1.
Proof. intros E. unfold bind. now rewrite E. Qed.


Lemma offstage_llmCalls : offstage (@llmCalls Env).
Proof. intros e He. now apply blind_llmCalls. Qed.

(** The services that do not call the LLM service. *)
Section Offstage.
Context {X : Type} (g : St Env -> X) (Hg : offstage g).

Lemma stable_getFileContentWithContext (projectId : Z) (path ref : string) (n c : Z) :
  stable g (GitLabService.getFileContentWithContext projectId path ref n c).
Proof.
  unfold GitLabService.getFileContentWithContext.
  apply stable_bind; [apply stable_call, Hg; reflexivity|].
  intros [text|]; [|apply stable_ret].
  destruct (GitLabService.contextOf text path n c); apply stable_ret.
Qed.

Lemma stable_getFileContent (projectId : Z) (path ref : string) :
  stable g (GitLabService.getFileContent projectId path ref).
Proof. apply stable_call, Hg. reflexivity. Qed.

Lemma stable_getMRDetails (projectId iid : Z) :
  stable g (GitLabService.getMRDetails projectId iid).
Proof. apply stable_call, Hg. reflexivity. Qed.

Lemma stable_getMRDiffs (projectId iid : Z) :
  stable g (GitLabService.getMRDiffs projectId iid).
Proof.
  unfold GitLabService.getMRDiffs.
  apply stable_bindE; [apply stable_getMRDetails|].
  intros mr. destruct (_ || _); [apply stable_ret|].
  apply stable_call, Hg. reflexivity.
Qed.

Lemma stable_postInlineComment (projectId iid : Z) (d : InlineCommentData) :
  stable g (GitLabService.postInlineComment projectId iid d).
Proof.
  unfold GitLabService.postInlineComment.
  apply stable_bind; [apply stable_call, Hg; reflexivity|].
  intros _. apply stable_ret.
Qed.

Lemma stable_postMRComment (projectId iid : Z) (body : string) :
  stable g (GitLabService.postMRComment projectId iid body).
Proof. apply stable_call, Hg. reflexivity. Qed.

Lemma stable_verifyImportIssue (i : CodeIssue) (context : VerificationContext) :
  stable g (IssueVerifier.verifyImportIssue i context).
Proof.
  unfold IssueVerifier.verifyImportIssue.
  destruct (IssueVerifier.extractImportName (message i)) as [name|]; [|apply stable_ret].
  destruct (Js.includes _ "duplicate"); [apply stable_ret|].
  destruct (existsb _ _); [apply stable_ret|].
  apply stable_bind; [apply stable_getFileContent|].
  intros [text|]; [|apply stable_ret].
  destruct (IssueVerifier.matchesImport text name); apply stable_ret.
Qed.

Lemma stable_verifyDefinitionIssue (i : CodeIssue) (context : VerificationContext) :
  stable g (IssueVerifier.verifyDefinitionIssue i context).
Proof.
  unfold IssueVerifier.verifyDefinitionIssue.
  destruct (IssueVerifier.extractIdentifier (message i)) as [name|]; [|apply stable_ret].
  destruct (existsb _ _); [apply stable_ret|].
  apply stable_bind; [apply stable_getFileContentWithContext|].
  intros [ext|]; [|apply stable_ret].
  destruct (existsb _ (lines ext)); [apply stable_ret|].
  destruct (existsb _ (imports ext)); apply stable_ret.
Qed.

Lemma stable_verifyIssue (i : CodeIssue) (context : VerificationContext) :
  stable g (IssueVerifier.verifyIssue i context).
Proof.
  unfold IssueVerifier.verifyIssue.
  apply stable_bind; [apply stable_emit, Hg; reflexivity|]. intros _.
  destruct (IssueVerifier.isImportIssue _); [apply stable_verifyImportIssue|].
  destruct (IssueVerifier.isDefinitionIssue _); [apply stable_verifyDefinitionIssue|].
  destruct (type i); apply stable_ret.
Qed.

Lemma stable_pRetry (req : ChatRequest) (n : nat) :
  stable g (LlmService.pRetry n (LlmService.attempt req)).
Proof.
  assert (Ha : stable g (LlmService.attempt req)).
  { unfold LlmService.attempt.
    apply stable_bind; [apply stable_call, Hg; reflexivity|].
    intros [|[[|c s]|]]; apply stable_ret. }
  induction n as [|n IH]; simpl; (apply stable_bind; [exact Ha|]);
    intros [text|]; try apply stable_ret. exact IH.
Qed.

Lemma stable_collectChunks (projectId : Z) (mr : MRDetails) (diffs : list GitLabDiff) :
  stable g (collectChunks projectId mr diffs).
Proof.
  unfold collectChunks. apply stable_forEach. intros d acc.
  unfold collectDiff. destruct (diff d); [apply stable_ret|].
  destruct (Js.orStr (new_path d) (old_path d)) eqn:Ep; [apply stable_ret|].
  apply stable_forEach. intros chunk acc'.
  apply stable_bind; [|intros c; apply stable_ret].
  unfold withContext. destruct (changedLines chunk); [apply stable_ret|].
  apply stable_bind; [apply stable_getFileContentWithContext|].
  intros [ctx|]; apply stable_ret.
Qed.

Lemma stable_verifyAll (projectId : Z) (mr : MRDetails) (chunk : DiffChunk)
      (found : list CodeIssue) :
  stable g (verifyAll projectId mr chunk found).
Proof.
  unfold verifyAll. apply stable_forEach. intros i acc.
  apply stable_bind; [apply stable_verifyIssue|]. intros v. apply stable_ret.
Qed.

Lemma stable_publish (projectId iid : Z) (mr : MRDetails) (chunk : DiffChunk)
      (verified : list CodeIssue) (all : list IssueWithFile) :
  stable g (publish projectId iid mr chunk verified all).
Proof.
  unfold publish. apply stable_forEach. intros i acc.
  apply stable_bind; [|intros _; apply stable_ret].
  destruct (postsInline (severity i)); [apply stable_postInlineComment|apply stable_ret].
Qed.

Lemma stable_batchedIssue (projectId iid : Z) (mr : MRDetails) (all : list DiffChunk)
      (i : IssueWithFile) (t : Tally) :
  stable g (batchedIssue projectId iid mr all i t).
Proof.
  unfold batchedIssue. destruct (find _ all) as [c|]; [|apply stable_ret].
  apply stable_bind; [apply stable_verifyIssue|]. intros v.
  destruct (isValid v); [|apply stable_ret].
  apply stable_bind; [|intros _; apply stable_ret].
  destruct (postsInline _); [apply stable_postInlineComment|apply stable_ret].
Qed.

End Offstage.

(** The two operations of the LLM service record their call and
    nothing else that is a call. *)
Lemma llmCalls_emit (e : Event) (st : St Env) :
  isLlmCall e = true -> llmCalls (snd (emit e st)) = llmCalls st ++ [e].
Proof.
  intros He. unfold llmCalls, emit. simpl. rewrite filter_app. simpl. now rewrite He.
Qed.

Lemma llmCalls_reviewChangedLines (chunk : DiffChunk) (st : St Env) :
  llmCalls (snd (LlmService.reviewChangedLines chunk st))
  = llmCalls st ++ [EvReviewChangedLines chunk].
Proof.
  unfold LlmService.reviewChangedLines. rewrite bind_run.
  rewrite <- (llmCalls_emit (EvReviewChangedLines chunk) st) by reflexivity.
  generalize (snd (emit (EvReviewChangedLines chunk) st)). intros st1.
  cbn [fst]. destruct (negb LlmService.isEnabled); [reflexivity|].
  apply (stable_bind llmCalls); [apply stable_pRetry, offstage_llmCalls|].
  intros [text|]; apply stable_ret.
Qed.

Lemma llmCalls_reviewMultipleChunks (chunks : list DiffChunk) (st : St Env) :
  llmCalls (snd (LlmService.reviewMultipleChunks chunks st))
  = llmCalls st ++ [EvReviewMultipleChunks chunks].
Proof.
  unfold LlmService.reviewMultipleChunks. rewrite bind_run.
  rewrite <- (llmCalls_emit (EvReviewMultipleChunks chunks) st) by reflexivity.
  generalize (snd (emit (EvReviewMultipleChunks chunks) st)). intros st1.
  cbn [fst]. destruct (negb LlmService.isEnabled); [reflexivity|].
  apply (stable_bind llmCalls); [apply stable_pRetry, offstage_llmCalls|].
  intros [text|]; apply stable_ret.
Qed.

Lemma llmCalls_reviewChunk (projectId iid : Z) (mr : MRDetails) (chunk : DiffChunk)
      (t : Tally) (st : St Env) :
  llmCalls (snd (reviewChunk projectId iid mr chunk t st))
  = llmCalls st ++ [EvReviewChangedLines chunk].
Proof.
  unfold reviewChunk. rewrite bind_run.
  rewrite <- llmCalls_reviewChangedLines.
  generalize (snd (LlmService.reviewChangedLines chunk st)).
  generalize (fst (LlmService.reviewChangedLines chunk st)). intros r st1.
  apply (stable_bind llmCalls); [apply stable_verifyAll, offstage_llmCalls|].
  intros verified.
  apply (stable_bind llmCalls); [apply stable_publish, offstage_llmCalls|].
  intros all. apply stable_ret.
Qed.

Lemma llmCalls_reviewIndividually (projectId iid : Z) (mr : MRDetails)
      (all : list DiffChunk) :
  forall (t : Tally) (st : St Env),
    llmCalls (snd (reviewIndividually projectId iid mr all t st))
    = llmCalls st ++ map EvReviewChangedLines all.
Proof.
  unfold reviewIndividually.
  induction all as [|chunk all IH]; intros t st; simpl.
  - now rewrite app_nil_r.
  - rewrite bind_run, IH, llmCalls_reviewChunk, <- app_assoc. reflexivity.
Qed.

Lemma llmCalls_reviewBatched (projectId iid : Z) (mr : MRDetails) (all : list DiffChunk)
      (t : Tally) (st : St Env) :
  llmCalls (snd (reviewBatched projectId iid mr all t st))
  = llmCalls st ++ [EvReviewMultipleChunks all].
Proof.
  unfold reviewBatched. rewrite bind_run.
  rewrite <- llmCalls_reviewMultipleChunks.
  generalize (snd (LlmService.reviewMultipleChunks all st)).
  generalize (fst (LlmService.reviewMultipleChunks all st)). intros r st1.
  apply (stable_forEach llmCalls). intros i t'.
  apply stable_batchedIssue, offstage_llmCalls.
Qed.

Lemma shouldBatch_spec (all : list DiffChunk) :
  shouldBatch all = true
  <-> (totalChangedLines all <= 500)%nat /\ (1 < List.length all)%nat.
Proof.
  unfold shouldBatch. rewrite andb_true_iff, Nat.leb_le, Nat.ltb_lt. tauto.
Qed.

(** The total over the chunks, as a sum. *)
Lemma totalChangedLines_sum (all : list DiffChunk) :
  totalChangedLines all = list_sum (map (fun c => additions c + deletions c)%nat all).
Proof.
  unfold totalChangedLines.
  assert (G : forall n, fold_left (fun sum chunk => sum + (additions chunk + deletions chunk))%nat
                          all n
                        = (n + list_sum (map (fun c => additions c + deletions c) all))%nat).
  { induction all as [|c all IH]; intros n; simpl; [lia|]. rewrite IH. lia. }
  apply G.
Qed.

(** The calls that STEP 2 and STEP 3 make. *)
Lemma llmCalls_reviewChunks (projectId iid : Z) (mr : MRDetails) (all : list DiffChunk)
      (st : St Env) :
  llmCalls (snd (reviewChunks projectId iid mr all st))
  = llmCalls st ++ (if shouldBatch all then [EvReviewMultipleChunks all]
                    else map EvReviewChangedLines all).
Proof.
  unfold reviewChunks. destruct (shouldBatch all).
  - apply llmCalls_reviewBatched.
  - apply llmCalls_reviewIndividually.
Qed.

(** *** Issues without a chunk *)

Lemma find_hasChunk (all : list DiffChunk) (path : string) :
  hasChunk all path = false ->
  find (fun c => String.eqb (filename c) path) all = None.
Proof.
  unfold hasChunk. induction all as [|c all IH]; simpl; [reflexivity|].
  destruct (String.eqb (filename c) path); simpl; [discriminate|exact IH].
Qed.

Lemma find_chunk (all : list DiffChunk) (path : string) (c : DiffChunk) :
  find (fun c => String.eqb (filename c) path) all = Some c ->
  In c all /\ filename c = path.
Proof.
  intros Hf. apply find_some in Hf as [Hin He].
  split; [assumption|]. now apply String.eqb_eq.
Qed.

Lemma batchedIssue_skips (projectId iid : Z) (mr : MRDetails) (all : list DiffChunk)
      (i : IssueWithFile) (t : Tally) (st : St Env) :
  hasChunk all (file i) = false ->
  batchedIssue projectId iid mr all i t st = (t, st).
Proof.
  intros Hc. unfold batchedIssue. now rewrite (find_hasChunk all (file i) Hc).
Qed.

Lemma batchedIssue_retains (projectId iid : Z) (mr : MRDetails) (all : list DiffChunk)
      (i : IssueWithFile) (t : Tally) (st : St Env) :
  let t' := fst (batchedIssue projectId iid mr all i t st) in
  t' = t
  \/ (hasChunk all (file i) = true
      /\ t' = mkTally (allIssues t ++ [i])
                      (totalScore t - impact (severity (codeIssue i)))
                      (filesProcessed t)).
Proof.
  unfold batchedIssue.
  destruct (find _ all) as [c|] eqn:Hf; [|now left].
  rewrite bind_run. destruct (isValid _); [|now left].
  rewrite bind_run. right. split; [|reflexivity].
  apply find_some in Hf as [Hin He]. unfold hasChunk.
  apply existsb_exists. now exists c.
Qed.

(** *** The score and the retained issues *)

Lemma impact_spec (s : Severity) : impact s = specImpact s.
Proof. destruct s; reflexivity. Qed.

Lemma totalImpact_app (l l' : list IssueWithFile) :
  totalImpact (l ++ l') = (totalImpact l + totalImpact l')%Z.
Proof. induction l as [|i l IH]; simpl; [reflexivity|]. rewrite IH. lia. Qed.

Lemma scored_batchedIssue (projectId iid : Z) (mr : MRDetails) (all : list DiffChunk)
      (i : IssueWithFile) (t : Tally) (st : St Env) :
  scored t -> scored (fst (batchedIssue projectId iid mr all i t st)).
Proof.
  intros Ht.
  destruct (batchedIssue_retains projectId iid mr all i t st) as [-> | [_ ->]];
    [assumption|].
  unfold scored in *. cbn [totalScore allIssues].
  rewrite totalImpact_app, Ht, impact_spec.
  change (totalImpact [i]) with (specImpact (severity (codeIssue i)) + 0)%Z. lia.
Qed.

Lemma publish_result (projectId iid : Z) (mr : MRDetails) (chunk : DiffChunk)
      (verified : list CodeIssue) :
  forall (acc : list IssueWithFile) (st : St Env),
    fst (publish projectId iid mr chunk verified acc st)
    = acc ++ map (mkIssueWithFile (filename chunk)) verified.
Proof.
  unfold publish. induction verified as [|i verified IH]; intros acc st; simpl.
  - now rewrite app_nil_r.
  - rewrite !bind_run. cbn [ret fst snd]. rewrite IH, <- app_assoc. reflexivity.
Qed.

Lemma fold_impact (path : string) (verified : list CodeIssue) :
  forall score : Z,
    fold_left (fun score i => (score - impact (severity i))%Z) verified score
    = (score - totalImpact (map (mkIssueWithFile path) verified))%Z.
Proof.
  induction verified as [|i verified IH]; intros score; simpl; [lia|].
  rewrite IH, impact_spec. lia.
Qed.

Lemma scored_reviewChunk (projectId iid : Z) (mr : MRDetails) (chunk : DiffChunk)
      (t : Tally) (st : St Env) :
  scored t -> scored (fst (reviewChunk projectId iid mr chunk t st)).
Proof.
  intros Ht. unfold reviewChunk. rewrite !bind_run. cbn [ret fst snd].
  unfold scored in *. cbn [totalScore allIssues].
  rewrite publish_result, totalImpact_app, (fold_impact (filename chunk)), Ht. lia.
Qed.

Lemma scored_reviewChunks (projectId iid : Z) (mr : MRDetails) (all : list DiffChunk)
      (st : St Env) :
  scored (fst (reviewChunks projectId iid mr all st)).
Proof.
  unfold reviewChunks. destruct (shouldBatch all).
  - unfold reviewBatched. rewrite bind_run.
    apply forEach_invariant; [|reflexivity].
    intros i t st1. apply scored_batchedIssue.
  - unfold reviewIndividually.
    apply forEach_invariant; [|reflexivity].
    intros chunk t st1. apply scored_reviewChunk.
Qed.

(** *** The last two steps *)

Lemma updateReview_run (u : ReviewUpdate) (st : St Env) :
  updateReview u st
  = if fst (prisma_review_update u (env st))
    then (Some tt, mkSt (snd (prisma_review_update u (env st)))
                        (applyUpdate u (review st))
                        (trace st ++ [EvReviewUpdate u]))
    else (None, mkSt (snd (prisma_review_update u (env st))) (review st)
                     (trace st ++ [EvReviewUpdate u])).
Proof.
  unfold updateReview, bind, call.
  destruct (prisma_review_update u (env st)) as [[|] e]; reflexivity.
Qed.

Lemma updateReview_resolved (u : ReviewUpdate) (st st' : St Env) :
  updateReview u st = (Some tt, st') ->
  review st' = applyUpdate u (review st)
  /\ trace st' = trace st ++ [EvReviewUpdate u].
Proof.
  rewrite updateReview_run.
  destruct (fst (prisma_review_update u (env st))); intros E; [|discriminate].
  injection E as <-. split; reflexivity.
Qed.

Lemma updateReview_llmCalls (u : ReviewUpdate) : stable llmCalls (updateReview u).
Proof.
  intros st. rewrite updateReview_run.
  destruct (fst (prisma_review_update u (env st))); unfold llmCalls; simpl;
    rewrite filter_app; simpl; apply app_nil_r.
Qed.

Lemma postAndPersist_resolved (projectId iid : Z) (skipped : nat) (t : Tally)
      (st st' : St Env) :
  postAndPersist projectId iid skipped t st = (Some tt, st') ->
  exists body,
    formatSummaryComment (allIssues t) (totalScore t) skipped (filesProcessed t)
    = Some body
    /\ trace st' = trace st ++ [EvNote body;
                                 EvReviewUpdate (completed (allIssues t) (totalScore t))]
    /\ review st' = applyUpdate (completed (allIssues t) (totalScore t)) (review st).
Proof.
  unfold postAndPersist.
  destruct (formatSummaryComment _ _ _ _) as [body|]; [|discriminate].
  rewrite bind_run. unfold GitLabService.postMRComment, call.
  destruct (MergeRequestNotes_create projectId iid body (env st)) as [[|] e];
    cbn [fst snd]; [|discriminate].
  intros E. apply updateReview_resolved in E as [Er Et]. cbn [review trace] in *.
  exists body. split; [reflexivity|]. split; [|assumption].
  rewrite Et, <- app_assoc. reflexivity.
Qed.

Lemma postAndPersist_llmCalls (projectId iid : Z) (skipped : nat) (t : Tally) :
  stable llmCalls (postAndPersist projectId iid skipped t).
Proof.
  unfold postAndPersist.
  destruct (formatSummaryComment _ _ _ _) as [body|]; [|apply stable_ret].
  apply stable_bind; [apply stable_postMRComment, offstage_llmCalls|].
  intros [|]; [apply updateReview_llmCalls|apply stable_ret].
Qed.

(** *** The job *)

Lemma tryReview_reaches (projectId iid : Z) (st : St Env) (diffs : list GitLabDiff)
      (mr : MRDetails) (st3 : St Env) :
  reaches projectId iid st diffs mr st3 ->
  tryReview projectId iid st = reviewDiffs projectId iid mr diffs st3.
Proof.
  intros (He & Hd & st1 & st2 & H1 & H2 & H3).
  unfold tryReview, bindE.
  rewrite (bind_step _ _ st st1 (Some tt) H1).
  unfold LlmService.isEnabled. rewrite He. cbn [negb].
  rewrite (bind_step _ _ st1 st2 (Some diffs) H2).
  rewrite (bind_step _ _ st2 st3 (Some mr) H3).
  destruct diffs; [contradiction|reflexivity].
Qed.

Lemma handleReview_resolved (projectId iid : Z) (st st' : St Env) :
  handleReview projectId iid st = (Some tt, st') ->
  tryReview projectId iid st = (Some tt, st').
Proof.
  unfold handleReview. rewrite bind_run.
  destruct (tryReview projectId iid st) as [[[]|] st1]; cbn [fst snd ret].
  - now intros E.
  - rewrite bind_run. discriminate.
Qed.

Lemma handleReview_llmCalls (projectId iid : Z) (st : St Env) :
  llmCalls (snd (handleReview projectId iid st)) = llmCalls (snd (tryReview projectId iid st)).
Proof.
  unfold handleReview. rewrite bind_run.
  destruct (fst (tryReview projectId iid st)); [reflexivity|].
  rewrite bind_run. cbn [ret snd]. apply updateReview_llmCalls.
Qed.

(** What a job that resolves has done after the chunks were collected. *)
Lemma job_resolved (projectId iid : Z) (st : St Env) (diffs : list GitLabDiff)
      (mr : MRDetails) (st3 st' : St Env) :
  reaches projectId iid st diffs mr st3 ->
  handleReview projectId iid st = (Some tt, st') ->
  exists (t : Tally) (st5 : St Env) (body : string),
    scored t
    /\ formatSummaryComment (allIssues t) (totalScore t)
                            (List.length diffs - MAX_FILES) (filesProcessed t)
       = Some body
    /\ trace st' = trace st5 ++ [EvNote body;
                                  EvReviewUpdate (completed (allIssues t) (totalScore t))]
    /\ review st' = applyUpdate (completed (allIssues t) (totalScore t)) (review st5).
Proof.
  intros Hr Hh. apply handleReview_resolved in Hh.
  rewrite (tryReview_reaches _ _ _ _ _ _ Hr) in Hh.
  unfold reviewDiffs in Hh. rewrite !bind_run in Hh.
  match type of Hh with
  | postAndPersist _ _ _ (fst (reviewChunks ?p ?i ?m ?all ?s)) _ = _ =>
      pose proof (scored_reviewChunks p i m all s) as Hs;
      remember (reviewChunks p i m all s) as r eqn:Er
  end.
  destruct r as [t st5]. cbn [fst snd] in *.
  apply postAndPersist_resolved in Hh as (body & Hb & Ht & Hv).
  exists t, st5, body. repeat split; assumption.
Qed.

(** *** The summary *)

Lemma formatSummaryComment_score (issues : list IssueWithFile) (score : Z)
      (skipped processed : nat) (body : string) :
  formatSummaryComment issues score skipped processed = Some body ->
  exists before after, body = (before ++ scoreCell score ++ after)%string.
Proof.
  unfold formatSummaryComment.
  destruct (details issues) as [d|]; intros E; [|discriminate].
  apply (f_equal (fun o => match o with Some b => b | None => body end)) in E.
  cbv beta iota in E. rewrite <- E. unfold metrics.
  exists (metricsHead score). eexists.
  rewrite !append_assoc. reflexivity.
Qed.

(** *** The claims on the job *)


(** C2: with [total] the sum of additions and deletions over the
    collected chunks and [N] their number, a job issues exactly one call
    of the LLM service, [reviewMultipleChunks] on all the chunks, when
    [total <= 500] and [N > 1], and otherwise exactly one call of
    [reviewChangedLines] for each chunk, in their order. *)
Theorem batch_decision (projectId iid : Z) (st : St Env) (diffs : list GitLabDiff)
        (mr : MRDetails) (st3 : St Env) (all : list DiffChunk) (st4 : St Env) :
  reaches projectId iid st diffs mr st3 ->
  collectChunks projectId mr (Js.slice diffs 0 (Z.of_nat MAX_FILES)) st3 = (all, st4) ->
  let total := list_sum (map (fun c => additions c + deletions c)%nat all) in
  let N := List.length all in
  ((total <= 500)%nat /\ (1 < N)%nat ->
   llmCalls (snd (handleReview projectId iid st))
   = llmCalls st ++ [EvReviewMultipleChunks all])
  /\ (~ ((total <= 500)%nat /\ (1 < N)%nat) ->
      llmCalls (snd (handleReview projectId iid st))
      = llmCalls st ++ map EvReviewChangedLines all).
Proof.
  intros Hr Hc total N.
  assert (Hcalls : llmCalls (snd (handleReview projectId iid st))
                   = llmCalls st ++ (if shouldBatch all then [EvReviewMultipleChunks all]
                                     else map EvReviewChangedLines all)).
  { rewrite handleReview_llmCalls, (tryReview_reaches _ _ _ _ _ _ Hr).
    unfold reviewDiffs. rewrite (bind_step _ _ _ _ _ Hc), bind_run.
    rewrite postAndPersist_llmCalls, llmCalls_reviewChunks. f_equal.
    destruct Hr as (_ & _ & st1 & st2 & H1 & H2 & H3).
    pose proof (stable_collectChunks llmCalls offstage_llmCalls projectId mr
                  (Js.slice diffs 0 (Z.of_nat MAX_FILES)) st3) as E4.
    pose proof (stable_getMRDetails llmCalls offstage_llmCalls projectId iid st2) as E3.
    pose proof (stable_getMRDiffs llmCalls offstage_llmCalls projectId iid st1) as E2.
    pose proof (updateReview_llmCalls (statusOnly PROCESSING) st) as E1.
    rewrite Hc in E4. rewrite H3 in E3. rewrite H2 in E2. rewrite H1 in E1.
    cbn [snd] in *. congruence. }
  pose proof (shouldBatch_spec all) as Hb.
  rewrite totalChangedLines_sum in Hb. fold total N in Hb.
  split; intros Hd; rewrite Hcalls.
  - apply Hb in Hd. now rewrite Hd.
  - destruct (shouldBatch all); [|reflexivity].
    exfalso. apply Hd, Hb. reflexivity.
Qed.

(** C9: on the batched path an issue whose file is the name of no
    collected chunk is skipped: its turn of the loop leaves the tally
    (issues, score) and the whole state (no verification, no comment) as
    they were, the loop runs as if the issue had not been returned, and
    no such issue is among the retained ones. *)
Theorem unmatched_issue_skipped (projectId iid : Z) (mr : MRDetails)
        (all : list DiffChunk) :
  (forall i t (st : St Env),
      hasChunk all (file i) = false ->
      batchedIssue projectId iid mr all i t st = (t, st))
  /\ (forall issues t (st : St Env),
        forEach issues (batchedIssue projectId iid mr all) t st
        = forEach (filter (fun i => hasChunk all (file i)) issues)
                  (batchedIssue projectId iid mr all) t st)
  /\ (forall t (st : St Env) i,
        In i (allIssues (fst (reviewBatched projectId iid mr all t st))) ->
        In i (allIssues t) \/ hasChunk all (file i) = true).
Proof.
  split; [intros i t st; apply batchedIssue_skips|]. split.
  - intros issues. induction issues as [|i issues IH]; intros t st; [reflexivity|].
    cbn [filter]. destruct (hasChunk all (file i)) eqn:Hc.
    + cbn [forEach]. unfold bind.
      destruct (batchedIssue projectId iid mr all i t st) as [t1 st1]. apply IH.
    + cbn [forEach]. unfold bind.
      rewrite (batchedIssue_skips _ _ _ _ _ _ _ Hc). apply IH.
  - intros t st i. unfold reviewBatched. rewrite bind_run.
    apply (forEach_invariant
             (fun t' => In i (allIssues t') -> In i (allIssues t) \/ hasChunk all (file i) = true)).
    + intros j t1 st1 Ht1.
      destruct (batchedIssue_retains projectId iid mr all j t1 st1) as [-> | [Hj ->]];
        [assumption|].
      cbn [allIssues]. intros Hin. apply in_app_or in Hin as [Hin|[<-|[]]].
      * now apply Ht1.
      * now right.
    + cbn [allIssues]. now left.
Qed.

(** C10: the summary comment shows the score as it stands before the
    clamp: when the impacts of the retained issues sum to more than 100
    the posted summary carries a negative score, two stars, a minus
    sign, digits, [/100] and two stars, while the stored [qualityScore]
    is 0. *)
Theorem summary_score_unclamped (projectId iid : Z) (st : St Env)
        (diffs : list GitLabDiff) (mr : MRDetails) (st3 st' : St Env)
        (retained : list IssueWithFile) :
  reaches projectId iid st diffs mr st3 ->
  handleReview projectId iid st = (Some tt, st') ->
  reviewContent (review st') = contentIssues retained ->
  (100 < totalImpact retained)%Z ->
  exists body digits before after : string,
    In (EvNote body) (trace st')
    /\ Js.showZ (100 - totalImpact retained) = ("-" ++ digits)%string
    /\ body = (before ++ "**-" ++ digits ++ "/100**" ++ after)%string
    /\ qualityScore (review st') = Some 0%Z.
Proof.
  intros Hr Hh Hc Hi.
  destruct (job_resolved _ _ _ _ _ _ _ Hr Hh) as (t & st5 & body & Hs & Hb & Ht & Hv).
  rewrite Hv in Hc. cbn in Hc. injection Hc as <-.
  unfold scored in Hs.
  destruct (showZ_negative (100 - totalImpact (allIssues t))) as [digits Hd]; [lia|].
  destruct (formatSummaryComment_score _ _ _ _ _ Hb) as (before & after & Hbody).
  exists body, digits, before, after.
  split; [rewrite Ht; apply in_or_app; right; now left|].
  split; [assumption|].
  split.
  - rewrite Hbody. unfold scoreCell. rewrite Hs, Hd. cbn [append].
    now rewrite !append_assoc.
  - rewrite Hv. cbn. f_equal. lia.
Qed.

End ReviewProcessorFacts.

(** ** The scenarios *)

Lemma happy_reaches (st : St (list ChatOutcome)) :
  @reaches _ (Scripted.world Scripted.happy) 1 1 st Scripted.happyDiffs Scripted.sha1
           (Scripted.fetched Scripted.happy st).
Proof. reach. Qed.



(** In the first scenario (+8 -2 and +3 -1, 14 changed lines in 2
    chunks) the only call is the batched one. *)
Lemma batch_decision_happy :
  llmCalls (snd (Scripted.handle Scripted.happy Scripted.happyStart))
  = llmCalls Scripted.happyStart
      ++ [EvReviewMultipleChunks
            (fst (Scripted.collected Scripted.happy Scripted.happyDiffs Scripted.happyStart))].
Proof.
  apply (proj1 (@batch_decision _ (Scripted.world Scripted.happy) 1%Z 1%Z
                  Scripted.happyStart Scripted.happyDiffs Scripted.sha1
                  (Scripted.fetched Scripted.happy Scripted.happyStart)
                  (fst (Scripted.collected Scripted.happy Scripted.happyDiffs
                          Scripted.happyStart))
                  (snd (Scripted.collected Scripted.happy Scripted.happyDiffs
                          Scripted.happyStart))
                  (happy_reaches Scripted.happyStart)
                  (surjective_pairing _))).
  vm_compute. split; lia.
Defined.

(** Seven critical issues: the summary shows -5/100 and 0 is stored. *)
Lemma summary_score_unclamped_flood :
  exists body digits before after : string,
    In (EvNote body) (trace (snd (Scripted.handle Scripted.happy Scripted.floodStart)))
    /\ Js.showZ (100 - totalImpact Scripted.retainedFlood) = ("-" ++ digits)%string
    /\ body = (before ++ "**-" ++ digits ++ "/100**" ++ after)%string
    /\ qualityScore (review (snd (Scripted.handle Scripted.happy Scripted.floodStart)))
       = Some 0%Z.
Proof.
  apply (@summary_score_unclamped _ (Scripted.world Scripted.happy) 1%Z 1%Z
           Scripted.floodStart Scripted.happyDiffs Scripted.sha1
           (Scripted.fetched Scripted.happy Scripted.floodStart)).
  - apply happy_reaches.
  - vm_compute. reflexivity.
  - vm_compute. reflexivity.
  - vm_compute. reflexivity.
Defined.

(* ================================================================== *)
(** * Further properties of the services *)
(* ================================================================== *)

(** ** Diff processor: what a chunk holds *)

Section ChunkFacts.
Import DiffProcessor.

Lemma isContextLine_space (x : string) : isContextLine (" " ++ x) = true.
Proof. unfold isContextLine. simpl. now destruct x. Qed.

Lemma changed_pushContext (x : string) (j : nat) (a : Acc) :
  filter (fun s => negb (isContextLine s)) (result (pushLine (" " ++ x) j a))
  = filter (fun s => negb (isContextLine s)) (result a).
Proof.
  cbn [pushLine result]. rewrite filter_app. cbn [filter].
  rewrite isContextLine_space. cbn [negb]. apply app_nil_r.
Qed.

Lemma changed_contextBefore (lines : list Change) (js : list nat) (a : Acc) :
  filter (fun s => negb (isContextLine s)) (result (contextBefore lines js a))
  = filter (fun s => negb (isContextLine s)) (result a).
Proof.
  revert a. induction js as [|j js IH]; intros a; simpl; [reflexivity|].
  destruct (nth_error lines j) as [l|]; [|apply IH].
  destruct (negb (has j a) && _); [|apply IH].
  rewrite IH. apply changed_pushContext.
Qed.

Lemma changed_contextAfter (lines : list Change) (js : list nat) (a : Acc) :
  filter (fun s => negb (isContextLine s)) (result (contextAfter lines js a))
  = filter (fun s => negb (isContextLine s)) (result a).
Proof.
  revert a. induction js as [|j js IH]; intros a; simpl; [reflexivity|].
  destruct (has j a); [apply IH|].
  destruct (nth_error lines j) as [l|]; [|apply IH].
  destruct (ctype l); try reflexivity.
  rewrite IH. apply changed_pushContext.
Qed.

Lemma changed_step (lines : list Change) (C i : nat) (l : Change) (a : Acc) :
  filter (fun s => negb (isContextLine s)) (result (step lines C i l a))
  = filter (fun s => negb (isContextLine s)) (result a)
    ++ (if isChange l then [rendered l] else []).
Proof.
  unfold step, isChange, isAdd, isDel, rendered. destruct (ctype l); cbn [orb].
  - now rewrite app_nil_r.
  - rewrite changed_contextAfter. cbn [result pushLine].
    rewrite filter_app, changed_contextBefore. reflexivity.
  - cbn [result pushLine]. rewrite filter_app. reflexivity.
Qed.

Lemma changed_walk (lines : list Change) (C : nat) (rest : list Change) :
  forall (i : nat) (a : Acc),
    filter (fun s => negb (isContextLine s)) (result (walk lines C i rest a))
    = filter (fun s => negb (isContextLine s)) (result a)
      ++ map rendered (filter isChange rest).
Proof.
  induction rest as [|l rest IH]; intros i a; simpl.
  - now rewrite app_nil_r.
  - rewrite IH, changed_step, <- app_assoc. now destruct (isChange l).
Qed.

(** X1: the lines that [processChunk] assembles, once the context lines
    (those that start with a space) are dropped, are the additions and
    the deletions of the hunk in their order, each after its sign;
    whatever the width of the context. *)
Theorem assembled_changes (changes : list Change) (C : nat) :
  filter (fun s => negb (isContextLine s)) (assembled changes C)
  = map rendered (filter isChange changes).
Proof. unfold assembled. now rewrite changed_walk. Qed.

(** *** No line twice *)

Lemma has_In (j : nat) (a : Acc) : has j a = true <-> In j (addedIndices a).
Proof.
  unfold has. rewrite existsb_exists. split.
  - intros [x [Hx E]]. apply Nat.eqb_eq in E. now subst.
  - intros Hj. exists j. split; [assumption|apply Nat.eqb_refl].
Qed.

Lemma tracked_pushLine (lines : list Change) (i j : nat) (text : string) (a : Acc) :
  tracked lines i a ->
  ~ In j (addedIndices a) ->
  (j < List.length lines)%nat ->
  ((j < i)%nat \/ exists l, nth_error lines j = Some l /\ ctype l = normal) ->
  tracked lines i (pushLine text j a).
Proof.
  intros (Hn & Hl & Hi) Hj Hlt Hk. unfold tracked. cbn [pushLine addedIndices result].
  split; [now constructor|].
  split; [rewrite length_app, Hl; simpl; lia|].
  intros k [<-|Hin]; [now split|now apply Hi].
Qed.

Lemma tracked_contextBefore (lines : list Change) (i : nat) (js : list nat) (a : Acc) :
  tracked lines i a -> tracked lines i (contextBefore lines js a).
Proof.
  revert a. induction js as [|j js IH]; intros a Ha; simpl; [assumption|].
  destruct (nth_error lines j) as [l|] eqn:El; [|now apply IH].
  destruct (has j a) eqn:Hh; cbn [negb andb]; [now apply IH|].
  destruct (ctype l) eqn:Et; [|now apply IH|now apply IH].
  apply IH, tracked_pushLine; [assumption| | |].
  - intros Hin. apply has_In in Hin. congruence.
  - apply nth_error_Some. congruence.
  - right. now exists l.
Qed.

Lemma tracked_contextAfter (lines : list Change) (i : nat) (js : list nat) (a : Acc) :
  tracked lines i a -> tracked lines i (contextAfter lines js a).
Proof.
  revert a. induction js as [|j js IH]; intros a Ha; simpl; [assumption|].
  destruct (has j a) eqn:Hh; [now apply IH|].
  destruct (nth_error lines j) as [l|] eqn:El; [|now apply IH].
  destruct (ctype l) eqn:Et; [|assumption|assumption].
  apply IH, tracked_pushLine; [assumption| | |].
  - intros Hin. apply has_In in Hin. congruence.
  - apply nth_error_Some. congruence.
  - right. now exists l.
Qed.

Lemma tracked_counters (lines : list Change) (i : nat) (a : Acc)
      (cl : list Z) (n m : nat) (b : bool) :
  tracked lines i a ->
  tracked lines i (mkAcc (result a) cl n m b (addedIndices a)).
Proof. intros Ha. exact Ha. Qed.

Lemma tracked_next (lines : list Change) (i : nat) (a : Acc) :
  tracked lines i a -> tracked lines (S i) a.
Proof.
  intros (Hn & Hl & Hi). split; [assumption|]. split; [assumption|].
  intros j Hj. destruct (Hi j Hj) as [Hlt [Hk|Hk]]; split; auto.
Qed.

Lemma tracked_fresh (lines : list Change) (i : nat) (l : Change) (a : Acc) :
  tracked lines i a ->
  nth_error lines i = Some l ->
  ctype l <> normal ->
  ~ In i (addedIndices a).
Proof.
  intros (_ & _ & Hi) El Ht Hin.
  destruct (Hi i Hin) as [_ [Hlt|[l' [El' Ht']]]]; [lia|congruence].
Qed.

Lemma tracked_step (lines : list Change) (C i : nat) (l : Change) (a : Acc) :
  nth_error lines i = Some l ->
  tracked lines i a ->
  tracked lines (S i) (step lines C i l a).
Proof.
  intros El Ha. unfold step.
  assert (Hlt : (i < List.length lines)%nat) by (apply nth_error_Some; congruence).
  destruct (ctype l) eqn:Et.
  - now apply tracked_next.
  - apply tracked_contextAfter.
    match goal with
    | |- tracked _ _ (pushLine _ _ (contextBefore ?ls ?js ?a1)) =>
        assert (H1 : tracked lines i (contextBefore ls js a1))
          by (apply tracked_contextBefore, tracked_counters, Ha)
    end.
    apply tracked_pushLine; [now apply tracked_next| |exact Hlt|left; lia].
    apply (tracked_fresh lines i l); [assumption|assumption|congruence].
  - apply tracked_pushLine; [now apply tracked_next, tracked_counters| |exact Hlt|left; lia].
    apply (tracked_fresh lines i l); [apply tracked_counters, Ha|assumption|congruence].
Qed.

Lemma tracked_walk (C : nat) (rest : list Change) :
  forall (pre : list Change) (a : Acc),
    tracked (pre ++ rest) (List.length pre) a ->
    tracked (pre ++ rest) (List.length (pre ++ rest))
            (walk (pre ++ rest) C (List.length pre) rest a).
Proof.
  induction rest as [|l rest IH]; intros pre a Ha; simpl.
  - now rewrite app_nil_r in *.
  - assert (E : pre ++ l :: rest = (pre ++ [l]) ++ rest) by now rewrite <- app_assoc.
    assert (El : nth_error (pre ++ l :: rest) (List.length pre) = Some l).
    { rewrite nth_error_app2 by lia. now rewrite Nat.sub_diag. }
    pose proof (tracked_step _ C _ _ _ El Ha) as Hs.
    rewrite E in *.
    replace (S (List.length pre)) with (List.length (pre ++ [l])) in *
      by (rewrite length_app; simpl; lia).
    now apply IH.
Qed.

Lemma tracked_initial (lines : list Change) : tracked lines 0 initial.
Proof.
  split; [constructor|]. split; [reflexivity|]. intros j [].
Qed.

(** X2: the set [addedIndices] does its work: no line of a hunk is
    assembled twice, so that the assembled text never has more lines
    than the hunk, however wide and overlapping the contexts of its
    additions are. *)
Theorem assembled_bound (changes : list Change) (C : nat) :
  (List.length (assembled changes C) <= List.length changes)%nat.
Proof.
  destruct (tracked_walk C changes [] initial (tracked_initial _)) as (Hn & Hl & Hi).
  unfold assembled. cbn [app List.length] in *. rewrite Hl.
  rewrite <- (length_seq (List.length changes) 0).
  apply NoDup_incl_length; [assumption|].
  intros j Hj. apply in_seq. destruct (Hi j Hj) as [Hlt _]. lia.
Qed.

(** *** The counters *)

Lemma counters_contextBefore (lines : list Change) (js : list nat) (a : Acc) :
  accAdditions (contextBefore lines js a) = accAdditions a
  /\ accDeletions (contextBefore lines js a) = accDeletions a
  /\ hasChanges (contextBefore lines js a) = hasChanges a.
Proof.
  revert a. induction js as [|j js IH]; intros a; cbn [contextBefore]; [now repeat split|].
  destruct (nth_error lines j) as [l|]; [|apply IH].
  destruct (negb (has j a) && _); [|apply IH].
  destruct (IH (pushLine (" " ++ contentOrEmpty l) j a)) as (H1 & H2 & H3).
  now rewrite H1, H2, H3.
Qed.

Lemma counters_contextAfter (lines : list Change) (js : list nat) (a : Acc) :
  accAdditions (contextAfter lines js a) = accAdditions a
  /\ accDeletions (contextAfter lines js a) = accDeletions a
  /\ hasChanges (contextAfter lines js a) = hasChanges a.
Proof.
  revert a. induction js as [|j js IH]; intros a; cbn [contextAfter]; [now repeat split|].
  destruct (has j a); [apply IH|].
  destruct (nth_error lines j) as [l|]; [|apply IH].
  destruct (ctype l); try now repeat split.
  destruct (IH (pushLine (" " ++ contentOrEmpty l) j a)) as (H1 & H2 & H3).
  now rewrite H1, H2, H3.
Qed.

Lemma counters_step (lines : list Change) (C i : nat) (l : Change) (a : Acc) :
  accAdditions (step lines C i l a) = (accAdditions a + (if isAdd l then 1 else 0))%nat
  /\ accDeletions (step lines C i l a) = (accDeletions a + (if isDel l then 1 else 0))%nat
  /\ hasChanges (step lines C i l a) = (hasChanges a || isChange l)%bool.
Proof.
  unfold step, isChange, isAdd, isDel. destruct (ctype l); cbn [orb].
  - rewrite !Nat.add_0_r, orb_false_r. now repeat split.
  - match goal with
    | |- context [contextAfter ?ls ?js (pushLine ?t ?j (contextBefore ?ls' ?js' ?a1))] =>
        destruct (counters_contextAfter ls js (pushLine t j (contextBefore ls' js' a1)))
          as (H1 & H2 & H3);
        destruct (counters_contextBefore ls' js' a1) as (H4 & H5 & H6)
    end.
    rewrite H1, H2, H3. cbn [pushLine accAdditions accDeletions hasChanges].
    rewrite H4, H5, H6. cbn [accAdditions accDeletions hasChanges].
    rewrite orb_true_r. repeat split; lia.
  - cbn [pushLine accAdditions accDeletions hasChanges].
    rewrite orb_true_r. repeat split; lia.
Qed.

Lemma counters_walk (lines : list Change) (C : nat) (rest : list Change) :
  forall (i : nat) (a : Acc),
    accAdditions (walk lines C i rest a)
    = (accAdditions a + List.length (filter isAdd rest))%nat
    /\ accDeletions (walk lines C i rest a)
       = (accDeletions a + List.length (filter isDel rest))%nat
    /\ hasChanges (walk lines C i rest a) = (hasChanges a || existsb isChange rest)%bool.
Proof.
  induction rest as [|l rest IH]; intros i a; simpl.
  - rewrite !Nat.add_0_r, orb_false_r. now repeat split.
  - destruct (IH (S i) (step lines C i l a)) as (H1 & H2 & H3).
    destruct (counters_step lines C i l a) as (H4 & H5 & H6).
    rewrite H1, H2, H3, H4, H5, H6, orb_assoc.
    destruct (isAdd l), (isDel l); simpl; repeat split; lia.
Qed.

Lemma existsb_isChange (changes : list Change) :
  existsb isChange changes = true ->
  (1 <= List.length (filter isAdd changes) + List.length (filter isDel changes))%nat.
Proof.
  induction changes as [|l changes IH]; simpl; [discriminate|].
  unfold isChange at 1. destruct (isAdd l), (isDel l); simpl; try lia.
  exact IH.
Qed.

Context {Env : Type} `{World Env}.

(** X3: a chunk that [extractChangedLinesWithContext] emits comes from
    a hunk of a file that is neither binary nor deleted; it counts the
    additions and the deletions of that hunk, lists one line number for
    each addition, and holds at least one change: a hunk of context
    only gives no chunk. *)
Theorem emitted_counts (diffText : string) (C : nat) (c : DiffChunk) :
  In c (extractChangedLinesWithContext diffText C) ->
  exists (files : list ParsedFile) (f : ParsedFile) (changes : list Change),
    parseDiff diffText = Some files /\ In f files /\ In changes (chunks f)
    /\ binary f = false /\ deleted f = false
    /\ additions c = List.length (filter isAdd changes)
    /\ deletions c = List.length (filter isDel changes)
    /\ List.length (changedLines c) = additions c
    /\ (1 <= additions c + deletions c)%nat.
Proof.
  unfold extractChangedLinesWithContext.
  destruct (parseDiff diffText) as [files|]; [|contradiction].
  intros Hc. apply in_flat_map in Hc as [f [Hf Hc]].
  unfold chunksOfFile in Hc.
  destruct (binary f) eqn:Eb; [contradiction|].
  destruct (deleted f) eqn:Ed; [contradiction|].
  apply in_flat_map in Hc as [changes [Hch Hc]].
  unfold chunkOf in Hc.
  destruct (pHasChanges (processChunk changes C)) eqn:Eh; [|contradiction].
  destruct Hc as [<-|[]].
  destruct (counters_walk changes C changes 0 initial) as (H1 & H2 & H3).
  unfold processChunk in *. cbn [pHasChanges] in Eh.
  cbn [additions deletions changedLines pAdditions pDeletions pChangedLines].
  rewrite H3 in Eh. cbn [initial hasChanges orb] in Eh.
  rewrite H1, H2, walk_changedLines. cbn [initial accAdditions accDeletions accChangedLines app plus].
  exists files, f, changes.
  repeat (split; [first [reflexivity|assumption]|]).
  split; [now rewrite length_map|].
  now apply existsb_isChange.
Qed.

End ChunkFacts.

(** The chunk of [main.ts] in the first scenario: three additions and
    one deletion. *)
Lemma emitted_counts_main :
  exists (files : list ParsedFile) (f : ParsedFile) (changes : list Change),
    @parseDiff _ (Scripted.world Scripted.happy) "@@ main" = Some files
    /\ In f files /\ In changes (chunks f)
    /\ 3%nat = List.length (filter DiffProcessor.isAdd changes)
    /\ 1%nat = List.length (filter isDel changes).
Proof.
  destruct (@emitted_counts _ (Scripted.world Scripted.happy) "@@ main" 10
              (mkDiffChunk "main.ts" "typescript"
                 (DiffProcessor.pContent
                    (DiffProcessor.processChunk Scripted.mainChanges 10))
                 3 1 [3; 4; 5]%Z None None))
    as (files & f & changes & Hp & Hf & Hc & _ & _ & Ha & Hd & _).
  - vm_compute. now left.
  - exists files, f, changes. now repeat split.
Defined.

(** ** GitLab service: imports and context *)

Section ImportFacts.
Import GitLabService.

Lemma scanImports_prefix (pattern : Pattern) (visited : list string) :
  forall (n : nat) (acc found : list string),
    scanImports pattern visited n acc = Some found ->
    exists new rest,
      found = acc ++ new
      /\ filter (isImportLine pattern) visited = new ++ rest
      /\ ((n + List.length (filter (isOtherCode pattern) visited) < 3)%nat -> rest = []).
Proof.
  induction visited as [|raw visited IH]; intros n acc found; cbn [scanImports].
  - intros E. injection E as <-. exists [], []. rewrite app_nil_r. now repeat split.
  - cbn [filter]. destruct (isBlankOrComment (Js.trim raw)) eqn:Eb.
    + assert (Hi : isImportLine pattern raw = false)
        by (unfold isImportLine, isCodeLine; rewrite Eb; now destruct pattern).
      assert (Ho : isOtherCode pattern raw = false)
        by (unfold isOtherCode, isCodeLine; now rewrite Eb).
      rewrite Hi, Ho. apply IH.
    + destruct pattern as [r|]; [|discriminate].
      destruct (Re.test r (Js.trim raw)) eqn:Et.
      * assert (Hi : isImportLine (isRegExp r) raw = true)
          by (unfold isImportLine, isCodeLine; now rewrite Eb, Et).
        assert (Ho : isOtherCode (isRegExp r) raw = false)
          by (unfold isOtherCode; rewrite Hi; apply andb_false_r).
        rewrite Hi, Ho.
        intros E. apply IH in E as (new & rest & -> & Hf & Hr).
        exists (raw :: new), rest. rewrite <- app_assoc.
        split; [reflexivity|]. split; [cbn [app]; now rewrite Hf|].
        intros Hlt. apply Hr. lia.
      * assert (Hi : isImportLine (isRegExp r) raw = false)
          by (unfold isImportLine, isCodeLine; rewrite Eb, Et; reflexivity).
        assert (Ho : isOtherCode (isRegExp r) raw = true)
          by (unfold isOtherCode; rewrite Hi; unfold isCodeLine; now rewrite Eb).
        rewrite Hi, Ho. cbn [List.length].
        destruct (3 <=? S n)%nat eqn:E3.
        -- intros E. injection E as <-.
           exists [], (filter (isImportLine (isRegExp r)) visited).
           rewrite app_nil_r. split; [reflexivity|]. split; [reflexivity|].
           apply Nat.leb_le in E3. lia.
        -- intros E. apply IH in E as (new & rest & -> & Hf & Hr).
           exists new, rest. split; [reflexivity|]. split; [assumption|].
           intros Hlt. apply Hr. lia.
Qed.

Lemma firstn_min {A} (l : list A) (k : nat) :
  firstn (Nat.min (List.length l) k) l = firstn k l.
Proof.
  destruct (Nat.le_ge_cases (List.length l) k).
  - rewrite Nat.min_l by assumption. now rewrite !firstn_all2 by lia.
  - now rewrite Nat.min_r.
Qed.

(** X4: the imports that [extractImports] returns are the import lines
    (code lines that the pattern of the language matches) among the
    first 50 lines of the file, in their order and as they were
    written, up to the line at which the scan stopped; they are all of
    them when fewer than three other code lines stand among these 50
    lines. *)
Theorem extractImports_prefix (lines : list string) (path : string)
        (found : list string) :
  extractImports lines path = Some found ->
  (exists rest,
      filter (isImportLine (patternOf path)) (firstn 50 lines) = found ++ rest)
  /\ ((List.length (filter (isOtherCode (patternOf path)) (firstn 50 lines)) < 3)%nat ->
      found = filter (isImportLine (patternOf path)) (firstn 50 lines)).
Proof.
  unfold extractImports. rewrite firstn_min. fold (patternOf path). intros E.
  apply scanImports_prefix in E as (new & rest & -> & Hf & Hr). cbn [app].
  split; [now exists rest|].
  intros Hlt. rewrite Hf, (Hr Hlt). now rewrite app_nil_r.
Qed.

Lemma scanImports_stops (pattern : Pattern) (a b c : string) (post : list string) :
  isOtherCode pattern a = true ->
  isOtherCode pattern b = true ->
  isOtherCode pattern c = true ->
  forall (pre : list string) (n : nat) (acc : list string),
    scanImports pattern (pre ++ a :: b :: c :: post) n acc
    = scanImports pattern (pre ++ [a; b; c]) n acc.
Proof.
  unfold isOtherCode, isImportLine, isCodeLine. intros Ha Hb Hc.
  assert (Hthree : forall n acc tail,
             scanImports pattern (a :: b :: c :: tail) n acc
             = scanImports pattern [a; b; c] n acc).
  { intros n acc tail. cbn [scanImports].
    destruct (isBlankOrComment (Js.trim a)); [discriminate|].
    destruct (isBlankOrComment (Js.trim b)); [discriminate|].
    destruct (isBlankOrComment (Js.trim c)); [discriminate|].
    destruct pattern as [r|]; [|reflexivity]. cbn [negb andb] in *.
    destruct (Re.test r (Js.trim a)); [discriminate|].
    destruct (Re.test r (Js.trim b)); [discriminate|].
    destruct (Re.test r (Js.trim c)); [discriminate|].
    destruct n as [|[|n]]; reflexivity. }
  induction pre as [|raw pre IH]; intros n acc; [apply Hthree|].
  cbn [app scanImports].
  destruct (isBlankOrComment (Js.trim raw)); [apply IH|].
  destruct pattern as [r|]; [|reflexivity].
  destruct (Re.test r (Js.trim raw)); [apply IH|].
  destruct (3 <=? S n)%nat; [reflexivity|apply IH].
Qed.

(** X5: the scan of [extractImports] stops for good at the third of
    three code lines in a row that are not imports: whatever follows
    them, imports included, changes nothing to the result. *)
Theorem extractImports_stops (pre post : list string) (a b c : string) (path : string) :
  isOtherCode (patternOf path) a = true ->
  isOtherCode (patternOf path) b = true ->
  isOtherCode (patternOf path) c = true ->
  extractImports (pre ++ a :: b :: c :: post) path
  = extractImports (pre ++ [a; b; c]) path.
Proof.
  intros Ha Hb Hc. unfold extractImports. rewrite !firstn_min. fold (patternOf path).
  change (pre ++ a :: b :: c :: post) with (pre ++ [a; b; c] ++ post).
  rewrite app_assoc, firstn_app.
  destruct (Nat.le_ge_cases 50 (List.length (pre ++ [a; b; c]))) as [Hl|Hl].
  - replace (50 - List.length (pre ++ [a; b; c]))%nat with 0%nat by lia.
    cbn [firstn]. now rewrite app_nil_r.
  - rewrite !(firstn_all2 (pre ++ [a; b; c])) by assumption.
    rewrite <- app_assoc. cbn [app].
    now apply scanImports_stops.
Qed.

End ImportFacts.

(** In a TypeScript file, an import that follows three statements is
    not seen. *)
Lemma extractImports_stops_late_import :
  GitLabService.extractImports
    (["import a from 'a'"] ++ "const x = 1;" :: "const y = 2;" :: "run(x, y);"
       :: ["import b from 'b'"]) "src/a.ts"
  = GitLabService.extractImports
      (["import a from 'a'"] ++ ["const x = 1;"; "const y = 2;"; "run(x, y);"]) "src/a.ts".
Proof. apply extractImports_stops; reflexivity. Defined.

(** The imports of a TypeScript file with one statement between them. *)
Lemma extractImports_prefix_two :
  (exists rest,
      filter (isImportLine (patternOf "src/a.ts"))
             (firstn 50 ["import a from 'a'"; ""; "const x = 1;"; "  import b from 'b'"])
      = ["import a from 'a'"; "  import b from 'b'"] ++ rest)
  /\ ((List.length (filter (isOtherCode (patternOf "src/a.ts"))
                     (firstn 50 ["import a from 'a'"; ""; "const x = 1;";
                                 "  import b from 'b'"])) < 3)%nat ->
      ["import a from 'a'"; "  import b from 'b'"]
      = filter (isImportLine (patternOf "src/a.ts"))
               (firstn 50 ["import a from 'a'"; ""; "const x = 1;"; "  import b from 'b'"])).
Proof. apply extractImports_prefix. reflexivity. Defined.

Section ContextFacts.
Import GitLabService.
Context {Env : Type} `{World Env}.

Lemma call_run {A} (e : Event) (op : Env -> A * Env) (st : St Env) :
  call e op st
  = (fst (op (env st)), mkSt (snd (op (env st))) (review st) (trace st ++ [e])).
Proof. unfold call. now destruct (op (env st)). Qed.

Lemma slice_nth {A} (l : list A) (a b : Z) (k : nat) (d : A) :
  (0 <= a <= b)%Z -> (b <= Z.of_nat (List.length l))%Z ->
  (Z.of_nat k < b - a)%Z ->
  nth k (Js.slice l a b) d = nth (Z.to_nat a + k) l d.
Proof.
  intros Hab Hb Hk. unfold Js.slice.
  rewrite !sliceIndex_inside by lia.
  rewrite nth_firstn, nth_skipn.
  destruct (k <? Z.to_nat (b - a))%nat eqn:E; [reflexivity|].
  apply Nat.ltb_ge in E. lia.
Qed.

Lemma contextOf_snippet (text path : string) (lineNumber contextLines : Z)
      (ctx : FileContentWithContext) (issueLine : Z) :
  contextOf text path lineNumber contextLines = Some ctx ->
  (startLineNumber ctx <= issueLine <= endLineNumber ctx)%Z ->
  ReviewProcessor.codeSnippetOf (Some ctx) issueLine
  = nth (Z.to_nat (issueLine - 1)) (Js.split text DiffProcessor.newline) EmptyString.
Proof.
  unfold contextOf. fold DiffProcessor.newline. intros Hc Hl.
  destruct (extractImports _ path) as [imps|]; [|discriminate].
  injection Hc as <-. cbn [startLineNumber endLineNumber] in Hl.
  unfold ReviewProcessor.codeSnippetOf. cbn [startLineNumber lines].
  set (all := Js.split text DiffProcessor.newline) in *.
  set (from := Z.max 0 (lineNumber - contextLines - 1)) in *.
  set (to := Z.min (Z.of_nat (List.length all)) (lineNumber + contextLines)) in *.
  assert (Hlen : Z.of_nat (List.length (Js.slice all from to)) = (to - from)%Z)
    by (apply slice_length; lia).
  rewrite Hlen.
  replace (0 <=? issueLine - (from + 1))%Z with true by (symmetry; apply Z.leb_le; lia).
  replace (issueLine - (from + 1) <? to - from)%Z with true
    by (symmetry; apply Z.ltb_lt; lia).
  cbn [andb]. rewrite slice_nth by lia. f_equal. lia.
Qed.

(** X6: the code that an inline comment quotes is the line of the file
    that the issue points at.  When the file was fetched and the line of
    the issue lies within the bounds of the context that
    [getFileContentWithContext] returned (and is a line number, from 1
    on), the snippet computed from that context is that very line of
    the fetched text. *)
Theorem snippet_is_line (projectId : Z) (path ref text : string)
        (lineNumber contextLines : Z) (st : St Env)
        (ctx : FileContentWithContext) (issueLine : Z) :
  fst (RepositoryFiles_show projectId path ref (env st)) = Some text ->
  fst (getFileContentWithContext projectId path ref lineNumber contextLines st)
  = Some ctx ->
  (1 <= issueLine)%Z ->
  (startLineNumber ctx <= issueLine <= endLineNumber ctx)%Z ->
  ReviewProcessor.codeSnippetOf (Some ctx) issueLine
  = nth (Z.to_nat (issueLine - 1)) (Js.split text DiffProcessor.newline) EmptyString.
Proof.
  unfold getFileContentWithContext. rewrite bind_run, call_run. cbn [fst snd].
  intros -> Hc H1 Hl.
  destruct (contextOf text path lineNumber contextLines) as [c|] eqn:Ec;
    cbn [ret fst] in Hc; injection Hc as <-.
  - now apply (contextOf_snippet text path lineNumber contextLines).
  - cbn [fetchFailed startLineNumber endLineNumber] in Hl. lia.
Qed.

(** X7: [getMRDiffs] asks for the merge request first and compares only
    two commits that it knows: when the merge request has no base or no
    head commit yet the result is the empty list and the repository is
    not asked; otherwise the one comparison is between the base and the
    head of the merge request. *)
Theorem getMRDiffs_compares (projectId iid : Z) (st st' : St Env)
        (diffs : list GitLabDiff) :
  getMRDiffs projectId iid st = (Some diffs, st') ->
  exists mr,
    fst (MergeRequests_show projectId iid (env st)) = Some mr
    /\ (((mrBaseSha mr = EmptyString \/ mrHeadSha mr = EmptyString)
         /\ diffs = []
         /\ trace st' = trace st ++ [EvMergeRequestShow])
        \/ (String.eqb (mrBaseSha mr) EmptyString = false
            /\ String.eqb (mrHeadSha mr) EmptyString = false
            /\ trace st' = trace st ++ [EvMergeRequestShow;
                                         EvCompare (mrBaseSha mr) (mrHeadSha mr)])).
Proof.
  unfold getMRDiffs, bindE, getMRDetails. rewrite bind_run, call_run. cbn [fst snd].
  destruct (fst (MergeRequests_show projectId iid (env st))) as [mr|];
    [|discriminate].
  intros E. exists mr. split; [reflexivity|].
  destruct (String.eqb (mrBaseSha mr) EmptyString) eqn:Eb; cbn [orb] in E.
  - injection E as <- <-. left. apply String.eqb_eq in Eb. now repeat split; auto.
  - destruct (String.eqb (mrHeadSha mr) EmptyString) eqn:Eh.
    + injection E as <- <-. left. apply String.eqb_eq in Eh. now repeat split; auto.
    + rewrite call_run in E. injection E as _ <-. right. cbn [trace].
      rewrite <- app_assoc. now repeat split.
Qed.

End ContextFacts.

(** The third line of the file of five lines, from the context around
    its second line. *)
Lemma snippet_is_line_fiveLines :
  ReviewProcessor.codeSnippetOf
    (Some (mkFileContext ["import { a } from './a'"; "b"; "c"] 1 2 3 5
                         ["import { a } from './a'"])) 3
  = "c".
Proof.
  rewrite (@snippet_is_line _ (Scripted.world Scripted.fiveLines) 1%Z "src/a.ts" "h0"
             "import { a } from './a'
b
c
d
e" 2%Z 1%Z (Scripted.start []));
    [reflexivity|reflexivity|reflexivity|lia|simpl; lia].
Defined.

(** The diffs of the first scenario: one comparison, of [b0] and [h0]. *)
Lemma getMRDiffs_compares_happy :
  exists mr,
    Some Scripted.sha1 = Some mr
    /\ (((mrBaseSha mr = EmptyString \/ mrHeadSha mr = EmptyString)
         /\ Scripted.happyDiffs = []
         /\ [EvMergeRequestShow; EvCompare "b0" "h0"] = [] ++ [EvMergeRequestShow])
        \/ (String.eqb (mrBaseSha mr) EmptyString = false
            /\ String.eqb (mrHeadSha mr) EmptyString = false
            /\ [EvMergeRequestShow; EvCompare "b0" "h0"]
               = [] ++ [EvMergeRequestShow; EvCompare (mrBaseSha mr) (mrHeadSha mr)])).
Proof.
  apply (@getMRDiffs_compares _ (Scripted.world Scripted.happy) 1%Z 1%Z
           (Scripted.start []) (mkSt [] Scripted.pending
                                     [EvMergeRequestShow; EvCompare "b0" "h0"])).
  reflexivity.
Defined.

(** ** Issue verifier: what it asks for and what it filters *)

Section VerifierFacts.
Import IssueVerifier.
Context {Env : Type} `{World Env}.

Lemma getFileContent_run (projectId : Z) (path ref : string) (st : St Env) :
  GitLabService.getFileContent projectId path ref st
  = (fst (RepositoryFiles_show projectId path ref (env st)),
     mkSt (snd (RepositoryFiles_show projectId path ref (env st))) (review st)
          (trace st ++ [EvFileShow path ref])).
Proof. apply call_run. Qed.

Lemma getFileContentWithContext_state (projectId : Z) (path ref : string) (n c : Z)
      (st : St Env) :
  snd (GitLabService.getFileContentWithContext projectId path ref n c st)
  = mkSt (snd (RepositoryFiles_show projectId path ref (env st))) (review st)
         (trace st ++ [EvFileShow path ref]).
Proof.
  unfold GitLabService.getFileContentWithContext. rewrite bind_run, call_run.
  cbn [fst snd].
  destruct (fst (RepositoryFiles_show projectId path ref (env st))) as [text|];
    [|reflexivity].
  destruct (GitLabService.contextOf text path n c); reflexivity.
Qed.

Lemma verifyImportIssue_fetches (i : CodeIssue) (context : VerificationContext)
      (st : St Env) :
  fetchedAtMostOnce context st (snd (verifyImportIssue i context st)).
Proof.
  unfold verifyImportIssue, fetchedAtMostOnce.
  destruct (extractImportName (message i)) as [name|]; [|now split; [|left]].
  destruct (Js.includes _ "duplicate"); [now split; [|left]|].
  destruct (existsb _ _); [now split; [|left]|].
  rewrite bind_run, getFileContent_run. cbn [fst snd].
  destruct (fst (RepositoryFiles_show _ _ _ (env st))) as [text|];
    [destruct (matchesImport text name)|]; (split; [reflexivity|now right]).
Qed.

Lemma verifyDefinitionIssue_fetches (i : CodeIssue) (context : VerificationContext)
      (st : St Env) :
  fetchedAtMostOnce context st (snd (verifyDefinitionIssue i context st)).
Proof.
  unfold verifyDefinitionIssue, fetchedAtMostOnce.
  destruct (extractIdentifier (message i)) as [name|]; [|now split; [|left]].
  destruct (existsb _ _); [now split; [|left]|].
  rewrite bind_run, getFileContentWithContext_state.
  destruct (fst (GitLabService.getFileContentWithContext _ _ _ _ _ st)) as [ext|];
    [|split; [reflexivity|now right]].
  destruct (existsb _ (lines ext)); [split; [reflexivity|now right]|].
  destruct (existsb _ (imports ext)); (split; [reflexivity|now right]).
Qed.

(** X8: a verification records its call and then asks GitLab for at
    most one thing, the file of the issue at the commit of the context;
    it asks for nothing when the message is routed neither to the
    import check nor to the definition check, and it never touches the
    review. *)
Theorem verifyIssue_fetches (i : CodeIssue) (context : VerificationContext)
        (st : St Env) :
  review (snd (verifyIssue i context st)) = review st
  /\ exists fetches,
      trace (snd (verifyIssue i context st))
      = trace st ++ EvVerifyIssue i (filePath context) :: fetches
      /\ (fetches = [] \/ fetches = [EvFileShow (filePath context) (sha context)])
      /\ (isImportIssue (message i) = false /\ isDefinitionIssue (message i) = false ->
          fetches = []).
Proof.
  unfold verifyIssue. rewrite bind_run. cbn [emit fst snd].
  set (st1 := mkSt (env st) (review st) (trace st ++ [EvVerifyIssue i (filePath context)])).
  assert (Hshape : forall st', fetchedAtMostOnce context st1 st' ->
            review st' = review st
            /\ exists fetches,
                trace st' = trace st ++ EvVerifyIssue i (filePath context) :: fetches
                /\ (fetches = [] \/ fetches = [EvFileShow (filePath context) (sha context)])).
  { intros st' [Hr [Ht|Ht]]; (split; [exact Hr|]); rewrite Ht; cbn [st1 trace].
    - exists []. split; [reflexivity|now left].
    - exists [EvFileShow (filePath context) (sha context)].
      rewrite <- app_assoc. split; [reflexivity|now right]. }
  destruct (isImportIssue (message i)).
  - destruct (Hshape _ (verifyImportIssue_fetches i context st1)) as (Hr & f & Ht & Hf).
    split; [exact Hr|]. exists f. repeat split; try assumption. now intros [? _].
  - destruct (isDefinitionIssue (message i)).
    + destruct (Hshape _ (verifyDefinitionIssue_fetches i context st1)) as (Hr & f & Ht & Hf).
      split; [exact Hr|]. exists f. repeat split; try assumption. now intros [_ ?].
    + split; [now destruct (type i)|]. exists [].
      split; [now destruct (type i)|]. split; [now left|reflexivity].
Qed.

Lemma verifyDuplicateImportClaim_confident (name : string) (context : VerificationContext) :
  isValid (verifyDuplicateImportClaim name context) = false ->
  confidence (verifyDuplicateImportClaim name context) = confHigh.
Proof.
  unfold verifyDuplicateImportClaim.
  destruct (contextImports context); [discriminate|].
  now destruct (_ <=? 1)%nat.
Qed.

Lemma verifyImportIssue_confident (i : CodeIssue) (context : VerificationContext)
      (st : St Env) :
  isValid (fst (verifyImportIssue i context st)) = false ->
  confidence (fst (verifyImportIssue i context st)) = confHigh.
Proof.
  unfold verifyImportIssue.
  destruct (extractImportName (message i)) as [name|]; [|discriminate].
  destruct (Js.includes _ "duplicate"); [apply verifyDuplicateImportClaim_confident|].
  destruct (existsb _ _); [reflexivity|].
  rewrite bind_run.
  destruct (fst (GitLabService.getFileContent _ _ _ st)) as [text|]; [|discriminate].
  now destruct (matchesImport text name).
Qed.

Lemma verifyDefinitionIssue_confident (i : CodeIssue) (context : VerificationContext)
      (st : St Env) :
  isValid (fst (verifyDefinitionIssue i context st)) = false ->
  confidence (fst (verifyDefinitionIssue i context st)) = confHigh.
Proof.
  unfold verifyDefinitionIssue.
  destruct (extractIdentifier (message i)) as [name|]; [|discriminate].
  destruct (existsb _ _); [reflexivity|].
  rewrite bind_run.
  destruct (fst (GitLabService.getFileContentWithContext _ _ _ _ _ st)) as [ext|];
    [|discriminate].
  destruct (existsb _ (lines ext)); [reflexivity|].
  now destruct (existsb _ (imports ext)).
Qed.

(** X9: the verifier only ever filters an issue on evidence: a verdict
    of false positive has high confidence, and it is given to an issue
    whose message was routed to the import check or to the definition
    check; every doubt (a name that cannot be parsed, a file that cannot
    be fetched, a missing context) keeps the issue. *)
Theorem verifyIssue_filters (i : CodeIssue) (context : VerificationContext)
        (st : St Env) :
  isValid (fst (verifyIssue i context st)) = false ->
  confidence (fst (verifyIssue i context st)) = confHigh
  /\ (isImportIssue (message i) = true \/ isDefinitionIssue (message i) = true).
Proof.
  unfold verifyIssue. rewrite bind_run.
  destruct (isImportIssue (message i)).
  - intros Hv. split; [now apply verifyImportIssue_confident|now left].
  - destruct (isDefinitionIssue (message i)).
    + intros Hv. split; [now apply verifyDefinitionIssue_confident|now right].
    + now destruct (type i).
Qed.

End VerifierFacts.

(** The missing import that the context shows. *)
Lemma verifyIssue_filters_missingImportX :
  confidence (fst (@IssueVerifier.verifyIssue _ (Scripted.world Scripted.offline)
                     Scripted.missingImportX Scripted.withImports (Scripted.start [])))
  = confHigh
  /\ (IssueVerifier.isImportIssue (message Scripted.missingImportX) = true
      \/ IssueVerifier.isDefinitionIssue (message Scripted.missingImportX) = true).
Proof. apply verifyIssue_filters. reflexivity. Defined.

(** ** LLM service: defaults and outage *)

Section LlmMoreFacts.
Import LlmService.
Context {Env : Type} `{World Env}.




(** When no completion ever answers, the retries are used up. *)
Lemma pRetry_exhausted (req : ChatRequest) (n : nat) :
  (forall r e, rejects (fst (chat_completions_create r e))) ->
  forall st : St Env,
    fst (pRetry n (attempt req) st) = None
    /\ attempts (snd (pRetry n (attempt req) st)) = (attempts st + S n)%nat.
Proof.
  intros Hdown. induction n as [|n IH]; intros st; rewrite pRetry_unfold;
    pose proof (attempt_counts req st) as Hc;
    pose proof (attempt_rejects req st (Hdown req (env st))) as Hr;
    destruct (attempt req st) as [[text|] st1]; cbn [fst snd] in *;
    try discriminate.
  - split; [reflexivity|lia].
  - destruct (IH st1) as [E1 E2]. split; [assumption|lia].
Qed.

Lemma retried_exhausted {R} (e : Event) (req : ChatRequest) (parse : string -> R)
      (failed : R) (st : St Env) :
  isChat e = false ->
  (forall r e, rejects (fst (chat_completions_create r e))) ->
  fst (retried e req parse failed st) = failed
  /\ attempts (snd (retried e req parse failed st)) = (attempts st + 4)%nat.
Proof.
  intros He Hdown. unfold retried. rewrite !bind_run.
  destruct (pRetry_exhausted req 3 Hdown (snd (emit e st))) as [E1 E2].
  rewrite E1. cbn [ret fst snd]. rewrite E2, (emitted_attempts e st He).
  split; reflexivity.
Qed.


End LlmMoreFacts.


(** ** The monad: what a computation adds to the trace *)

Section EmitFacts.
Context {Env : Type}.

Lemma emits_ret {A} (p : Event -> bool) (a : A) : emits p (@ret Env A a).
Proof. intros st. exists []. now rewrite app_nil_r. Qed.

Lemma emits_bind {A B} (p : Event -> bool) (m : M Env A) (k : A -> M Env B) :
  emits p m -> (forall a, emits p (k a)) -> emits p (bind m k).
Proof.
  intros Hm Hk st. rewrite bind_run.
  destruct (Hm st) as (m1 & E1 & F1).
  destruct (Hk (fst (m st)) (snd (m st))) as (m2 & E2 & F2).
  exists (m1 ++ m2). rewrite E2, E1, app_assoc. split; [reflexivity|].
  now rewrite forallb_app, F1, F2.
Qed.

Lemma emits_call {A} (p : Event -> bool) (e : Event) (op : Env -> A * Env) :
  p e = true -> emits p (call e op).
Proof.
  intros He st. exists [e]. unfold call. destruct (op (env st)) as [a e'].
  split; [reflexivity|]. cbn. now rewrite He.
Qed.

Lemma emits_emit (p : Event -> bool) (e : Event) : p e = true -> emits p (@emit Env e).
Proof. intros He st. exists [e]. split; [reflexivity|]. cbn. now rewrite He. Qed.

Lemma emits_forEach {A S} (p : Event -> bool) (l : list A) (body : A -> S -> M Env S) :
  (forall x s, emits p (body x s)) -> forall s, emits p (forEach l body s).
Proof.
  intros Hb. induction l as [|x l IH]; intros s; cbn [forEach].
  - apply emits_ret.
  - apply emits_bind; [apply Hb|]. intros s'. apply IH.
Qed.

Lemma emits_bindE {A B} (p : Event -> bool) (m : M Env (option A))
      (k : A -> M Env (option B)) :
  emits p m -> (forall a, emits p (k a)) -> emits p (bindE m k).
Proof.
  intros Hm Hk. unfold bindE. apply emits_bind; [assumption|].
  intros [a|]; [apply Hk|apply emits_ret].
Qed.

Lemma emits_weaken {A} (p q : Event -> bool) (m : M Env A) :
  (forall e, p e = true -> q e = true) -> emits p m -> emits q m.
Proof.
  intros Hpq Hm st. destruct (Hm st) as (more & E & F). exists more.
  split; [assumption|]. rewrite forallb_forall in *. auto.
Qed.



Lemma notes_none (more : list Event) :
  forallb (fun e => negb (isNote e)) more = true -> filter isNote more = [].
Proof.
  induction more as [|e more IH]; cbn [forallb]; [reflexivity|].
  intros Hm. apply andb_true_iff in Hm as [He Hm].
  cbn [filter]. rewrite (IH Hm). now destruct (isNote e).
Qed.


Lemma emits_notes {A} (m : M Env A) :
  emits (fun e => negb (isNote e)) m -> notesBy 0 m.
Proof.
  intros Hm st. destruct (Hm st) as (more & E & F). unfold notes.
  rewrite E, filter_app, (notes_none more F), app_nil_r. lia.
Qed.


Lemma notesBy_bind {A B} (a b : nat) (m : M Env A) (k : A -> M Env B) :
  notesBy a m -> (forall x, notesBy b (k x)) -> notesBy (a + b) (bind m k).
Proof.
  intros Hm Hk st. rewrite bind_run.
  specialize (Hm st). specialize (Hk (fst (m st)) (snd (m st))). lia.
Qed.

Lemma notesBy_weaken {A} (a b : nat) (m : M Env A) :
  (a <= b)%nat -> notesBy a m -> notesBy b m.
Proof. intros Hab Hm st. specialize (Hm st). lia. Qed.

Lemma notesBy_ret {A} (k : nat) (a : A) : notesBy k (@ret Env A a).
Proof. intros st. cbn [ret snd]. lia. Qed.

Lemma notesBy_bindE {A B} (a b : nat) (m : M Env (option A))
      (k : A -> M Env (option B)) :
  notesBy a m -> (forall x, notesBy b (k x)) -> notesBy (a + b) (bindE m k).
Proof.
  intros Hm Hk. unfold bindE. apply notesBy_bind; [assumption|].
  intros [x|]; [apply Hk|apply notesBy_ret].
Qed.

End EmitFacts.

(** The steps of a computation that adds events of the kind [p],
    [Hp] telling which events are of that kind. *)
Ltac emitting Hp :=
  repeat match goal with
         | |- emits _ (ret _) => apply emits_ret
         | |- emits _ (bind _ _) => apply emits_bind
         | |- emits _ (bindE _ _) => apply emits_bindE
         | |- emits _ (call _ _) => apply emits_call, Hp; reflexivity
         | |- emits _ (emit _) => apply emits_emit, Hp; reflexivity
         | |- emits _ (forEach _ _ _) => apply emits_forEach
         | |- forall _, _ => intro
         | |- emits _ (match ?x with _ => _ end) => destruct x
         end.

(** ** Review processor: the comments of a job *)

Section CommentFacts.
Import ReviewProcessor.
Context {Env : Type} `{World Env}.

Lemma emits_updateReview (p : Event -> bool) (u : ReviewUpdate) :
  p (EvReviewUpdate u) = true -> emits p (updateReview u).
Proof.
  intros Hu. unfold updateReview. apply emits_bind; [now apply emits_call|].
  intros [|]; [|apply emits_ret].
  intros st. exists []. now rewrite app_nil_r.
Qed.

(** Reading the merge request is bookkeeping. *)
Lemma bookkeeping_getMRDiffs (projectId iid : Z) :
  emits isBookkeeping (GitLabService.getMRDiffs projectId iid).
Proof.
  unfold GitLabService.getMRDiffs, GitLabService.getMRDetails.
  emitting (fun e (He : isBookkeeping e = true) => He).
Qed.

Lemma bookkeeping_getMRDetails (projectId iid : Z) :
  emits isBookkeeping (GitLabService.getMRDetails projectId iid).
Proof.
  unfold GitLabService.getMRDetails.
  emitting (fun e (He : isBookkeeping e = true) => He).
Qed.

(** The services that post no comment. *)
Section Quiet.
Context (p : Event -> bool) (Hp : forall e, isComment e = false -> p e = true).

Lemma emits_getFileContentWithContext (projectId : Z) (path ref : string) (n c : Z) :
  emits p (GitLabService.getFileContentWithContext projectId path ref n c).
Proof. unfold GitLabService.getFileContentWithContext. emitting Hp. Qed.

Lemma emits_getMRDetails (projectId iid : Z) :
  emits p (GitLabService.getMRDetails projectId iid).
Proof. unfold GitLabService.getMRDetails. emitting Hp. Qed.

Lemma emits_getMRDiffs (projectId iid : Z) :
  emits p (GitLabService.getMRDiffs projectId iid).
Proof. unfold GitLabService.getMRDiffs, GitLabService.getMRDetails. emitting Hp. Qed.

Lemma emits_verifyIssue (i : CodeIssue) (context : VerificationContext) :
  emits p (IssueVerifier.verifyIssue i context).
Proof.
  unfold IssueVerifier.verifyIssue, IssueVerifier.verifyImportIssue,
    IssueVerifier.verifyDefinitionIssue, GitLabService.getFileContent.
  emitting Hp; apply emits_getFileContentWithContext.
Qed.

Lemma emits_pRetry (req : ChatRequest) (n : nat) :
  emits p (LlmService.pRetry n (LlmService.attempt req)).
Proof.
  assert (Ha : emits p (LlmService.attempt req))
    by (unfold LlmService.attempt; emitting Hp).
  induction n as [|n IH]; cbn [LlmService.pRetry];
    (apply emits_bind; [exact Ha|]); intros [text|]; try apply emits_ret.
  exact IH.
Qed.

Lemma emits_reviewChangedLines (chunk : DiffChunk) :
  emits p (LlmService.reviewChangedLines chunk).
Proof.
  unfold LlmService.reviewChangedLines.
  apply emits_bind; [apply emits_emit, Hp; reflexivity|]. intros _.
  destruct (negb _); [apply emits_ret|].
  apply emits_bind; [apply emits_pRetry|]. intros [text|]; apply emits_ret.
Qed.

Lemma emits_reviewMultipleChunks (chunks : list DiffChunk) :
  emits p (LlmService.reviewMultipleChunks chunks).
Proof.
  unfold LlmService.reviewMultipleChunks.
  apply emits_bind; [apply emits_emit, Hp; reflexivity|]. intros _.
  destruct (negb _); [apply emits_ret|].
  apply emits_bind; [apply emits_pRetry|]. intros [text|]; apply emits_ret.
Qed.

Lemma emits_collectChunks (projectId : Z) (mr : MRDetails) (diffs : list GitLabDiff) :
  emits p (collectChunks projectId mr diffs).
Proof.
  unfold collectChunks, collectDiff, withContext.
  emitting Hp; apply emits_getFileContentWithContext.
Qed.

Lemma emits_verifyAll (projectId : Z) (mr : MRDetails) (chunk : DiffChunk)
      (found : list CodeIssue) :
  emits p (verifyAll projectId mr chunk found).
Proof. unfold verifyAll. emitting Hp; apply emits_verifyIssue. Qed.

End Quiet.

(** The review of the chunks posts inline comments, and no summary. *)
Section NoSummary.
Context (p : Event -> bool) (Hp : forall e, isNote e = false -> p e = true).

Lemma quieter (e : Event) : isComment e = false -> p e = true.
Proof. intros He. apply Hp. now destruct e. Qed.

Lemma emits_reviewChunks (projectId iid : Z) (mr : MRDetails) (all : list DiffChunk) :
  emits p (reviewChunks projectId iid mr all).
Proof.
  unfold reviewChunks, reviewBatched, reviewIndividually, reviewChunk, batchedIssue,
    publish, GitLabService.postInlineComment.
  emitting Hp;
    first [apply emits_reviewMultipleChunks | apply emits_reviewChangedLines
          | apply emits_verifyIssue | apply emits_verifyAll]; exact quieter.
Qed.

End NoSummary.

End CommentFacts.

(** ** Review processor: the outcomes of a job *)

Section JobFacts.
Import ReviewProcessor.
Context {Env : Type} `{World Env}.


(** The stages of a job that resolves, by name. *)
Lemma job_stages (projectId iid : Z) (st : St Env) (diffs : list GitLabDiff)
      (mr : MRDetails) (st3 st' : St Env) :
  reaches projectId iid st diffs mr st3 ->
  handleReview projectId iid st = (Some tt, st') ->
  forall c r,
    c = collectChunks projectId mr (Js.slice diffs 0 (Z.of_nat MAX_FILES)) st3 ->
    r = reviewChunks projectId iid mr (fst c) (snd c) ->
    exists body,
      formatSummaryComment (allIssues (fst r)) (totalScore (fst r))
                           (List.length diffs - MAX_FILES) (filesProcessed (fst r))
      = Some body
      /\ trace st' = trace (snd r)
                     ++ [EvNote body;
                         EvReviewUpdate (completed (allIssues (fst r)) (totalScore (fst r)))]
      /\ review st'
         = applyUpdate (completed (allIssues (fst r)) (totalScore (fst r)))
                       (review (snd r)).
Proof.
  intros Hr Hh c r -> ->. apply handleReview_resolved in Hh.
  rewrite (tryReview_reaches _ _ _ _ _ _ Hr) in Hh.
  unfold reviewDiffs in Hh. rewrite !bind_run in Hh.
  now apply postAndPersist_resolved in Hh.
Qed.

(** *** Inline comments *)










(** *** The summary comment *)

Lemma quiet_note (e : Event) : isComment e = false -> negb (isNote e) = true.
Proof. now destruct e. Qed.

Lemma silent_note (e : Event) : isNote e = false -> negb (isNote e) = true.
Proof. now intros ->. Qed.

Lemma notesBy_updateReview (k : nat) (u : ReviewUpdate) : notesBy k (updateReview u).
Proof.
  apply (notesBy_weaken 0); [lia|].
  apply emits_notes, emits_updateReview. reflexivity.
Qed.

Lemma notesBy_postAndPersist (projectId iid : Z) (skipped : nat) (t : Tally) :
  notesBy 1 (postAndPersist projectId iid skipped t).
Proof.
  unfold postAndPersist.
  destruct (formatSummaryComment _ _ _ _) as [body|]; [|apply notesBy_ret].
  apply (notesBy_bind 1 0).
  - intros st. unfold GitLabService.postMRComment. rewrite call_run.
    unfold notes. cbn [snd trace]. rewrite filter_app, length_app. cbn. lia.
  - intros [|]; [apply notesBy_updateReview|apply notesBy_ret].
Qed.

Lemma notesBy_reviewDiffs (projectId iid : Z) (mr : MRDetails) (diffs : list GitLabDiff) :
  notesBy 1 (reviewDiffs projectId iid mr diffs).
Proof.
  unfold reviewDiffs.
  apply (notesBy_bind 0 1);
    [apply emits_notes, emits_collectChunks, quiet_note|]. intros all.
  apply (notesBy_bind 0 1);
    [apply emits_notes, emits_reviewChunks, silent_note|]. intros t.
  apply notesBy_postAndPersist.
Qed.

Lemma notesBy_tryReview (projectId iid : Z) : notesBy 1 (tryReview projectId iid).
Proof.
  unfold tryReview.
  apply (notesBy_bindE 0 1); [apply notesBy_updateReview|]. intros _.
  destruct (negb _); [apply notesBy_updateReview|].
  apply (notesBy_bindE 0 1);
    [apply emits_notes, emits_getMRDiffs, quiet_note|]. intros diffs.
  apply (notesBy_bindE 0 1);
    [apply emits_notes, emits_getMRDetails, quiet_note|]. intros mr.
  destruct diffs; [apply notesBy_updateReview|apply notesBy_reviewDiffs].
Qed.

(** X13: a job posts at most one summary comment, however it ends;
    everything that comes before the summary (the fetches, the reviews
    of the model, the verifications and the inline comments) posts
    none, and neither does the handling of a failure. *)
Theorem at_most_one_summary (projectId iid : Z) (st : St Env) :
  (List.length (notes (snd (handleReview projectId iid st)))
   <= List.length (notes st) + 1)%nat.
Proof.
  revert st. change (notesBy 1 (handleReview projectId iid)).
  unfold handleReview. apply (notesBy_bind 1 0); [apply notesBy_tryReview|].
  intros [[]|]; [apply notesBy_ret|].
  apply (notesBy_bind 0 0); [apply notesBy_updateReview|].
  intros _. apply notesBy_ret.
Qed.

(** *** The ways a job ends *)









(** *** When the model is out of reach *)

Lemma reviewChunk_outage (projectId iid : Z) (mr : MRDetails) (chunk : DiffChunk)
      (t : Tally) (st : St Env) :
  llmEnabled = true ->
  (forall r e, rejects (fst (chat_completions_create r e))) ->
  allIssues (fst (reviewChunk projectId iid mr chunk t st)) = allIssues t
  /\ totalScore (fst (reviewChunk projectId iid mr chunk t st)) = totalScore t.
Proof.
  intros He Hdown. unfold reviewChunk. rewrite bind_run.
  rewrite (reviewChangedLines_retried chunk He).
  destruct (retried_exhausted (EvReviewChangedLines chunk) (promptSingle chunk)
              LlmService.parseReviewResponse
              (mkCodeReviewResult "Error during review" []) st eq_refl Hdown) as [E _].
  rewrite E. cbn [issues verifyAll forEach]. rewrite !bind_run.
  cbn [ret fst snd publish forEach allIssues totalScore fold_left]. now split.
Qed.

Lemma reviewChunks_outage (projectId iid : Z) (mr : MRDetails) (all : list DiffChunk)
      (st : St Env) :
  llmEnabled = true ->
  (forall r e, rejects (fst (chat_completions_create r e))) ->
  allIssues (fst (reviewChunks projectId iid mr all st)) = []
  /\ totalScore (fst (reviewChunks projectId iid mr all st)) = 100%Z.
Proof.
  intros He Hdown. unfold reviewChunks. destruct (shouldBatch all).
  - unfold reviewBatched. rewrite bind_run.
    rewrite (reviewMultipleChunks_retried all He).
    destruct (retried_exhausted (EvReviewMultipleChunks all) (promptBatched all)
                LlmService.parseBatchedReviewResponse
                (mkBatchedCodeReviewResult "Error during batched review" []) st
                eq_refl Hdown) as [E _].
    rewrite E. cbn [batchIssues forEach ret fst allIssues totalScore]. now split.
  - unfold reviewIndividually.
    apply (forEach_invariant (fun t => allIssues t = [] /\ totalScore t = 100%Z));
      [|now split].
    intros chunk t st1 [Ha Hs].
    destruct (reviewChunk_outage projectId iid mr chunk t st1 He Hdown) as [-> ->].
    now split.
Qed.

Lemma summary_excellent (score : Z) (skipped processed : nat) (body : string) :
  formatSummaryComment [] score skipped processed = Some body ->
  Js.includes body "Excellent Work!" = true.
Proof.
  unfold formatSummaryComment. cbn [details]. intros E.
  apply (f_equal (fun o => match o with Some b => b | None => body end)) in E.
  cbv beta iota in E. rewrite <- E.
  apply includes_app_r, includes_app_r, includes_app_r, includes_app_l.
  reflexivity.
Qed.

(** X16: an outage of the model is not a failure of the job.  When
    every chat completion throws or comes back empty, a job that gets
    to its diffs and resolves has stored a review COMPLETED without an
    issue and with the score 100, and its summary comment praises the
    merge request: [Excellent Work!]. *)
Theorem job_outage (projectId iid : Z) (st : St Env) (diffs : list GitLabDiff)
        (mr : MRDetails) (st3 st' : St Env) :
  reaches projectId iid st diffs mr st3 ->
  (forall r e, rejects (fst (chat_completions_create r e))) ->
  handleReview projectId iid st = (Some tt, st') ->
  review st' = mkReview COMPLETED (contentIssues []) (Some 100%Z) 0 0
  /\ exists body,
      In (EvNote body) (trace st') /\ Js.includes body "Excellent Work!" = true.
Proof.
  intros Hr Hdown Hh.
  destruct (job_stages _ _ _ _ _ _ _ Hr Hh _ _ eq_refl eq_refl) as (body & Hb & Ht & Hv).
  destruct Hr as (He & _).
  match type of Hv with
  | context [allIssues (fst ?r)] =>
      match r with
      | reviewChunks ?p ?i ?m ?all ?s =>
          destruct (reviewChunks_outage p i m all s He Hdown) as [Ea Es]
      end
  end.
  rewrite Ea, Es in *. split; [rewrite Hv; reflexivity|].
  exists body. split; [rewrite Ht; apply in_or_app; right; now left|].
  exact (summary_excellent _ _ _ _ Hb).
Qed.

(** *** The files that are fetched *)

Lemma withContext_fetches (projectId : Z) (mr : MRDetails) (path old : string)
      (chunk : DiffChunk) (st : St Env) :
  filename (fst (withContext projectId mr path old chunk st)) = path
  /\ hasChangedLine (fst (withContext projectId mr path old chunk st))
     = hasChangedLine chunk
  /\ trace (snd (withContext projectId mr path old chunk st))
     = trace st ++ (if hasChangedLine chunk then [EvFileShow path (mrHeadSha mr)] else []).
Proof.
  unfold withContext, hasChangedLine.
  destruct (changedLines chunk) as [|first rest] eqn:Ec.
  - cbn [ret fst snd filename changedLines]. rewrite ?Ec, app_nil_r. now repeat split.
  - rewrite bind_run, getFileContentWithContext_state.
    destruct (fst (GitLabService.getFileContentWithContext _ _ _ _ _ st)) as [ctx|];
      cbn [ret fst snd filename changedLines trace]; rewrite ?Ec; now repeat split.
Qed.

Lemma collectDiff_fetches (projectId : Z) (mr : MRDetails) (d : GitLabDiff)
      (acc : list DiffChunk) (st : St Env) :
  exists new,
    fst (collectDiff projectId mr d acc st) = acc ++ new
    /\ trace (snd (collectDiff projectId mr d acc st))
       = trace st ++ map (fun c => EvFileShow (filename c) (mrHeadSha mr))
                         (filter hasChangedLine new).
Proof.
  unfold collectDiff.
  destruct (diff d) as [|a0 s];
    [exists []; cbn [ret fst snd filter map]; now rewrite !app_nil_r|].
  destruct (Js.orStr (new_path d) (old_path d)) as [|a path];
    [exists []; cbn [ret fst snd filter map]; now rewrite !app_nil_r|].
  generalize (DiffProcessor.extractChangedLinesWithContext (String a0 s) 10).
  intros chunks. revert acc st.
  induction chunks as [|chunk chunks IH]; intros acc st; cbn [forEach].
  - exists []. cbn [ret fst snd filter map]. now rewrite !app_nil_r.
  - rewrite !bind_run. cbn [ret fst snd].
    destruct (withContext_fetches projectId mr (String a path)
                (Js.orStr (old_path d) (new_path d)) chunk st) as (Hn & Hc & Ht).
    match goal with
    | |- context [forEach chunks ?body (acc ++ [?c]) ?st1] =>
        destruct (IH (acc ++ [c]) st1) as (new & E & T); exists (c :: new)
    end.
    rewrite E, T, Ht, <- !app_assoc. split; [reflexivity|].
    cbn [filter]. rewrite Hc.
    destruct (hasChangedLine chunk); cbn [map app]; now rewrite ?Hn.
Qed.

(** X17: collecting the chunks fetches one file for each collected
    chunk that lists a changed line, in the order of the chunks: the
    file of the chunk, at the head commit of the merge request; a chunk
    of deletions only is collected without a fetch, and nothing else is
    asked for and nothing is written. *)
Theorem collectChunks_fetches (projectId : Z) (mr : MRDetails)
        (diffs : list GitLabDiff) (st : St Env) :
  trace (snd (collectChunks projectId mr diffs st))
  = trace st
    ++ map (fun c => EvFileShow (filename c) (mrHeadSha mr))
           (filter hasChangedLine (fst (collectChunks projectId mr diffs st))).
Proof.
  unfold collectChunks.
  assert (Hg : forall acc st, exists new,
             fst (forEach diffs (collectDiff projectId mr) acc st) = acc ++ new
             /\ trace (snd (forEach diffs (collectDiff projectId mr) acc st))
                = trace st ++ map (fun c => EvFileShow (filename c) (mrHeadSha mr))
                                  (filter hasChangedLine new)).
  { induction diffs as [|d diffs IH]; intros acc st0; cbn [forEach].
    - exists []. cbn [ret fst snd filter map]. now rewrite !app_nil_r.
    - rewrite bind_run.
      destruct (collectDiff_fetches projectId mr d acc st0) as (n1 & E1 & T1).
      destruct (IH (fst (collectDiff projectId mr d acc st0))
                   (snd (collectDiff projectId mr d acc st0))) as (n2 & E2 & T2).
      exists (n1 ++ n2). rewrite T2, E2, T1, E1, filter_app, map_app, <- !app_assoc.
      now split. }
  destruct (Hg [] st) as (new & E & T). rewrite T, E. reflexivity.
Qed.

End JobFacts.

(** ** The scenarios of the job *)

Lemma down_reaches (st : St unit) :
  @reaches _ (down Scripted.happy) 1 1 st Scripted.happyDiffs Scripted.sha1
           (fetchedIn (down Scripted.happy) 1 1 st).
Proof. reach. Qed.




(** The first scenario when the model is out of reach. *)
Lemma job_outage_happy :
  review (snd (@ReviewProcessor.handleReview _ (down Scripted.happy) 1 1
                 (mkSt tt Scripted.pending [])))
  = mkReview COMPLETED (contentIssues []) (Some 100%Z) 0 0
  /\ exists body,
      In (EvNote body)
         (trace (snd (@ReviewProcessor.handleReview _ (down Scripted.happy) 1 1
                        (mkSt tt Scripted.pending []))))
      /\ Js.includes body "Excellent Work!" = true.
Proof.
  apply (@job_outage _ (down Scripted.happy) 1%Z 1%Z (mkSt tt Scripted.pending [])
           Scripted.happyDiffs Scripted.sha1
           (fetchedIn (down Scripted.happy) 1 1 (mkSt tt Scripted.pending []))).
  - apply down_reaches.
  - intros r e. left. reflexivity.
  - vm_compute. reflexivity.
Defined.

(** *** What the summary counts *)

Section CountFacts.
Import ReviewProcessor.
Context {Env : Type} `{World Env}.

Lemma includes_between (a x s y z : string) :
  Js.includes (a ++ (x ++ (s ++ (y ++ z)))) (x ++ s ++ y) = true.
Proof.
  apply includes_app_r.
  replace (x ++ (s ++ (y ++ z)))%string with ((x ++ s ++ y) ++ z)%string
    by (now rewrite !append_assoc).
  apply includes_self.
Qed.

Lemma metricsRest_files (issues : list IssueWithFile) (processed : nat) :
  Js.includes (metricsRest issues processed)
              ("**Files Reviewed** | " ++ Js.showNat processed ++ " |") = true.
Proof.
  unfold metricsRest.
  apply (includes_between " |
| 📁 " "**Files Reviewed** | " (Js.showNat processed) " |").
Qed.

Lemma largeMRWarning_total (skipped processed : nat) :
  (0 < skipped)%nat ->
  Js.includes (largeMRWarning skipped processed)
              ("This merge request contains **" ++ Js.showNat (skipped + processed)
               ++ " files**. Only the first **50 files** were reviewed")
  = true.
Proof.
  intros Hs. unfold largeMRWarning.
  replace (0 <? skipped)%nat with true by (symmetry; now apply Nat.ltb_lt).
  apply (includes_between "
## ⚠️ Large MR Warning

" "This merge request contains **" (Js.showNat (skipped + processed))
           " files**. Only the first **50 files** were reviewed").
Qed.

Lemma summary_parts (issues : list IssueWithFile) (score : Z) (skipped processed : nat)
      (body : string) :
  formatSummaryComment issues score skipped processed = Some body ->
  exists rest,
    body = (metricsHead score ++ scoreCell score ++ metricsRest issues processed
            ++ largeMRWarning skipped processed ++ rest)%string.
Proof.
  unfold formatSummaryComment.
  destruct (details issues) as [d|]; intros E; [|discriminate].
  apply (f_equal (fun o => match o with Some b => b | None => body end)) in E.
  cbv beta iota in E. rewrite <- E. unfold metrics.
  eexists. rewrite !append_assoc. reflexivity.
Qed.

Lemma batchedIssue_filesProcessed (projectId iid : Z) (mr : MRDetails)
      (all : list DiffChunk) (i : IssueWithFile) (t : Tally) (st : St Env) :
  filesProcessed (fst (batchedIssue projectId iid mr all i t st)) = filesProcessed t.
Proof.
  now destruct (batchedIssue_retains projectId iid mr all i t st) as [-> | [_ ->]].
Qed.

Lemma reviewIndividually_filesProcessed (projectId iid : Z) (mr : MRDetails)
      (all : list DiffChunk) :
  forall (t : Tally) (st : St Env),
    filesProcessed (fst (reviewIndividually projectId iid mr all t st))
    = (filesProcessed t + List.length all)%nat.
Proof.
  unfold reviewIndividually.
  induction all as [|chunk all IH]; intros t st; cbn [forEach].
  - cbn [ret fst List.length]. lia.
  - rewrite bind_run, IH. unfold reviewChunk. rewrite !bind_run.
    cbn [ret fst filesProcessed List.length]. lia.
Qed.

Lemma reviewChunks_filesProcessed (projectId iid : Z) (mr : MRDetails)
      (all : list DiffChunk) (st : St Env) :
  filesProcessed (fst (reviewChunks projectId iid mr all st)) = List.length all.
Proof.
  unfold reviewChunks. destruct (shouldBatch all).
  - unfold reviewBatched. rewrite bind_run.
    apply (forEach_invariant (fun t => filesProcessed t = List.length all));
      [|reflexivity].
    intros i t st1 Ht. now rewrite batchedIssue_filesProcessed.
  - now rewrite reviewIndividually_filesProcessed.
Qed.

(** X20: the files that the summary counts are chunks.  In the summary
    of a job that gets to its diffs and resolves, the row [Files
    Reviewed] shows the number of collected chunks (one for each hunk
    with a change, whichever way they were reviewed); and when the merge
    request has more than 50 diffs the warning gives, as the number of
    files of the merge request, the number of diffs beyond the 50th plus
    that number of chunks. *)
Theorem summary_counts_chunks (projectId iid : Z) (st : St Env)
        (diffs : list GitLabDiff) (mr : MRDetails) (st3 st' : St Env) :
  reaches projectId iid st diffs mr st3 ->
  handleReview projectId iid st = (Some tt, st') ->
  let chunks :=
    fst (collectChunks projectId mr (Js.slice diffs 0 (Z.of_nat MAX_FILES)) st3) in
  exists body,
    In (EvNote body) (trace st')
    /\ Js.includes body ("**Files Reviewed** | " ++ Js.showNat (List.length chunks) ++ " |")
       = true
    /\ ((50 < List.length diffs)%nat ->
        Js.includes body
          ("This merge request contains **"
           ++ Js.showNat (List.length diffs - 50 + List.length chunks)
           ++ " files**. Only the first **50 files** were reviewed")
        = true).
Proof.
  intros Hr Hh chunks.
  destruct (job_stages _ _ _ _ _ _ _ Hr Hh _ _ eq_refl eq_refl) as (body & Hb & Ht & _).
  rewrite reviewChunks_filesProcessed in Hb. fold chunks in Hb.
  exists body. split; [rewrite Ht; apply in_or_app; right; now left|].
  destruct (summary_parts _ _ _ _ _ Hb) as (rest & ->).
  split.
  - apply includes_app_r, includes_app_r, includes_app_l, metricsRest_files.
  - intros Hd.
    apply includes_app_r, includes_app_r, includes_app_r, includes_app_l.
    apply largeMRWarning_total. unfold MAX_FILES. lia.
Qed.

End CountFacts.

(** The first scenario: two chunks. *)
Lemma summary_counts_chunks_happy :
  let st' := snd (Scripted.handle Scripted.happy Scripted.happyStart) in
  let chunks :=
    fst (Scripted.collected Scripted.happy Scripted.happyDiffs Scripted.happyStart) in
  exists body,
    In (EvNote body) (trace st')
    /\ Js.includes body ("**Files Reviewed** | " ++ Js.showNat (List.length chunks) ++ " |")
       = true
    /\ ((50 < List.length Scripted.happyDiffs)%nat ->
        Js.includes body
          ("This merge request contains **"
           ++ Js.showNat (List.length Scripted.happyDiffs - 50 + List.length chunks)
           ++ " files**. Only the first **50 files** were reviewed")
        = true).
Proof.
  apply (@summary_counts_chunks _ (Scripted.world Scripted.happy) 1%Z 1%Z
           Scripted.happyStart Scripted.happyDiffs Scripted.sha1
           (Scripted.fetched Scripted.happy Scripted.happyStart)).
  - apply happy_reaches.
  - vm_compute. reflexivity.
Defined.

(** ** Review processor: the summary comment *)

Section SummaryFacts.
Import ReviewProcessor.

(** *** The table of categories *)


Lemma typeEqb_sym (a b : IssueType) : typeEqb a b = typeEqb b a.
Proof. now destruct a, b. Qed.














(** *** The grouping by file *)

Lemma onFile_snoc (f : string) (l : list IssueWithFile) (i : IssueWithFile) :
  onFile f (l ++ [i]) = onFile f l ++ (if String.eqb (file i) f then [i] else []).
Proof. unfold onFile. rewrite filter_app. cbn [filter]. now destruct (String.eqb _ _). Qed.

Lemma groupOf_cons (f k : string) (l : list IssueWithFile)
      (groups : list (string * list IssueWithFile)) :
  groupOf f ((k, l) :: groups)
  = (if String.eqb k f then l else []) ++ groupOf f groups.
Proof. unfold groupOf. cbn [filter fst]. now destruct (String.eqb k f). Qed.

Lemma groupOf_absent (f : string) (groups : list (string * list IssueWithFile)) :
  ~ In f (map fst groups) -> groupOf f groups = [].
Proof.
  induction groups as [|[k l] groups IH]; intros Hk; [reflexivity|].
  rewrite groupOf_cons. destruct (String.eqb k f) eqn:E.
  - apply String.eqb_eq in E as ->. exfalso. apply Hk. now left.
  - apply IH. intros Hin. apply Hk. now right.
Qed.

Lemma groupOf_addToFile (f : string) (i : IssueWithFile)
      (groups : list (string * list IssueWithFile)) :
  NoDup (map fst groups) ->
  groupOf f (addToFile i groups)
  = groupOf f groups ++ (if String.eqb (file i) f then [i] else []).
Proof.
  induction groups as [|[k l] groups IH]; intros Hn; cbn [addToFile].
  - rewrite groupOf_cons. cbn. now rewrite app_nil_r.
  - inversion Hn as [|? ? Hk Hn']; subst.
    destruct (String.eqb (file i) k) eqn:E.
    + apply String.eqb_eq in E. rewrite E, !groupOf_cons.
      destruct (String.eqb k f) eqn:E'.
      * apply String.eqb_eq in E' as ->.
        rewrite (groupOf_absent f groups Hk), !app_nil_r. reflexivity.
      * now rewrite app_nil_r.
    + rewrite !groupOf_cons, (IH Hn'). now rewrite app_assoc.
Qed.

Lemma keys_addToFile (i : IssueWithFile) (groups : list (string * list IssueWithFile)) :
  forall k, In k (map fst (addToFile i groups)) <-> k = file i \/ In k (map fst groups).
Proof.
  induction groups as [|[k' l] groups IH]; intros k; cbn [addToFile].
  - cbn. intuition.
  - destruct (String.eqb (file i) k') eqn:E; cbn [map fst In].
    + apply String.eqb_eq in E as <-. intuition.
    + rewrite IH. intuition.
Qed.

Lemma NoDup_addToFile (i : IssueWithFile) (groups : list (string * list IssueWithFile)) :
  NoDup (map fst groups) -> NoDup (map fst (addToFile i groups)).
Proof.
  induction groups as [|[k l] groups IH]; intros Hn; cbn [addToFile].
  - cbn. constructor; [intros []|constructor].
  - inversion Hn as [|? ? Hk Hn']; subst.
    destruct (String.eqb (file i) k) eqn:E; cbn [map fst]; [now constructor|].
    constructor; [|now apply IH].
    rewrite keys_addToFile. intros [->|Hin]; [|contradiction].
    rewrite String.eqb_refl in E. discriminate.
Qed.

Lemma nonempty_addToFile (i : IssueWithFile)
      (groups : list (string * list IssueWithFile)) :
  Forall (fun g => snd g <> []) groups ->
  Forall (fun g => snd g <> []) (addToFile i groups).
Proof.
  induction groups as [|[k l] groups IH]; intros Hp; cbn [addToFile].
  - constructor; [discriminate|constructor].
  - inversion Hp; subst.
    destruct (String.eqb (file i) k); constructor; cbn in *; auto.
    now destruct l.
Qed.

Lemma groupOf_In (f : string) (l : list IssueWithFile)
      (groups : list (string * list IssueWithFile)) :
  NoDup (map fst groups) -> In (f, l) groups -> groupOf f groups = l.
Proof.
  induction groups as [|[k m] groups IH]; intros Hn Hin; [contradiction|].
  inversion Hn as [|? ? Hk Hn']; subst. rewrite groupOf_cons.
  destruct Hin as [E|Hin].
  - injection E as -> ->. rewrite String.eqb_refl, (groupOf_absent f groups Hk).
    apply app_nil_r.
  - destruct (String.eqb k f) eqn:E.
    + apply String.eqb_eq in E as ->. exfalso. apply Hk.
      apply in_map_iff. now exists (f, l).
    + now apply IH.
Qed.

Lemma groupOf_present (f : string) (groups : list (string * list IssueWithFile)) :
  groupOf f groups <> [] -> exists l, In (f, l) groups.
Proof.
  induction groups as [|[k m] groups IH]; [now intros []|].
  rewrite groupOf_cons. destruct (String.eqb k f) eqn:E.
  - apply String.eqb_eq in E as ->. intros _. exists m. now left.
  - intros Hp. destruct (IH Hp) as [l Hin]. exists l. now right.
Qed.

Lemma grouped (l : list IssueWithFile) :
  let groups := fold_left (fun acc i => addToFile i acc) l [] in
  NoDup (map fst groups)
  /\ Forall (fun g => snd g <> []) groups
  /\ forall f, groupOf f groups = onFile f l.
Proof.
  induction l as [|i l IH] using rev_ind.
  - split; [constructor|]. split; [constructor|]. reflexivity.
  - destruct IH as (Hn & Hp & Hc). cbv zeta. rewrite fold_left_app. cbn [fold_left].
    split; [now apply NoDup_addToFile|]. split; [now apply nonempty_addToFile|].
    intros f. now rewrite groupOf_addToFile, Hc, onFile_snoc.
Qed.

(** X19: when the grouping by file of the summary succeeds, every file
    that has an issue has one group, and only these files have one; the
    group of a file holds the issues on that file, all of them and in
    the order in which they were retained. *)
Theorem byFile_groups (issues : list IssueWithFile)
        (groups : list (string * list IssueWithFile)) :
  byFile issues = Some groups ->
  NoDup (map fst groups)
  /\ forall f l, In (f, l) groups <-> (l = onFile f issues /\ l <> []).
Proof.
  unfold byFile. destruct (existsb _ issues); [discriminate|].
  intros E. injection E as <-.
  destruct (grouped issues) as (Hn & Hp & Hc).
  split; [assumption|]. intros f l. split.
  - intros Hin. rewrite <- Hc, (groupOf_In f l _ Hn Hin).
    split; [reflexivity|]. rewrite Forall_forall in Hp. exact (Hp _ Hin).
  - intros [-> Hne]. rewrite <- Hc in *.
    destruct (groupOf_present _ _ Hne) as [l Hin].
    now rewrite (groupOf_In _ _ _ Hn Hin).
Qed.

(** *** The order of the sections *)






End SummaryFacts.

(** The two issues of the first scenario, on their two files. *)
Lemma byFile_groups_happy :
  NoDup (map fst [("utils.ts", [LlmService.toIssueWithFile Scripted.highLogic]);
                  ("main.ts", [LlmService.toIssueWithFile Scripted.lowStyle])])
  /\ forall f l,
      In (f, l) [("utils.ts", [LlmService.toIssueWithFile Scripted.highLogic]);
                 ("main.ts", [LlmService.toIssueWithFile Scripted.lowStyle])]
      <-> (l = onFile f [LlmService.toIssueWithFile Scripted.highLogic;
                         LlmService.toIssueWithFile Scripted.lowStyle]
           /\ l <> []).
Proof. apply byFile_groups. reflexivity. Defined.

(** ** Regular expressions: what a capture holds *)

Section RegexFacts.
Import Re.

Lemma orElse_some {A} (x y : option A) (a : A) :
  orElse x y = Some a -> x = Some a \/ y = Some a.
Proof. destruct x; cbn; auto. Qed.

Lemma chars_str (l : list ascii) : Js.chars (Js.str l) = l.
Proof. apply list_ascii_of_string_of_list_ascii. Qed.

Lemma str_chars (s : string) : Js.str (Js.chars s) = s.
Proof. apply string_of_list_ascii_of_string. Qed.

Lemma str_app (x y : list ascii) : Js.str (x ++ y) = (Js.str x ++ Js.str y)%string.
Proof.
  unfold Js.str. induction x as [|c x IH]; cbn [app string_of_list_ascii append];
    [reflexivity|]. now rewrite IH.
Qed.

Lemma chars_app (s t : string) : Js.chars (s ++ t) = Js.chars s ++ Js.chars t.
Proof.
  unfold Js.chars. induction s as [|c s IH]; cbn [app list_ascii_of_string append];
    [reflexivity|]. now rewrite IH.
Qed.

Lemma firstn_consumed {A} (pre rest : list A) :
  firstn (List.length (pre ++ rest) - List.length rest) (pre ++ rest) = pre.
Proof.
  rewrite length_app, Nat.add_sub, firstn_app, Nat.sub_diag, firstn_all.
  cbn. apply app_nil_r.
Qed.

Section Sound.
Context {A : Type} (Q : nat -> list ascii -> Prop) (input : list ascii).

(** The loop of a repetition of a class. *)
Lemma star_sound (p : ascii -> bool) (caps : Caps)
      (k : Caps -> option ascii -> list ascii -> option A) (res : A) :
  forall (s : list ascii) (prev : option ascii),
    rmatch (Star p) caps prev s k = Some res ->
    exists prev' pre s',
      s = pre ++ s' /\ forallb p pre = true /\ k caps prev' s' = Some res.
Proof.
  induction s as [|c s IH]; intros prev Hm; cbn in Hm.
  - exists prev, [], []. now repeat split.
  - destruct (p c) eqn:Ep.
    + apply orElse_some in Hm as [Hm|Hm].
      * destruct (IH (Some c) Hm) as (prev' & pre & s' & -> & Hp & Hk).
        exists prev', (c :: pre), s'. cbn. rewrite Ep. now repeat split.
      * exists prev, [], (c :: s). now repeat split.
    + exists prev, [], (c :: s). now repeat split.
Qed.

(** A match goes over a word of the expression and hands the rest of
    the input to its continuation, with captures that are parts of the
    input. *)
Lemma rmatch_sound (r : regex) :
  captures Q r ->
  forall (caps : Caps) (prev : option ascii) (s : list ascii)
         (k : Caps -> option ascii -> list ascii -> option A) (res : A)
         (before : list ascii),
    input = before ++ s ->
    Forall (captured Q input) caps ->
    rmatch r caps prev s k = Some res ->
    exists caps' prev' pre s',
      s = pre ++ s' /\ lang r pre /\ Forall (captured Q input) caps'
      /\ k caps' prev' s' = Some res.
Proof.
  induction r as [|p|a IHa b IHb|a IHa b IHb|p|a IHa|n a IHa| | |];
    intros Hq caps prev s k res before Hin Hc Hm.
  - exists caps, prev, [], s. now repeat split.
  - cbn in Hm. destruct s as [|c s]; [discriminate|].
    destruct (p c) eqn:Ep; [|discriminate].
    exists caps, (Some c), [c], s. repeat split; try assumption. now exists c.
  - destruct Hq as [Hqa Hqb]. cbn [rmatch] in Hm.
    destruct (IHa Hqa _ _ _ _ _ before Hin Hc Hm)
      as (caps1 & prev1 & pre1 & s1 & -> & La & Hc1 & Hm1).
    rewrite app_assoc in Hin.
    destruct (IHb Hqb _ _ _ _ _ _ Hin Hc1 Hm1)
      as (caps2 & prev2 & pre2 & s2 & -> & Lb & Hc2 & Hm2).
    exists caps2, prev2, (pre1 ++ pre2), s2. rewrite <- app_assoc.
    repeat split; try assumption. now exists pre1, pre2.
  - destruct Hq as [Hqa Hqb]. cbn [rmatch] in Hm.
    apply orElse_some in Hm as [Hm|Hm].
    + destruct (IHa Hqa _ _ _ _ _ before Hin Hc Hm)
        as (caps1 & prev1 & pre1 & s1 & -> & La & Hc1 & Hm1).
      exists caps1, prev1, pre1, s1. repeat split; try assumption. now left.
    + destruct (IHb Hqb _ _ _ _ _ before Hin Hc Hm)
        as (caps1 & prev1 & pre1 & s1 & -> & La & Hc1 & Hm1).
      exists caps1, prev1, pre1, s1. repeat split; try assumption. now right.
  - destruct (star_sound p caps k res s prev Hm) as (prev' & pre & s' & -> & Hp & Hk).
    exists caps, prev', pre, s'. now repeat split.
  - cbn [rmatch] in Hm. cbn [captures] in Hq.
    apply orElse_some in Hm as [Hm|Hm].
    + destruct (IHa Hq _ _ _ _ _ before Hin Hc Hm)
        as (caps1 & prev1 & pre1 & s1 & -> & La & Hc1 & Hm1).
      exists caps1, prev1, pre1, s1. repeat split; try assumption. now right.
    + exists caps, prev, [], s. repeat split; try assumption. now left.
  - destruct Hq as [Hqn Hqa]. cbn [rmatch] in Hm.
    destruct (IHa Hqa _ _ _ _ _ before Hin Hc Hm)
      as (caps1 & prev1 & pre1 & s1 & -> & La & Hc1 & Hm1).
    rewrite firstn_consumed in Hm1.
    exists ((n, Js.str pre1) :: caps1), prev1, pre1, s1.
    repeat split; try assumption.
    constructor; [|assumption]. split; cbn [fst snd]; rewrite chars_str.
    + now apply Hqn.
    + now exists before, s1.
  - cbn [rmatch] in Hm. destruct (xorb _ _); [|discriminate].
    exists caps, prev, [], s. now repeat split.
  - cbn [rmatch] in Hm. destruct prev; [discriminate|].
    exists caps, None, [], s. now repeat split.
  - cbn [rmatch] in Hm. destruct s; [|discriminate].
    exists caps, prev, [], []. now repeat split.
Qed.

End Sound.

Lemma search_sound (Q : nat -> list ascii -> Prop) (input : list ascii) (r : regex)
      (caps : Caps) :
  captures Q r ->
  forall (s : list ascii) (prev : option ascii) (before : list ascii),
    input = before ++ s ->
    search r prev s = Some caps ->
    Forall (captured Q input) caps.
Proof.
  intros Hq. induction s as [|c s IH]; intros prev before Hin Hs; cbn [search] in Hs;
    apply orElse_some in Hs as [Hs|Hs]; try discriminate.
  - destruct (rmatch_sound Q input r Hq [] prev [] _ caps before Hin (Forall_nil _) Hs)
      as (caps' & _ & _ & _ & _ & _ & Hc & E).
    now injection E as <-.
  - destruct (rmatch_sound Q input r Hq [] prev (c :: s) _ caps before Hin
                (Forall_nil _) Hs)
      as (caps' & _ & _ & _ & _ & _ & Hc & E).
    now injection E as <-.
  - apply (IH (Some c) (before ++ [c])); [|assumption].
    now rewrite <- app_assoc.
Qed.

Lemma capture_In (n : nat) (caps : Caps) (v : string) :
  capture n caps = Some v -> In (n, v) caps.
Proof.
  induction caps as [|[m s] caps IH]; cbn [capture]; [discriminate|].
  destruct (Nat.eqb n m) eqn:E.
  - apply Nat.eqb_eq in E as ->. intros E. injection E as ->. now left.
  - intros Hc. right. now apply IH.
Qed.

(** What [exec] captures in a group is a part of the text, of the kind
    that the group captures. *)
Lemma exec_captured (Q : nat -> list ascii -> Prop) (r : regex) (text : string)
      (caps : Caps) (n : nat) (v : string) :
  captures Q r ->
  exec r text = Some caps ->
  capture n caps = Some v ->
  Q n (Js.chars v) /\ sub v text.
Proof.
  intros Hq He Hc. unfold exec in He.
  pose proof (search_sound Q (Js.chars text) r caps Hq (Js.chars text) None []
                eq_refl He) as Hall.
  rewrite Forall_forall in Hall.
  destruct (Hall _ (capture_In _ _ _ Hc)) as [HQ (a & b & Hw)].
  split; [exact HQ|]. cbn [snd] in Hw.
  exists (Js.str a), (Js.str b).
  rewrite <- (str_chars text), Hw, !str_app, str_chars. reflexivity.
Qed.

End RegexFacts.

(** ** Issue verifier: the names it works on *)

Section NameFacts.
Import IssueVerifier.

Lemma sub_refl (s : string) : sub s s.
Proof.
  exists EmptyString, EmptyString. cbn.
  induction s as [|c s IH]; cbn; congruence.
Qed.

Lemma sub_trans (u t s : string) : sub u t -> sub t s -> sub u s.
Proof.
  intros (c & d & ->) (a & b & ->). exists (a ++ c)%string, (d ++ b)%string.
  now rewrite !append_assoc.
Qed.

Lemma sub_includes (t s : string) : sub t s -> Js.includes s t = true.
Proof. intros (a & b & ->). apply includes_app_r, includes_self. Qed.

Lemma sub_empty (s : string) : sub EmptyString s.
Proof. now exists EmptyString, s. Qed.

Lemma dropWhile_suffix (p : ascii -> bool) (l : list ascii) :
  exists a, l = a ++ Js.dropWhile p l.
Proof.
  induction l as [|c l [a IH]]; cbn [Js.dropWhile]; [now exists []|].
  destruct (p c); [|now exists []].
  exists (c :: a). cbn. now rewrite <- IH.
Qed.

Lemma trim_sub (s : string) : sub (Js.trim s) s.
Proof.
  unfold Js.trim. apply (sub_trans _ (Js.trimStart s)).
  - unfold Js.trimEnd.
    destruct (dropWhile_suffix Js.isSpace (rev (Js.chars (Js.trimStart s)))) as [a Ha].
    exists EmptyString, (Js.str (rev a)). cbn [append].
    rewrite <- str_app, <- rev_app_distr, <- Ha, rev_involutive.
    symmetry. apply str_chars.
  - unfold Js.trimStart.
    destruct (dropWhile_suffix Js.isSpace (Js.chars s)) as [a Ha].
    exists (Js.str a), EmptyString.
    rewrite <- (str_chars s) at 1. rewrite Ha at 1. rewrite str_app.
    f_equal. clear. generalize (Js.str (Js.dropWhile Js.isSpace (Js.chars s))).
    intros t. induction t as [|c t IH]; cbn; congruence.
Qed.

Lemma str_snoc (acc : list ascii) (c : ascii) (s : string) :
  (Js.str (rev (c :: acc)) ++ s)%string = (Js.str (rev acc) ++ String c s)%string.
Proof. cbn [rev]. now rewrite str_app, append_assoc. Qed.

Lemma splitFrom_sub (sep : string) (s : string) :
  forall (skip : nat) (acc : list ascii) (p : string),
    skip = 0%nat \/ acc = [] ->
    In p (Js.splitFrom sep skip acc s) ->
    sub p (Js.str (rev acc) ++ s).
Proof.
  induction s as [|c s IH]; intros skip acc p Hs Hin; cbn [Js.splitFrom] in Hin.
  - destruct Hin as [<-|[]]. exists EmptyString, EmptyString. reflexivity.
  - destruct skip as [|k].
    + destruct (Js.startsWith (String c s) sep).
      * destruct Hin as [<-|Hin].
        -- exists EmptyString, (String c s). reflexivity.
        -- apply (IH _ [] p (or_intror eq_refl)) in Hin. cbn in Hin.
           destruct Hin as (a & b & ->).
           exists (Js.str (rev acc) ++ String c a)%string, b.
           now rewrite !append_assoc.
      * apply (IH _ _ p (or_introl eq_refl)) in Hin. now rewrite str_snoc in Hin.
    + destruct Hs as [Hs| ->]; [discriminate|].
      apply (IH _ [] p (or_intror eq_refl)) in Hin. cbn in *.
      destruct Hin as (a & b & ->). now exists (String c a), b.
Qed.

Lemma split_sub (s sep p : string) : In p (Js.split s sep) -> sub p s.
Proof. intros Hin. now apply (splitFrom_sub sep s 0 [] p (or_introl eq_refl)). Qed.

Lemma hd_split_sub (s sep : string) : sub (hd EmptyString (Js.split s sep)) s.
Proof.
  destruct (Js.split s sep) as [|p l] eqn:E; [apply sub_empty|].
  apply (split_sub s sep). rewrite E. now left.
Qed.

Lemma isName_plus (p : ascii -> bool) (w : list ascii) :
  (forall c, p c = true -> Js.isIdent c = true) ->
  lang (Re.Seq (Re.Chr p) (Re.Star Js.isIdent)) w -> isName w.
Proof.
  intros Hp (x & y & -> & (c & -> & Hc) & Hy). split; [discriminate|].
  cbn. now rewrite (Hp c Hc).
Qed.

Lemma isUpper_isIdent (c : ascii) : Js.isUpper c = true -> Js.isIdent c = true.
Proof. intros Hc. unfold Js.isIdent, Js.isWord. now rewrite Hc. Qed.

Lemma isLower_isIdent (c : ascii) : Js.isLower c = true -> Js.isIdent c = true.
Proof. intros Hc. unfold Js.isIdent, Js.isWord. rewrite Hc. now rewrite orb_true_r. Qed.

(** The groups of an expression, one goal for each. *)
Ltac groups :=
  cbn;
  repeat match goal with
         | |- _ /\ _ => split
         | |- True => exact I
         end.

Lemma quoted_name (message : string) (caps : Re.Caps) (name : string) :
  Re.exec quotedRe message = Some caps ->
  Re.capture 1 caps = Some name ->
  isName (Js.chars name) /\ sub name message.
Proof.
  apply (exec_captured (fun _ => isName)).
  groups. intros w. now apply isName_plus.
Qed.

(** X22: the name that a check of the verifier works on is read off the
    message: whenever [extractIdentifier] or [extractImportName] finds a
    name, the name is not empty, it is made of letters, digits, [_] and
    [$] only (so that splicing it into a regular expression can at most
    bring in a [$]), and it occurs in the message. *)
Theorem extracted_names (message name : string) :
  (extractIdentifier message = Some name ->
   isName (Js.chars name) /\ Js.includes message name = true)
  /\ (extractImportName message = Some name ->
      isName (Js.chars name) /\ Js.includes message name = true).
Proof.
  split; intros He.
  - unfold extractIdentifier in He.
    destruct (Re.exec quotedRe message) as [caps|] eqn:Eq.
    + destruct (quoted_name _ _ _ Eq He) as [Hn Hs]. split; [|apply sub_includes]; assumption.
    + unfold group in He.
      destruct (Re.exec identifierRe message) as [caps|] eqn:Ei; [|discriminate].
      destruct (exec_captured (fun _ => isName) identifierRe message caps 1 name)
        as [Hn Hs]; try assumption.
      * groups. intros w. apply isName_plus, isLower_isIdent.
      * split; [|apply sub_includes]; assumption.
  - unfold extractImportName in He.
    destruct (Re.exec quotedRe message) as [caps|] eqn:Eq.
    + destruct (quoted_name _ _ _ Eq He) as [Hn Hs]. split; [|apply sub_includes]; assumption.
    + unfold group in He.
      destruct (Re.exec importNameRe message) as [caps|] eqn:Ei; [|discriminate].
      destruct (exec_captured (fun n w => n = 2%nat -> isName w) importNameRe message
                  caps 2 name) as [Hn Hs]; try assumption.
      * groups; [discriminate|].
        intros w Hw _. revert Hw. apply isName_plus, isUpper_isIdent.
      * split; [now apply Hn|now apply sub_includes].
Qed.

Lemma matchesImport_includes_text (text name : string) :
  Js.includes text name = true -> matchesImport text name = true.
Proof. intros Hi. unfold matchesImport. now rewrite Hi. Qed.

(** X23: the parsing of destructured imports in [matchesImport] never
    decides anything: an import statement matches a name exactly when
    the name occurs somewhere in the statement, as a substring. *)
Theorem matchesImport_includes (importStatement importName : string) :
  matchesImport importStatement importName = Js.includes importStatement importName.
Proof.
  unfold matchesImport.
  destruct (Js.includes importStatement importName) eqn:Hi; [reflexivity|].
  unfold group.
  destruct (Re.exec destructuredRe importStatement) as [caps|] eqn:Ee; [|reflexivity].
  destruct (Re.capture 1 caps) as [inner|] eqn:Ec; [|reflexivity].
  destruct (exec_captured (fun _ _ => True) destructuredRe importStatement caps 1 inner)
    as [_ Hs]; try assumption; [groups; intros; exact I|].
  apply not_true_is_false. intros Hex.
  apply existsb_exists in Hex as (imp & Hin & Heq).
  apply in_map_iff in Hin as (part & <- & Hpart).
  apply String.eqb_eq in Heq.
  assert (Hsub : sub importName importStatement).
  { rewrite <- Heq.
    apply (sub_trans _ (hd EmptyString (Js.split (Js.trim part) " as ")));
      [apply trim_sub|].
    apply (sub_trans _ (Js.trim part)); [apply hd_split_sub|].
    apply (sub_trans _ part); [apply trim_sub|].
    apply (sub_trans _ inner); [now apply (split_sub inner ",")|assumption]. }
  apply sub_includes in Hsub. congruence.
Qed.

Context {Env : Type} `{World Env}.

(** X24: the second step of the import check defeats it.  An issue that
    reports a missing import (not a duplicate) is filtered as a false
    positive, with high confidence, as soon as the name occurs anywhere
    in the file at the commit under review: in an import or, as it does
    when the import is really missing, where the name is used. *)
Theorem used_name_filters_import_issue (i : CodeIssue) (context : VerificationContext)
        (st : St Env) (name text : string) :
  isImportIssue (message i) = true ->
  extractImportName (message i) = Some name ->
  Js.includes (Js.toLowerCase (message i)) "duplicate" = false ->
  fst (RepositoryFiles_show (vProjectId context) (filePath context) (sha context) (env st))
  = Some text ->
  Js.includes text name = true ->
  isValid (fst (verifyIssue i context st)) = false
  /\ confidence (fst (verifyIssue i context st)) = confHigh.
Proof.
  intros Hr Hn Hd Hf Hu. unfold verifyIssue. rewrite bind_run, Hr.
  unfold verifyImportIssue. rewrite Hn, Hd.
  destruct (existsb _ (contextImports context)); [now split|].
  rewrite bind_run, getFileContent_run. cbn [emit fst snd env].
  rewrite Hf, matchesImport_includes_text by assumption. now split.
Qed.

End NameFacts.

(** An issue that is right: [X] is used and not imported. *)
Lemma used_name_filters_missingImportX :
  isValid (fst (@IssueVerifier.verifyIssue _ (Scripted.world usesX)
                  Scripted.missingImportX Scripted.bare (Scripted.start []))) = false
  /\ confidence (fst (@IssueVerifier.verifyIssue _ (Scripted.world usesX)
                        Scripted.missingImportX Scripted.bare (Scripted.start [])))
     = confHigh.
Proof.
  apply (@used_name_filters_import_issue _ (Scripted.world usesX) Scripted.missingImportX
           Scripted.bare (Scripted.start []) "X" "const y = X.make();");
    reflexivity.
Defined.

(** ** Issue verifier: the routing of a message *)

Section RoutingFacts.
Import IssueVerifier.

Lemma startsWith_sub (s p : string) : Js.startsWith s p = true -> exists b, s = (p ++ b)%string.
Proof.
  revert s. induction p as [|a p IH]; intros s Hs; [now exists s|].
  destruct s as [|c s]; cbn in Hs; [discriminate|].
  apply andb_true_iff in Hs as [Hc Hs]. apply Ascii.eqb_eq in Hc as ->.
  destruct (IH s Hs) as [b ->]. now exists b.
Qed.

Lemma includes_sub (s t : string) : Js.includes s t = true -> sub t s.
Proof.
  induction s as [|c s IH]; cbn [Js.includes]; intros Hi.
  - rewrite orb_false_r in Hi. destruct (startsWith_sub _ _ Hi) as [b ->].
    now exists EmptyString, b.
  - apply orb_true_iff in Hi as [Hi|Hi].
    + destruct (startsWith_sub _ _ Hi) as [b ->]. now exists EmptyString, b.
    + destruct (IH Hi) as (a & b & ->). now exists (String c a), b.
Qed.

(** A text that holds a phrase holds every part of the phrase. *)
Lemma includes_part (s phrase part : string) :
  Js.includes phrase part = true ->
  Js.includes s phrase = true -> Js.includes s part = true.
Proof.
  intros Hp Hs. apply sub_includes.
  apply (sub_trans _ phrase); now apply includes_sub.
Qed.

Lemma includes_whole (s phrase part : string) :
  Js.includes phrase part = true ->
  Js.includes s part = false -> Js.includes s phrase = false.
Proof.
  intros Hp Hs. destruct (Js.includes s phrase) eqn:E; [|reflexivity].
  rewrite (includes_part s phrase part Hp E) in Hs. discriminate.
Qed.

(** X25: two words decide the routing of a message.  It goes to the
    import check exactly when, in lower case, it holds [import] or
    [cannot find] (the phrases [not imported] and [missing import] add
    nothing); and a message that holds [cannot find name] is an import
    issue, so that the definition check only ever sees messages with
    [not defined], [undefined] or [not declared], and without [import]
    and [cannot find]. *)
Theorem routing_keywords (message : string) :
  isImportIssue message
  = (Js.includes (Js.toLowerCase message) "import"
     || Js.includes (Js.toLowerCase message) "cannot find")%bool
  /\ (isImportIssue message = false ->
      isDefinitionIssue message
      = (Js.includes (Js.toLowerCase message) "not defined"
         || Js.includes (Js.toLowerCase message) "undefined"
         || Js.includes (Js.toLowerCase message) "not declared")%bool).
Proof.
  unfold isImportIssue, isDefinitionIssue. cbv zeta.
  set (m := Js.toLowerCase message).
  destruct (Js.includes m "import") eqn:Ei; cbn [orb].
  - split; [reflexivity|discriminate].
  - rewrite (includes_whole m "not imported" "import" eq_refl Ei).
    rewrite (includes_whole m "missing import" "import" eq_refl Ei). cbn [orb].
    split; [reflexivity|]. intros Hc.
    rewrite (includes_whole m "cannot find name" "cannot find" eq_refl Hc).
    now rewrite orb_false_r.
Qed.

End RoutingFacts.

(** ** LLM service: the fences of an answer *)

Section FenceFacts.
Import LlmService.
Context {Env : Type} `{World Env}.

Lemma removeAll_free (mark : string) (s : string) :
  Js.includes s mark = false -> removeAll mark 0 false s = s.
Proof.
  induction s as [|c s IH]; intros Hi; [reflexivity|].
  cbn [Js.includes] in Hi. apply orb_false_iff in Hi as [Hs Hi].
  cbn [removeAll andb]. rewrite Hs. now rewrite (IH Hi).
Qed.

Lemma startsWith_closing (s : string) :
  Js.startsWith s "```" = false ->
  Js.startsWith (s ++ DiffProcessor.newline ++ "```") "```" = false.
Proof.
  unfold DiffProcessor.newline.
  destruct s as [|c1 [|c2 [|c3 s]]]; cbn [Js.startsWith append];
    repeat match goal with
           | |- context [Ascii.eqb ?a ?c] =>
               is_var c; destruct (Ascii.eqb a c); cbn [andb]
           end;
    try reflexivity; try (intros _; reflexivity).
  now destruct s.
Qed.

Lemma startsWith_longer (s p q : string) :
  Js.startsWith s p = false -> Js.startsWith s (p ++ q) = false.
Proof.
  revert s. induction p as [|a p IH]; intros s Hs; [now destruct s|].
  destruct s as [|c s]; [reflexivity|]. cbn in *.
  destruct (Ascii.eqb a c); [now apply IH|reflexivity].
Qed.

(** The last fence of a block: the first pass leaves it, the second
    removes it. *)
Lemma removeAll_closing (body : string) :
  Js.includes body "```" = false ->
  removeAll "```json" 0 false (body ++ DiffProcessor.newline ++ "```")
  = (body ++ DiffProcessor.newline ++ "```")%string
  /\ removeAll "```" 0 false (body ++ DiffProcessor.newline ++ "```")
     = (body ++ DiffProcessor.newline)%string.
Proof.
  induction body as [|c body IH]; intros Hi; [split; reflexivity|].
  cbn [Js.includes] in Hi. apply orb_false_iff in Hi as [Hs Hi].
  destruct (IH Hi) as [E1 E2].
  apply startsWith_closing in Hs.
  change ((String c body ++ DiffProcessor.newline ++ "```")%string)
    with (String c (body ++ DiffProcessor.newline ++ "```")) in *.
  assert (Hl : Js.startsWith (String c (body ++ DiffProcessor.newline ++ "```")) "```json"
               = false) by exact (startsWith_longer _ "```" "json" Hs).
  cbn [removeAll andb]. rewrite Hl, Hs, E1, E2. now split.
Qed.

Lemma dropWhile_snoc (l : list ascii) (c : ascii) :
  Js.isSpace c = true ->
  Js.dropWhile Js.isSpace (l ++ [c])
  = match Js.dropWhile Js.isSpace l with
    | [] => []
    | d => d ++ [c]
    end.
Proof.
  intros Hc. induction l as [|a l IH]; cbn [app Js.dropWhile]; [now rewrite Hc|].
  destruct (Js.isSpace a); [exact IH|reflexivity].
Qed.

Lemma trim_newline (s : string) : Js.trim (s ++ DiffProcessor.newline) = Js.trim s.
Proof.
  unfold Js.trim, Js.trimStart. rewrite chars_app.
  change (Js.chars DiffProcessor.newline) with [ascii_of_nat 10].
  rewrite dropWhile_snoc by reflexivity.
  destruct (Js.dropWhile Js.isSpace (Js.chars s)) as [|d l]; [reflexivity|].
  unfold Js.trimEnd. rewrite !chars_str, rev_app_distr. reflexivity.
Qed.

(** X26: [cleanResponse] unwraps a fenced answer.  For a text without
    a fence (three backquotes) the cleaned response is the trimmed text;
    and the same text inside a fenced block, with the tag [json] or
    without a tag, is cleaned to the same result, so that it is parsed
    as the bare text is. *)
Theorem cleanResponse_unwraps (body : string) :
  Js.includes body "```" = false ->
  cleanResponse body = Js.trim body
  /\ cleanResponse (fenced "json" body) = Js.trim body
  /\ cleanResponse (fenced EmptyString body) = Js.trim body
  /\ parseReviewResponse (fenced "json" body) = parseReviewResponse body.
Proof.
  intros Hi. destruct (removeAll_closing body Hi) as [E1 E2].
  assert (Hj : Js.includes body "```json" = false)
    by (apply (includes_whole body "```json" "```" eq_refl Hi)).
  assert (Hbare : cleanResponse body = Js.trim body).
  { unfold cleanResponse. now rewrite (removeAll_free _ _ Hj), (removeAll_free _ _ Hi). }
  assert (Hjson : cleanResponse (fenced "json" body) = Js.trim body).
  { unfold cleanResponse, fenced.
    change (removeAll "```json" 0 false
              ("```" ++ "json" ++ DiffProcessor.newline ++ body
               ++ DiffProcessor.newline ++ "```"))
      with (removeAll "```json" 0 false (body ++ DiffProcessor.newline ++ "```")).
    rewrite E1, E2. apply trim_newline. }
  split; [exact Hbare|]. split; [exact Hjson|]. split.
  - unfold cleanResponse, fenced.
    change (removeAll "```json" 0 false
              ("```" ++ EmptyString ++ DiffProcessor.newline ++ body
               ++ DiffProcessor.newline ++ "```"))
      with (String "`" (String "`" (String "`" (String (ascii_of_nat 10)
              (removeAll "```json" 0 false (body ++ DiffProcessor.newline ++ "```")))))).
    rewrite E1.
    change (removeAll "```" 0 false
              (String "`" (String "`" (String "`" (String (ascii_of_nat 10)
                 (body ++ DiffProcessor.newline ++ "```"))))))
      with (removeAll "```" 0 false (body ++ DiffProcessor.newline ++ "```")).
    rewrite E2. apply trim_newline.
  - unfold parseReviewResponse. now rewrite Hjson, Hbare.
Qed.

End FenceFacts.

(** An answer of two characters. *)
Lemma cleanResponse_unwraps_braces :
  LlmService.cleanResponse "{}" = Js.trim "{}"
  /\ LlmService.cleanResponse (fenced "json" "{}") = Js.trim "{}"
  /\ LlmService.cleanResponse (fenced EmptyString "{}") = Js.trim "{}"
  /\ @LlmService.parseReviewResponse _ (Scripted.world Scripted.happy) (fenced "json" "{}")
     = @LlmService.parseReviewResponse _ (Scripted.world Scripted.happy) "{}".
Proof.
  apply (@cleanResponse_unwraps _ (Scripted.world Scripted.happy) "{}"). reflexivity.
Defined.

(** ** Webhook guard *)

Section GuardFacts.
Import GitLabWebhookGuard.

Lemma timingSafeEqual_eq (a b : list N) : timingSafeEqual a b = true <-> a = b.
Proof.
  revert b. induction a as [|x a IH]; intros [|y b]; cbn; split; try congruence.
  - intros Hb. apply andb_true_iff in Hb as [Hx Hb]. apply N.eqb_eq in Hx.
    apply IH in Hb. congruence.
  - intros E. injection E as -> ->. rewrite N.eqb_refl. now apply IH.
Qed.

Lemma length_chars (s : string) : List.length (Js.chars s) = String.length s.
Proof. unfold Js.chars. induction s as [|c s IH]; cbn; congruence. Qed.

Lemma written_ascii (s : string) :
  forall room : nat,
    isAscii s = true -> (String.length s <= room)%nat ->
    written room s = map N_of_ascii (Js.chars s).
Proof.
  unfold isAscii. induction s as [|c s IH]; intros room Ha Hl; [reflexivity|].
  cbn in Ha. apply andb_true_iff in Ha as [Hc Ha]. cbn [String.length] in Hl.
  cbn [written]. unfold utf8. cbv zeta. rewrite Hc. cbn [List.length app].
  destruct room as [|room]; [lia|]. cbn [Nat.leb Nat.sub].
  rewrite Nat.sub_0_r, IH by (assumption || lia). reflexivity.
Qed.

Lemma buffer_ascii (s : string) :
  isAscii s = true -> buffer (String.length s) s = map N_of_ascii (Js.chars s).
Proof.
  intros Ha. unfold buffer. cbv zeta. rewrite (written_ascii s _ Ha) by lia.
  rewrite length_map, length_chars, Nat.sub_diag. apply app_nil_r.
Qed.

Lemma chars_inj (s t : string) : Js.chars s = Js.chars t -> s = t.
Proof. intros E. now rewrite <- (str_chars s), <- (str_chars t), E. Qed.

Lemma codes_inj (l l' : list ascii) : map N_of_ascii l = map N_of_ascii l' -> l = l'.
Proof.
  revert l'. induction l as [|c l IH]; intros [|c' l'] E; try discriminate; [reflexivity|].
  injection E as Ec El. rewrite (IH _ El). f_equal.
  now rewrite <- (ascii_N_embedding c), <- (ascii_N_embedding c'), Ec.
Qed.

(** X27: who passes the webhook guard.  A request is only let through
    with a token that is not empty and as long as the secret; the
    secret itself, when it is configured, is always let through; and
    when the token and the secret are ASCII, the secret is the only
    token that is let through. *)
Theorem guard_accepts (token secret : string) :
  (canActivate (Some token) (Some secret) = activated ->
   token <> EmptyString /\ String.length token = String.length secret)
  /\ (secret <> EmptyString -> canActivate (Some secret) (Some secret) = activated)
  /\ (isAscii token = true -> isAscii secret = true ->
      canActivate (Some token) (Some secret) = activated -> token = secret).
Proof.
  assert (Hlen : canActivate (Some token) (Some secret) = activated ->
                 token <> EmptyString /\ String.length token = String.length secret
                 /\ buffer (String.length secret) token
                    = buffer (String.length secret) secret).
  { unfold canActivate. destruct token as [|c token]; [discriminate|].
    destruct secret as [|d secret]; [discriminate|]. cbv zeta.
    destruct (timingSafeEqual _ _) eqn:Et; [|discriminate].
    destruct (_ =? _)%nat eqn:El; [|discriminate]. intros _.
    apply Nat.eqb_eq in El. rewrite El, Nat.max_id in Et.
    apply timingSafeEqual_eq in Et. split; [discriminate|]. now split. }
  split; [intros Ha; destruct (Hlen Ha) as (Hn & Hl & _); now split|]. split.
  - intros Hs. unfold canActivate. destruct secret as [|d secret]; [contradiction|].
    cbv zeta. rewrite Nat.eqb_refl, andb_true_r.
    replace (timingSafeEqual _ _) with true; [reflexivity|].
    symmetry. now apply timingSafeEqual_eq.
  - intros Ht Hs Ha. destruct (Hlen Ha) as (_ & Hl & Hb).
    rewrite (buffer_ascii secret Hs) in Hb. rewrite <- Hl in Hb.
    rewrite (buffer_ascii token Ht) in Hb.
    now apply chars_inj, codes_inj.
Qed.

End GuardFacts.

(** Beyond ASCII the guard lets another token through: with the secret
    [éé] of Latin-1 the token [éñ] fills the buffer with the same two
    bytes, the second character of each being left out. *)
Lemma guard_latin1 :
  GitLabWebhookGuard.canActivate (Some (latin1 233 ++ latin1 241)%string)
                                 (Some (latin1 233 ++ latin1 233)%string)
  = GitLabWebhookGuard.activated.
Proof. vm_compute. reflexivity. Qed.

(** ** Review processor: where the retained issues are *)

Section RetainedFacts.
Import ReviewProcessor.
Context {Env : Type} `{World Env}.

Lemma hasChunk_In (all : list DiffChunk) (c : DiffChunk) :
  In c all -> hasChunk all (filename c) = true.
Proof.
  intros Hc. unfold hasChunk. apply existsb_exists. exists c.
  split; [assumption|apply String.eqb_refl].
Qed.

Lemma reviewChunk_files (projectId iid : Z) (mr : MRDetails) (all : list DiffChunk)
      (chunk : DiffChunk) (t : Tally) (st : St Env) :
  In chunk all ->
  (forall i, In i (allIssues t) -> hasChunk all (file i) = true) ->
  forall i, In i (allIssues (fst (reviewChunk projectId iid mr chunk t st))) ->
            hasChunk all (file i) = true.
Proof.
  intros Hc Ht i. unfold reviewChunk. rewrite !bind_run. cbn [ret fst allIssues].
  rewrite publish_result. intros Hi. apply in_app_or in Hi as [Hi|Hi]; [now apply Ht|].
  apply in_map_iff in Hi as (j & <- & _). cbn [file]. now apply hasChunk_In.
Qed.

Lemma reviewIndividually_files (projectId iid : Z) (mr : MRDetails)
      (all : list DiffChunk) (l : list DiffChunk) :
  incl l all ->
  forall (t : Tally) (st : St Env),
    (forall i, In i (allIssues t) -> hasChunk all (file i) = true) ->
    forall i, In i (allIssues (fst (forEach l (reviewChunk projectId iid mr) t st))) ->
              hasChunk all (file i) = true.
Proof.
  induction l as [|chunk l IH]; intros Hl t st Ht; cbn [forEach]; [exact Ht|].
  rewrite bind_run. apply IH.
  - intros c Hc. apply Hl. now right.
  - apply reviewChunk_files; [apply Hl; now left|exact Ht].
Qed.

Lemma reviewChunks_files (projectId iid : Z) (mr : MRDetails) (all : list DiffChunk)
      (st : St Env) :
  forall i, In i (allIssues (fst (reviewChunks projectId iid mr all st))) ->
            hasChunk all (file i) = true.
Proof.
  unfold reviewChunks. destruct (shouldBatch all).
  - unfold reviewBatched. rewrite bind_run.
    apply (forEach_invariant
             (fun t => forall i, In i (allIssues t) -> hasChunk all (file i) = true)).
    + intros j t st1 Ht i.
      destruct (batchedIssue_retains projectId iid mr all j t st1) as [-> | [Hj ->]];
        [apply Ht|].
      cbn [allIssues]. intros Hi. apply in_app_or in Hi as [Hi|[<-|[]]];
        [now apply Ht|assumption].
    + intros i [].
  - unfold reviewIndividually.
    apply reviewIndividually_files; [apply incl_refl|intros i []].
Qed.

Lemma collectDiff_files (projectId : Z) (mr : MRDetails) (d : GitLabDiff)
      (acc : list DiffChunk) (st : St Env) (c : DiffChunk) :
  In c (fst (collectDiff projectId mr d acc st)) ->
  In c acc \/ filename c = Js.orStr (new_path d) (old_path d).
Proof.
  unfold collectDiff.
  destruct (diff d) as [|a0 s]; [now left|].
  destruct (Js.orStr (new_path d) (old_path d)) as [|a path]; [now left|].
  generalize (DiffProcessor.extractChangedLinesWithContext (String a0 s) 10).
  intros chunks. revert acc st.
  induction chunks as [|chunk chunks IH]; intros acc st; cbn [forEach]; [now left|].
  rewrite !bind_run. cbn [ret fst snd]. intros Hc.
  apply IH in Hc as [Hc|Hc]; [|now right].
  apply in_app_or in Hc as [Hc|[<-|[]]]; [now left|right].
  apply withContext_fetches.
Qed.

Lemma collectChunks_files (projectId : Z) (mr : MRDetails) (diffs : list GitLabDiff) :
  forall (acc : list DiffChunk) (st : St Env) (c : DiffChunk),
    In c (fst (forEach diffs (collectDiff projectId mr) acc st)) ->
    In c acc
    \/ exists d, In d diffs /\ filename c = Js.orStr (new_path d) (old_path d).
Proof.
  induction diffs as [|d diffs IH]; intros acc st c; cbn [forEach]; [now left|].
  rewrite bind_run. intros Hc. apply IH in Hc as [Hc|(d' & Hd & Hf)].
  - apply collectDiff_files in Hc as [Hc|Hc]; [now left|].
    right. exists d. split; [now left|assumption].
  - right. exists d'. split; [now right|assumption].
Qed.

(** X28: a job never retains an issue on a file that it did not
    review.  Every issue that a job which gets to its diffs and
    resolves has stored is on the path (the new path or, without one,
    the old path) of one of the first 50 diffs of the merge request,
    whatever file the model named. *)
Theorem retained_files (projectId iid : Z) (st : St Env) (diffs : list GitLabDiff)
        (mr : MRDetails) (st3 st' : St Env) :
  reaches projectId iid st diffs mr st3 ->
  handleReview projectId iid st = (Some tt, st') ->
  exists retained : list IssueWithFile,
    reviewContent (review st') = contentIssues retained
    /\ forall i, In i retained ->
         exists d, In d (firstn 50 diffs)
                   /\ file i = Js.orStr (new_path d) (old_path d).
Proof.
  intros Hr Hh.
  destruct (job_stages _ _ _ _ _ _ _ Hr Hh _ _ eq_refl eq_refl) as (body & _ & _ & Hv).
  match type of Hv with
  | context [allIssues (fst ?r)] => exists (allIssues (fst r))
  end.
  split; [now rewrite Hv|]. intros i Hi.
  apply reviewChunks_files in Hi. unfold hasChunk in Hi.
  apply existsb_exists in Hi as (c & Hc & Hf). apply String.eqb_eq in Hf.
  unfold collectChunks in Hc. apply collectChunks_files in Hc as [[]|(d & Hd & Hp)].
  exists d. rewrite <- Hf. split; [|assumption].
  change (Z.of_nat MAX_FILES) with (Z.of_nat 50) in Hd.
  now rewrite slice_prefix in Hd.
Qed.

End RetainedFacts.

(** The first scenario: [utils.ts] and [main.ts]. *)
Lemma retained_files_happy :
  exists retained : list IssueWithFile,
    reviewContent (review (snd (Scripted.handle Scripted.happy Scripted.happyStart)))
    = contentIssues retained
    /\ forall i, In i retained ->
         exists d, In d (firstn 50 Scripted.happyDiffs)
                   /\ file i = Js.orStr (new_path d) (old_path d).
Proof.
  apply (@retained_files _ (Scripted.world Scripted.happy) 1%Z 1%Z
           Scripted.happyStart Scripted.happyDiffs Scripted.sha1
           (Scripted.fetched Scripted.happy Scripted.happyStart)).
  - apply happy_reaches.
  - vm_compute. reflexivity.
Defined.

(** ** Review processor: the cost of a job *)

Section CostFacts.
Import ReviewProcessor.
Context {Env : Type} `{World Env}.

Lemma attempts_none (more : list Event) :
  forallb (fun e => negb (isChat e)) more = true -> filter isChat more = [].
Proof.
  induction more as [|e more IH]; cbn [forallb]; [reflexivity|].
  intros Hm. apply andb_true_iff in Hm as [He Hm].
  cbn [filter]. rewrite (IH Hm). now destruct (isChat e).
Qed.

Lemma emits_attempts {A} (m : M Env A) :
  emits (fun e => negb (isChat e)) m -> attemptsBy 0 m.
Proof.
  intros Hm st. destruct (Hm st) as (more & E & F). unfold attempts.
  rewrite E, filter_app, (attempts_none more F), app_nil_r. lia.
Qed.

Lemma attemptsBy_ret {A} (k : nat) (a : A) : attemptsBy k (@ret Env A a).
Proof. intros st. cbn [ret snd]. lia. Qed.

Lemma attemptsBy_bind {A B} (a b : nat) (m : M Env A) (k : A -> M Env B) :
  attemptsBy a m -> (forall x, attemptsBy b (k x)) -> attemptsBy (a + b) (bind m k).
Proof.
  intros Hm Hk st. rewrite bind_run.
  specialize (Hm st). specialize (Hk (fst (m st)) (snd (m st))). lia.
Qed.

Lemma attemptsBy_forEach {A T} (k : nat) (l : list A) (body : A -> T -> M Env T) :
  (forall x s, attemptsBy k (body x s)) ->
  forall s, attemptsBy (k * List.length l) (forEach l body s).
Proof.
  intros Hb. induction l as [|x l IH]; intros s; cbn [forEach List.length].
  - rewrite Nat.mul_0_r. apply attemptsBy_ret.
  - replace (k * S (List.length l))%nat with (k + k * List.length l)%nat by lia.
    apply attemptsBy_bind; [apply Hb|]. intros s'. apply IH.
Qed.

(** The services that do not ask the model. *)
Lemma noChat (e : Event) : negb (isChat e) = true -> negb (isChat e) = true.
Proof. exact (fun He => He). Qed.

Lemma silent_getFileContentWithContext (projectId : Z) (path ref : string) (n c : Z) :
  emits (fun e => negb (isChat e))
        (GitLabService.getFileContentWithContext projectId path ref n c).
Proof. unfold GitLabService.getFileContentWithContext. emitting noChat. Qed.

Lemma silent_verifyIssue (i : CodeIssue) (context : VerificationContext) :
  emits (fun e => negb (isChat e)) (IssueVerifier.verifyIssue i context).
Proof.
  unfold IssueVerifier.verifyIssue, IssueVerifier.verifyImportIssue,
    IssueVerifier.verifyDefinitionIssue, GitLabService.getFileContent.
  emitting noChat; apply silent_getFileContentWithContext.
Qed.

Lemma silent_collectChunks (projectId : Z) (mr : MRDetails) (diffs : list GitLabDiff) :
  emits (fun e => negb (isChat e)) (collectChunks projectId mr diffs).
Proof.
  unfold collectChunks, collectDiff, withContext.
  emitting noChat; apply silent_getFileContentWithContext.
Qed.

Lemma silent_batchedIssue (projectId iid : Z) (mr : MRDetails) (all : list DiffChunk)
      (i : IssueWithFile) (t : Tally) :
  emits (fun e => negb (isChat e)) (batchedIssue projectId iid mr all i t).
Proof.
  unfold batchedIssue, GitLabService.postInlineComment.
  emitting noChat; apply silent_verifyIssue.
Qed.

Lemma silent_afterReview (projectId iid : Z) (mr : MRDetails) (chunk : DiffChunk)
      (found : list CodeIssue) (t : Tally) :
  emits (fun e => negb (isChat e))
        (bind (verifyAll projectId mr chunk found) (fun verifiedIssues =>
           bind (publish projectId iid mr chunk verifiedIssues (allIssues t)) (fun all =>
             ret (mkTally all
                    (fold_left (fun score i => (score - impact (severity i))%Z)
                               verifiedIssues (totalScore t))
                    (S (filesProcessed t)))))).
Proof.
  unfold verifyAll, publish, GitLabService.postInlineComment.
  emitting noChat; apply silent_verifyIssue.
Qed.

Lemma silent_postAndPersist (projectId iid : Z) (skipped : nat) (t : Tally) :
  emits (fun e => negb (isChat e)) (postAndPersist projectId iid skipped t).
Proof.
  unfold postAndPersist, GitLabService.postMRComment.
  emitting noChat; apply emits_updateReview; reflexivity.
Qed.

Lemma attemptsBy_reviewChangedLines (chunk : DiffChunk) :
  attemptsBy 4 (LlmService.reviewChangedLines chunk).
Proof.
  intros st. destruct llmEnabled eqn:He.
  - rewrite (reviewChangedLines_retried chunk He). now apply retried_bound.
  - destruct (disabled_no_attempt chunk [] st He) as [-> _]. lia.
Qed.

Lemma attemptsBy_reviewMultipleChunks (chunks : list DiffChunk) :
  attemptsBy 4 (LlmService.reviewMultipleChunks chunks).
Proof.
  intros st. destruct llmEnabled eqn:He.
  - rewrite (reviewMultipleChunks_retried chunks He). now apply retried_bound.
  - destruct chunks as [|c chunks].
    + unfold LlmService.reviewMultipleChunks, LlmService.isEnabled.
      rewrite bind_run, He. cbn [negb ret snd].
      rewrite (emitted_attempts (EvReviewMultipleChunks []) st eq_refl). lia.
    + destruct (disabled_no_attempt c (c :: chunks) st He) as [_ ->]. lia.
Qed.

Lemma attemptsBy_reviewChunks (projectId iid : Z) (mr : MRDetails) (all : list DiffChunk) :
  attemptsBy (if shouldBatch all then 4 else 4 * List.length all)
             (reviewChunks projectId iid mr all).
Proof.
  unfold reviewChunks. destruct (shouldBatch all).
  - unfold reviewBatched.
    apply (attemptsBy_bind 4 0); [apply attemptsBy_reviewMultipleChunks|].
    intros result. apply emits_attempts, emits_forEach.
    intros i t. apply silent_batchedIssue.
  - unfold reviewIndividually. apply attemptsBy_forEach. intros chunk t.
    unfold reviewChunk.
    apply (attemptsBy_bind 4 0); [apply attemptsBy_reviewChangedLines|].
    intros result. apply emits_attempts, silent_afterReview.
Qed.

(** X29: the cost of a job in chat completions.  A job that gets to
    its diffs attempts at most 4 completions for each collected chunk,
    and at most 4 in all when the chunks are reviewed in one batch
    (more than one chunk, and at most 500 changed lines), whether it
    resolves or rejects. *)
Theorem job_attempts_bound (projectId iid : Z) (st : St Env) (diffs : list GitLabDiff)
        (mr : MRDetails) (st3 : St Env) (all : list DiffChunk) (st4 : St Env) :
  reaches projectId iid st diffs mr st3 ->
  collectChunks projectId mr (Js.slice diffs 0 (Z.of_nat MAX_FILES)) st3 = (all, st4) ->
  (attempts (snd (handleReview projectId iid st)) <= attempts st + 4 * List.length all)%nat
  /\ ((totalChangedLines all <= 500)%nat /\ (1 < List.length all)%nat ->
      (attempts (snd (handleReview projectId iid st)) <= attempts st + 4)%nat).
Proof.
  intros Hr Hc.
  assert (Hb : (attempts (snd (handleReview projectId iid st))
                <= attempts st + (if shouldBatch all then 4 else 4 * List.length all))%nat).
  { unfold handleReview. rewrite bind_run, (tryReview_reaches _ _ _ _ _ _ Hr).
    assert (Ht : (attempts (snd (reviewDiffs projectId iid mr diffs st3))
                  <= attempts st
                     + (if shouldBatch all then 4 else 4 * List.length all))%nat).
    { unfold reviewDiffs. rewrite (bind_step _ _ _ _ _ Hc), bind_run.
      pose proof (emits_attempts _ (silent_postAndPersist projectId iid
                    (List.length diffs - MAX_FILES)
                    (fst (reviewChunks projectId iid mr all st4)))
                    (snd (reviewChunks projectId iid mr all st4))) as E5.
      pose proof (attemptsBy_reviewChunks projectId iid mr all st4) as E4.
      pose proof (emits_attempts _ (silent_collectChunks projectId mr
                    (Js.slice diffs 0 (Z.of_nat MAX_FILES))) st3) as E3.
      rewrite Hc in E3. cbn [snd] in E3.
      destruct Hr as (_ & _ & st1 & st2 & H1 & H2 & H3).
      pose proof (emits_attempts _ (emits_updateReview _ (statusOnly PROCESSING) eq_refl)
                    st) as F1.
      assert (Hd : emits (fun e => negb (isChat e))
                         (GitLabService.getMRDiffs projectId iid))
        by (apply (emits_weaken isBookkeeping);
            [now intros []|apply bookkeeping_getMRDiffs]).
      assert (Hm : emits (fun e => negb (isChat e))
                         (GitLabService.getMRDetails projectId iid))
        by (apply (emits_weaken isBookkeeping);
            [now intros []|apply bookkeeping_getMRDetails]).
      pose proof (emits_attempts _ Hd st1) as F2.
      pose proof (emits_attempts _ Hm st2) as F3.
      rewrite H1 in F1. rewrite H2 in F2. rewrite H3 in F3. cbn [snd] in *. lia. }
    destruct (fst (reviewDiffs projectId iid mr diffs st3)) as [[]|];
      cbn [ret snd]; [exact Ht|].
    rewrite bind_run. cbn [ret snd].
    pose proof (emits_attempts _ (emits_updateReview _ (statusOnly FAILED) eq_refl)
                  (snd (reviewDiffs projectId iid mr diffs st3))) as F. lia. }
  split.
  - destruct (shouldBatch all) eqn:Es; [|exact Hb].
    apply shouldBatch_spec in Es. lia.
  - intros Hs. apply shouldBatch_spec in Hs. now rewrite Hs in Hb.
Qed.

End CostFacts.

(** The first scenario: one batch. *)
Lemma job_attempts_bound_happy :
  let all := fst (Scripted.collected Scripted.happy Scripted.happyDiffs Scripted.happyStart) in
  (attempts (snd (Scripted.handle Scripted.happy Scripted.happyStart))
   <= attempts Scripted.happyStart + 4 * List.length all)%nat
  /\ ((ReviewProcessor.totalChangedLines all <= 500)%nat /\ (1 < List.length all)%nat ->
      (attempts (snd (Scripted.handle Scripted.happy Scripted.happyStart))
       <= attempts Scripted.happyStart + 4)%nat).
Proof.
  exact (@job_attempts_bound _ (Scripted.world Scripted.happy) 1%Z 1%Z
           Scripted.happyStart Scripted.happyDiffs Scripted.sha1
           (Scripted.fetched Scripted.happy Scripted.happyStart)
           (fst (Scripted.collected Scripted.happy Scripted.happyDiffs Scripted.happyStart))
           (snd (Scripted.collected Scripted.happy Scripted.happyDiffs Scripted.happyStart))
           (happy_reaches Scripted.happyStart)
           (surjective_pairing _)).
Defined.

(** ** The extension of a path *)

Section ExtensionFacts.

Lemma splitFrom_parts (sep : string) (s : string) :
  forall (skip : nat) (acc : list ascii), Js.splitFrom sep skip acc s <> [].
Proof.
  induction s as [|c s IH]; intros skip acc; cbn [Js.splitFrom]; [discriminate|].
  destruct skip; [|apply IH].
  destruct (Js.startsWith (String c s) sep); [discriminate|apply IH].
Qed.

Lemma last_cons {A} (x d : A) (l : list A) : l <> [] -> last (x :: l) d = last l d.
Proof. now destruct l. Qed.

Lemma append_empty (s : string) : (s ++ EmptyString)%string = s.
Proof. induction s as [|c s IH]; cbn; congruence. Qed.

Lemma splitFrom_whole (sep : string) (e : string) :
  forall acc : list ascii,
    Js.includes e sep = false ->
    Js.splitFrom sep 0 acc e = [(Js.str (rev acc) ++ e)%string].
Proof.
  induction e as [|c e IH]; intros acc Hi; cbn [Js.splitFrom].
  - now rewrite append_empty.
  - cbn [Js.includes] in Hi. apply orb_false_iff in Hi as [Hs Hi].
    rewrite Hs, (IH _ Hi). now rewrite str_snoc.
Qed.

Lemma lastPart_dot (dir ext : string) :
  Js.includes ext "." = false ->
  forall acc : list ascii,
    last (Js.splitFrom "." 0 acc (dir ++ "." ++ ext)) EmptyString = ext.
Proof.
  intros Hi. induction dir as [|c dir IH]; intros acc.
  - change (EmptyString ++ "." ++ ext)%string with (String "." ext).
    cbn [Js.splitFrom].
    replace (Js.startsWith (String "." ext) ".") with true by (now destruct ext).
    cbn [String.length Nat.sub].
    rewrite last_cons by apply splitFrom_parts.
    now rewrite (splitFrom_whole "." ext [] Hi).
  - change (String c dir ++ "." ++ ext)%string with (String c (dir ++ "." ++ ext)).
    cbn [Js.splitFrom].
    destruct (Js.startsWith (String c (dir ++ "." ++ ext)) ".").
    + cbn [String.length Nat.sub].
      rewrite last_cons by apply splitFrom_parts. apply IH.
    + apply IH.
Qed.

(** X30: the extension decides.  The language of a chunk and the
    pattern of the imports of a file only depend on what follows the
    last dot of the path, and a path without a dot stands for its own
    extension: for an extension without a dot, the path made of
    anything, a dot and the extension is treated as the extension alone
    is. *)
Theorem extension_decides (dir ext : string) :
  Js.includes ext "." = false ->
  DiffProcessor.detectLanguage (dir ++ "." ++ ext) = DiffProcessor.detectLanguage ext
  /\ patternOf (dir ++ "." ++ ext) = patternOf ext
  /\ forall lines,
      GitLabService.extractImports lines (dir ++ "." ++ ext)
      = GitLabService.extractImports lines ext.
Proof.
  intros Hi.
  assert (E : Js.lastPart (dir ++ "." ++ ext) "." = Js.lastPart ext ".").
  { unfold Js.lastPart, Js.split. rewrite (lastPart_dot dir ext Hi).
    now rewrite (splitFrom_whole "." ext [] Hi). }
  unfold DiffProcessor.detectLanguage, patternOf, GitLabService.extractImports.
  rewrite E. now repeat split.
Qed.

End ExtensionFacts.

(** A TypeScript file, and the file [ts]. *)
Lemma extension_decides_ts :
  DiffProcessor.detectLanguage ("src/Main" ++ "." ++ "TS") = DiffProcessor.detectLanguage "TS"
  /\ patternOf ("src/Main" ++ "." ++ "TS") = patternOf "TS"
  /\ forall lines,
      GitLabService.extractImports lines ("src/Main" ++ "." ++ "TS")
      = GitLabService.extractImports lines "TS".
Proof. apply extension_decides. reflexivity. Defined.
